(** * jibi: the CPU core, its MMU and the interrupt / boot-ROM handoff

    A shallow embedding of the two Go sources of the emulator:

    - [Main]  the earlier, single-threaded CPU (package [main]): register
              file, flag-exact ALU primitives, relative jumps, reset and the
              fetch/execute pair over an abstract memory controller;
    - [Jibi]  the later CPU and MMU (package [jibi]): address-block
              arbitration with key sets and per-block mutexes, memory-mapped
              I/O ports with queued writes, the boot-ROM overlay, interrupt
              dispatch and the step function.

    Machine integers are [Z] with the wrap-around of Go's fixed-width types
    written out; slices are lists read and updated by index, an index out
    of range being the run-time panic it is in Go. *)

From Stdlib Require Import ZArith Bool List String Lia.
From stdpp Require Import base list.
Import ListNotations.

#[local] Open Scope Z_scope.
#[local] Open Scope bool_scope.

(** ** Fixed-width integers *)

Module Int.

(** [uint8(x)] and [uint16(x)]: truncation to the low bits. *)
Definition u8 (x : Z) : Z := x mod 256.
Definition u16 (x : Z) : Z := x mod 65536.

(** [int8(x)]: the two's-complement reading of the low eight bits. *)
Definition i8 (x : Z) : Z :=
  let y := x mod 256 in if y <? 128 then y else y - 256.

End Int.

(** ** Outcomes of fallible operations

    A Go call either returns, panics (fatal to the emulator: nothing in the
    sources recovers), or waits on a mutex that another bus master holds. *)

Inductive error : Type :=
  | UnhandledMemory (rw : string) (a : Z) (info : string)
  | UnauthorizedRead (a : Z)
  | UnauthorizedWrite (a : Z) (b : Z)
  | UnhandledQueuedWrite (a : Z)
  | UnhandledIoRead (a : Z)
  | IndexOutOfRange (i : Z)
  | NilDereference
  | UnlockOfUnlockedMutex.

Inductive outcome (A : Type) : Type :=
  | Ok (x : A)
  | Panic (e : error)
  | Blocked.

Arguments Ok {A} x.
Arguments Panic {A} e.
Arguments Blocked {A}.

Definition bind {A B : Type} (o : outcome A) (k : A -> outcome B) : outcome B :=
  match o with
  | Ok x => k x
  | Panic e => Panic e
  | Blocked => Blocked
  end.

Declare Scope outcome_scope.
Delimit Scope outcome_scope with outcome.
Notation "'let!' x := o 'in' k" := (bind o (fun x => k))
  (at level 10, x name, o at level 100, k at level 200, only parsing)
  : outcome_scope.
Notation "'let!' ' p := o 'in' k" :=
  (bind o (fun x => match x with p => k end))
  (at level 10, p pattern, o at level 100, k at level 200, only parsing)
  : outcome_scope.
#[local] Open Scope outcome_scope.

Definition is_panic {A : Type} (o : outcome A) : bool :=
  match o with Panic _ => true | _ => false end.

(** Indexing a slice: [s[i]] panics outside [0 <= i < len(s)]. *)
Definition index (s : list Z) (i : Z) : outcome Z :=
  if i <? 0 then Panic (IndexOutOfRange i)
  else match s !! Z.to_nat i with
       | Some v => Ok v
       | None => Panic (IndexOutOfRange i)
       end.

(** [s[i] = v], same panic. *)
Definition store (s : list Z) (i : Z) (v : Z) : outcome (list Z) :=
  if i <? 0 then Panic (IndexOutOfRange i)
  else if (Z.to_nat i <? length s)%nat then Ok (<[Z.to_nat i := v]> s)
  else Panic (IndexOutOfRange i).

(** ** Registers and flags

    The [register8] and [register16] types and their methods are not among
    the sources; sections 3 and 4.A of the specification describe them. *)

Module Reg.

(** Modelled from the spec: a fresh 8-bit register holds zero. *)
Definition newRegister8 : Z := 0.

(** Modelled from the spec: the flags register starts at zero as well. *)
Definition newFlagsRegister8 : Z := 0.

(** Modelled from the spec: [r.set(v)] stores the byte [v]. *)
Definition set (v : Z) : Z := Int.u8 v.

(** Modelled from the spec: any write to F masks the low nibble to zero. *)
Definition setFlags (v : Z) : Z := Z.land (Int.u8 v) 0xF0.

(** Modelled from the spec: individual flag get by bit mask. *)
Definition getFlag (r mask : Z) : bool := Z.land r mask =? mask.

(** Modelled from the spec: individual flag set by bit mask. *)
Definition setFlag (r mask : Z) : Z := setFlags (Z.lor r mask).

(** Modelled from the spec: individual flag reset by bit mask. *)
Definition resetFlag (r mask : Z) : Z :=
  setFlags (Z.land r (Z.lxor mask 0xFF)).

End Reg.

(** Modelled from the spec: the instruction type is not among the sources;
    section 3 makes it an opcode with its immediate bytes, and the sources
    use it through the fields [o] and [p]. *)
Record instruction : Type := newInstruction { o : Z; p : list Z }.

(** ** The earlier CPU (package [main]) *)

Module Main.

Definition flagZ : Z := 0x80.
Definition flagN : Z := 0x40.
Definition flagH : Z := 0x20.
Definition flagC : Z := 0x10.

(** The memory controller [mc mmu] is used through four methods only; its
    implementation is not among the sources, so it stays an interface. *)
Class mmu (M : Type) : Type := {
  readByte : M -> Z -> outcome Z;
  readWord : M -> Z -> outcome Z;
  writeWord : M -> Z -> Z -> outcome M;
  unloadBios : M -> M
}.

Section Cpu.

Context {M : Type} `{mmu M}.

Record cpu : Type := mkCpu {
  a : Z; b : Z; c : Z; d : Z; e : Z;
  f : Z; (* 8 bits, but lower 4 bits always read zero *)
  h : Z; l : Z;
  sp : Z; pc : Z;
  m : Z; (* machine cycles *)
  t : Z; (* clock cycles *)
  inst : instruction;
  mc : M
}.

Definition with_f (v : Z) (s : cpu) : cpu :=
  mkCpu (a s) (b s) (c s) (d s) (e s) v (h s) (l s) (sp s) (pc s)
        (m s) (t s) (inst s) (mc s).
Definition with_sp (v : Z) (s : cpu) : cpu :=
  mkCpu (a s) (b s) (c s) (d s) (e s) (f s) (h s) (l s) v (pc s)
        (m s) (t s) (inst s) (mc s).
Definition with_pc (v : Z) (s : cpu) : cpu :=
  mkCpu (a s) (b s) (c s) (d s) (e s) (f s) (h s) (l s) (sp s) v
        (m s) (t s) (inst s) (mc s).
Definition with_clocks (vm vt : Z) (s : cpu) : cpu :=
  mkCpu (a s) (b s) (c s) (d s) (e s) (f s) (h s) (l s) (sp s) (pc s)
        vm vt (inst s) (mc s).
Definition with_inst (i : instruction) (s : cpu) : cpu :=
  mkCpu (a s) (b s) (c s) (d s) (e s) (f s) (h s) (l s) (sp s) (pc s)
        (m s) (t s) i (mc s).
Definition with_mc (v : M) (s : cpu) : cpu :=
  mkCpu (a s) (b s) (c s) (d s) (e s) (f s) (h s) (l s) (sp s) (pc s)
        (m s) (t s) (inst s) v.

(** [newCpu]: fresh registers, [sp: 0xFFFE, pc: 0x0000]; the ticker is
    wall-clock pacing and has no part in the state. *)
Definition newCpu (mem : M) : cpu :=
  mkCpu Reg.newRegister8 Reg.newRegister8 Reg.newRegister8
        Reg.newRegister8 Reg.newRegister8 Reg.newFlagsRegister8
        Reg.newRegister8 Reg.newRegister8
        0xFFFE 0x0000 0 0 (newInstruction 0 []) mem.

Definition reset (s : cpu) : cpu :=
  mkCpu (Reg.set 0) (Reg.set 0) (Reg.set 0) (Reg.set 0) (Reg.set 0)
        (Reg.setFlags 0) (Reg.set 0) (Reg.set 0)
        0xFFFE 0x0000 0 0 (inst s) (mc s).

(** *** ALU primitives: each returns its result and the updated CPU *)

Definition f_set (v : Z) (s : cpu) : cpu := with_f (Reg.setFlags v) s.
Definition f_setFlag (mask : Z) (s : cpu) : cpu :=
  with_f (Reg.setFlag (f s) mask) s.
Definition f_resetFlag (mask : Z) (s : cpu) : cpu :=
  with_f (Reg.resetFlag (f s) mask) s.
Definition f_getFlag (mask : Z) (s : cpu) : bool := Reg.getFlag (f s) mask.

Definition sbc (x y : Z) (s : cpu) : Z * cpu :=
  let carry := if f_getFlag flagC s then 1 else 0 in
  let r := Int.u8 (x - Int.u8 (y + carry)) in
  let s := f_set 0 s in
  let s := if r =? 0 then f_setFlag flagZ s else s in
  let s := f_setFlag flagN s in
  let s := if Z.land x 0x0F >=? Int.u8 (Z.land y 0x0F + carry)
           then f_setFlag flagH s else s in
  let s := if x >=? Int.u8 (y + carry) then f_setFlag flagC s else s in
  (r, s).

Definition sub (x y : Z) (s : cpu) : Z * cpu :=
  let r := Int.u8 (x - y) in
  let s := f_set 0 s in
  let s := if r =? 0 then f_setFlag flagZ s else s in
  let s := f_setFlag flagN s in
  let s := if Z.land x 0x0F >=? Z.land y 0x0F
           then f_setFlag flagH s else s in
  let s := if x >=? y then f_setFlag flagC s else s in
  (r, s).

Definition adc (x y : Z) (s : cpu) : Z * cpu :=
  let carry := if f_getFlag flagC s then 1 else 0 in
  let r := Int.u8 (x + y + carry) in
  let s := f_set 0 s in
  let s := if r =? 0 then f_setFlag flagZ s else s in
  let s := if Int.u8 (Z.land x 0x0F + Z.land y 0x0F + carry) >? 0x0F
           then f_setFlag flagH s else s in
  let s := if Int.u16 (x + y + carry) >? 0xFF
           then f_setFlag flagC s else s in
  (r, s).

Definition add (x y : Z) (s : cpu) : Z * cpu :=
  let r := Int.u8 (x + y) in
  let s := f_set 0 s in
  let s := if r =? 0 then f_setFlag flagZ s else s in
  let s := if Int.u8 (Z.land x 0x0F + Z.land y 0x0F) >? 0x0F
           then f_setFlag flagH s else s in
  let s := if Int.u16 (x + y) >? 0xFF then f_setFlag flagC s else s in
  (r, s).

(** [addWordR]: 16-bit plus signed 8-bit, through the 8-bit primitives. *)
Definition addWordR (w : Z) (n : Z) (s : cpu) : Z * cpu :=
  let hi := Int.u8 (Z.shiftr w 8) in
  let lo := Int.u8 (Z.land w 0xFF) in
  if n <? 0 then
    let bu := Int.u8 (Int.i8 (- n)) in
    let '(lo, s) := sub lo bu s in
    let '(hi, s) := sbc hi 0 s in
    (Int.u16 (Z.shiftl hi 8 + lo), s)
  else
    let bu := Int.u8 n in
    let '(lo, s) := add lo bu s in
    let '(hi, s) := adc hi 0 s in
    (Int.u16 (Z.shiftl hi 8 + lo), s).

(** *** The other ALU primitives *)

(** [1<<b] at the operand type [uint8]. *)
Definition shl1 (bi : Z) : Z := Int.u8 (Z.shiftl 1 bi).

Definition bit (bi n : Z) (s : cpu) : cpu :=
  let set := Z.land (shl1 bi) n =? shl1 bi in
  let s := if negb set then f_setFlag flagZ s else f_resetFlag flagZ s in
  let s := f_resetFlag flagN s in
  f_setFlag flagH s.

Definition xor (x y : Z) (s : cpu) : Z * cpu :=
  let r := Z.lxor x y in
  let s := f_set 0 s in
  let s := if r =? 0 then f_setFlag flagZ s else s in
  (r, s).

Definition and (x y : Z) (s : cpu) : Z * cpu :=
  let r := Z.land x y in
  let s := f_set 0 s in
  let s := if r =? 0 then f_setFlag flagZ s else s in
  let s := f_setFlag flagH s in
  (r, s).

Definition or (x y : Z) (s : cpu) : Z * cpu :=
  let r := Z.lor x y in
  let s := f_set 0 s in
  let s := if r =? 0 then f_setFlag flagZ s else s in
  (r, s).

Definition inc (x : Z) (s : cpu) : Z * cpu :=
  let r := Int.u8 (x + 1) in
  let s := if r =? 0 then f_setFlag flagZ s else f_resetFlag flagZ s in
  let s := f_resetFlag flagN s in
  let s := if Z.land x 0x0F =? 0x0F
           then f_setFlag flagH s else f_resetFlag flagH s in
  (r, s).

Definition dec (x : Z) (s : cpu) : Z * cpu :=
  let r := Int.u8 (x - 1) in
  let s := if r =? 0 then f_setFlag flagZ s else f_resetFlag flagZ s in
  let s := f_setFlag flagN s in
  let s := if negb (Z.land x 0x0F =? 0x0F)
           then f_setFlag flagH s else f_resetFlag flagH s in
  (r, s).

(** rotate right through carry (yes, naming is odd) *)
Definition rr (n : Z) (s : cpu) : Z * cpu :=
  let r := Z.shiftr n 1 in
  let r := if f_getFlag flagC s (* old carry is bit 7 *)
           then Int.u8 (r + Int.u8 (Z.shiftl 1 7)) else r in
  let s := f_set 0 s in
  let s := if r =? 0 then f_setFlag flagZ s else s in
  let s := if Z.land n 0x01 =? 0x01 (* carry is old bit 0 *)
           then f_setFlag flagC s else s in
  (r, s).

(** rotate left through carry *)
Definition rl (n : Z) (s : cpu) : Z * cpu :=
  let r := Int.u8 (Z.shiftl n 1) in
  let r := if f_getFlag flagC s (* old carry is bit 0 *)
           then Int.u8 (r + 1) else r in
  let s := f_set 0 s in
  let s := if r =? 0 then f_setFlag flagZ s else s in
  let s := if Z.land n 0x80 =? 0x80 (* carry is old bit 7 *)
           then f_setFlag flagC s else s in
  (r, s).

(** *** Jumps

    [n] is an [int8]; [-n] is computed in [int8] and then converted to
    the 16-bit register type, which sign-extends. *)
Definition jr (n : Z) (s : cpu) : cpu :=
  if n <? 0 then
    with_pc (Int.u16 (pc s + Int.u16 (Int.i8 (- n)))) s
  else
    with_pc (Int.u16 (pc s + Int.u16 n)) s.

Definition jrF (mask : Z) (n : Z) (s : cpu) : cpu :=
  if Bool.eqb (f_getFlag mask s) true then jr n s else s.

Definition jrNF (mask : Z) (n : Z) (s : cpu) : cpu :=
  if Bool.eqb (f_getFlag mask s) false then jr n s else s.

Definition jp (addr : Z) (s : cpu) : cpu := with_pc (Int.u16 addr) s.





(** *** Fetch and execute

    The opcode table is a parameter: it is declared elsewhere in the
    repository.  A lookup that misses yields Go's zero value in [fetch]
    (so no operand bytes are read) and [ok = false] in [execute]. *)

(** Modelled from the spec: a table entry gives the operand byte count
    [b], the cycle cost [t] and the executor [f] (sections 3 and 4.C). *)
Record command : Type := mkCommand {
  cmd_b : Z;
  cmd_t : Z;
  cmd_f : cpu -> outcome cpu
}.

Variable commandTable : Z -> option command.

Fixpoint fetch_operands (n : nat) (s : cpu) : outcome cpu :=
  match n with
  | O => Ok s
  | S n' =>
      let! v := readByte (mc s) (pc s) in
      let s := with_inst (newInstruction (o (inst s)) (p (inst s) ++ [v])) s in
      fetch_operands n' (with_pc (Int.u16 (pc s + 1)) s)
  end.

Definition fetch (s : cpu) : outcome cpu :=
  let! op := readByte (mc s) (pc s) in
  let s := with_pc (Int.u16 (pc s + 1)) s in
  let! r :=
    (if op =? 0xCB then
       let! op2 := readByte (mc s) (pc s) in
       Ok (Int.u16 (0xCB00 + op2), with_pc (Int.u16 (pc s + 1)) s)
     else Ok (op, s)) in
  let '(op, s) := r in
  let nb := match commandTable op with Some cmd => cmd_b cmd | None => 0 end in
  let s := with_inst (newInstruction op []) s in
  fetch_operands (Z.to_nat nb) s.

Definition execute (s : cpu) : outcome cpu :=
  let s := if pc s =? 0x0100 then with_mc (unloadBios (mc s)) s else s in
  match commandTable (o (inst s)) with
  | Some cmd =>
      let! s := cmd_f cmd s in
      Ok (with_clocks (Int.u8 (m s + Int.u8 (cmd_t cmd * 4)))
                      (Int.u8 (t s + cmd_t cmd)) s)
  | None => Ok s
  end.

Definition step (s : cpu) : outcome (Z * cpu) :=
  let s := with_clocks 0 0 s in
  let! s := fetch s in
  let! s := execute s in
  Ok (t s, s).

End Cpu.

Arguments cpu M : clear implicits.
Arguments command M : clear implicits.

End Main.

(** ** The later CPU and its MMU (package [jibi]) *)

Module Jibi.

(** *** The special memory addresses *)

Definition AddrRom : Z := 0x0000.
Definition AddrVRam : Z := 0x8000.
Definition AddrERam : Z := 0xA000.
Definition AddrRam : Z := 0xC000.
Definition AddrOam : Z := 0xFE00.
Definition AddrOamEnd : Z := 0xFEA0.
Definition AddrP1 : Z := 0xFF00.
Definition AddrDIV : Z := 0xFF04.
Definition AddrTMA : Z := 0xFF06.
Definition AddrIF : Z := 0xFF0F.
Definition AddrGpuRegs : Z := 0xFF40.
Definition AddrGpuRegsEnd : Z := 0xFF4C.
Definition AddrZero : Z := 0xFF80.
Definition AddrIE : Z := 0xFFFF.

(** *** Address blocks and key sets

    [abNil = iota] and [abRom = 1 << iota] with [iota = 1], so the block
    bits start at 2; an [AddressKeys] value is a 16-bit set of them. *)

Definition abNil : Z := 0.
Definition abRom : Z := Z.shiftl 1 1.
Definition abVRam : Z := Z.shiftl 1 2.
Definition abERam : Z := Z.shiftl 1 3.
Definition abRam : Z := Z.shiftl 1 4.
Definition abOam : Z := Z.shiftl 1 5.
Definition abP1 : Z := Z.shiftl 1 6.
Definition abIF : Z := Z.shiftl 1 7.
Definition abGpuRegs : Z := Z.shiftl 1 8.
Definition abZero : Z := Z.shiftl 1 9.
Definition abIE : Z := Z.shiftl 1 10.
Definition abLast : Z := abIE.

(** [addressBlock(ak)&blk == blk] *)
Definition holds (ak blk : Z) : bool := Z.land ak blk =? blk.

(** *** Memory-mapped I/O ports

    The port's own mutex is taken and released inside each method, so it
    never outlives a call and is not part of the state. *)

Record mmio : Type := mkMmio {
  ioaddr : Z;
  value : Z;   (* accessed by owner *)
  read : Z;    (* accessed through lock *)
  write : Z;
  queued : bool
}.

Definition newMmio (ad : Z) : mmio := mkMmio (Int.u16 ad) 0 0 0 false.

Definition mmio_readByte (io : mmio) (owner : bool) : Z :=
  if owner then value io else read io.

Definition mmio_writeByte (io : mmio) (v : Z) (owner : bool) : mmio :=
  if owner then
    mkMmio (ioaddr io) v v (if negb (queued io) then v else write io)
           (queued io)
  else
    mkMmio (ioaddr io) (value io) (read io) v true.

Definition mmio_readIoByte (io : mmio) (owner : bool)
  : outcome (Z * bool * mmio) :=
  if owner then
    Ok (write io, queued io,
        mkMmio (ioaddr io) (value io) (read io) (write io) false)
  else Panic (UnhandledIoRead (ioaddr io)).

(** *** The MMU

    [locks] is the set of block mutexes currently locked, as a bit set
    indexed like the keys ([m.locks[blk]]; [m.locks[0]] is nil).  [kp] is
    the keypad worker: [None] before [SetKeypad], otherwise the number of
    key-check commands sent to it. *)

Record Mmu : Type := mkMmu {
  rom : list Z;
  vram : list Z;
  ram : list Z;
  oam : list Z;
  gpuregs : list Z;
  zero : list Z;
  ie : Z;
  ioIF : mmio;
  ioP1 : mmio;
  locks : Z;
  kp : option nat
}.

Definition NewMmu (cart : option (list Z)) : Mmu :=
  mkMmu (match cart with Some r => r | None => [] end)
        (replicate (Z.to_nat 0x2000) 0)
        (replicate (Z.to_nat 0x2000) 0)
        (replicate (Z.to_nat 0xA0) 0)
        (replicate 12 0)
        (replicate (Z.to_nat 0x100) 0)
        0
        (newMmio AddrIF)
        (newMmio AddrP1)
        0
        None.

Definition SetKeypad (mm : Mmu) (k : nat) : Mmu :=
  mkMmu (rom mm) (vram mm) (ram mm) (oam mm) (gpuregs mm) (zero mm)
        (ie mm) (ioIF mm) (ioP1 mm) (locks mm) (Some k).

Definition with_vram (v : list Z) (mm : Mmu) : Mmu :=
  mkMmu (rom mm) v (ram mm) (oam mm) (gpuregs mm) (zero mm)
        (ie mm) (ioIF mm) (ioP1 mm) (locks mm) (kp mm).
Definition with_ram (v : list Z) (mm : Mmu) : Mmu :=
  mkMmu (rom mm) (vram mm) v (oam mm) (gpuregs mm) (zero mm)
        (ie mm) (ioIF mm) (ioP1 mm) (locks mm) (kp mm).
Definition with_oam (v : list Z) (mm : Mmu) : Mmu :=
  mkMmu (rom mm) (vram mm) (ram mm) v (gpuregs mm) (zero mm)
        (ie mm) (ioIF mm) (ioP1 mm) (locks mm) (kp mm).
Definition with_gpuregs (v : list Z) (mm : Mmu) : Mmu :=
  mkMmu (rom mm) (vram mm) (ram mm) (oam mm) v (zero mm)
        (ie mm) (ioIF mm) (ioP1 mm) (locks mm) (kp mm).
Definition with_zero (v : list Z) (mm : Mmu) : Mmu :=
  mkMmu (rom mm) (vram mm) (ram mm) (oam mm) (gpuregs mm) v
        (ie mm) (ioIF mm) (ioP1 mm) (locks mm) (kp mm).
Definition with_ie (v : Z) (mm : Mmu) : Mmu :=
  mkMmu (rom mm) (vram mm) (ram mm) (oam mm) (gpuregs mm) (zero mm)
        v (ioIF mm) (ioP1 mm) (locks mm) (kp mm).
Definition with_ioIF (v : mmio) (mm : Mmu) : Mmu :=
  mkMmu (rom mm) (vram mm) (ram mm) (oam mm) (gpuregs mm) (zero mm)
        (ie mm) v (ioP1 mm) (locks mm) (kp mm).
Definition with_ioP1 (v : mmio) (mm : Mmu) : Mmu :=
  mkMmu (rom mm) (vram mm) (ram mm) (oam mm) (gpuregs mm) (zero mm)
        (ie mm) (ioIF mm) v (locks mm) (kp mm).
Definition with_locks (v : Z) (mm : Mmu) : Mmu :=
  mkMmu (rom mm) (vram mm) (ram mm) (oam mm) (gpuregs mm) (zero mm)
        (ie mm) (ioIF mm) (ioP1 mm) v (kp mm).
Definition with_kp (v : option nat) (mm : Mmu) : Mmu :=
  mkMmu (rom mm) (vram mm) (ram mm) (oam mm) (gpuregs mm) (zero mm)
        (ie mm) (ioIF mm) (ioP1 mm) (locks mm) v.

(** Modelled from the spec: the keypad worker is not among the sources
    (section 1 keeps it outside the core).  [m.kp.RunCommand(CmdKeyCheck,
    nil)] hands it one more command; on a nil keypad the call is a nil
    dereference. *)
Definition keyCheck (mm : Mmu) : outcome Mmu :=
  match kp mm with
  | Some n => Ok (with_kp (Some (S n)) mm)
  | None => Panic NilDereference
  end.

(** [m.locks[blk].Lock()]: waits while the mutex is held. *)
Definition mutexLock (mm : Mmu) (blk : Z) : outcome Mmu :=
  if blk =? abNil then Panic NilDereference
  else if Z.land (locks mm) blk =? 0 then
    Ok (with_locks (Z.lor (locks mm) blk) mm)
  else Blocked.

(** [m.locks[blk].Unlock()]: unlocking an unlocked mutex is fatal. *)
Definition mutexUnlock (mm : Mmu) (blk : Z) : outcome Mmu :=
  if blk =? abNil then Panic NilDereference
  else if Z.land (locks mm) blk =? 0 then Panic UnlockOfUnlockedMutex
  else Ok (with_locks (Z.ldiff (locks mm) blk) mm).

(** The pair that [getAddressInfo] returns. *)
Definition info (u : string) (v : bool) : string * bool := (u, v).

(** incomplete, used for debugging *)
Definition getAddressInfo (a : Z) : string * bool :=
  if (0x9C00 <=? a) && (a <=? 0x9FFF) then info "Background Map Data 2" false
  else if (0xFEA0 <=? a) && (a <=? 0xFEFF) then info "unusable memory" true
  else if a =? 0xFF00 then
    info
      "Register for reading joy pad info and determining system type. (R/W)"
      false
  else if a =? 0xFF01 then info "Serial transfer data (R/W)" true
  else if a =? 0xFF02 then info "SIO control (R/W)" true
  else if a =? 0xFF03 then info "no clue" true
  else if a =? 0xFF04 then info "DIV" true
  else if a =? 0xFF05 then info "TIMA" true
  else if a =? 0xFF06 then info "TMA" true
  else if a =? 0xFF07 then info "TAC" true
  else if (0xFF08 <=? a) && (a <=? 0xFF0E) then info "no clue" true
  else if a =? 0xFF10 then
    info "Sound Mode 1 register, Sweep register (R/W)" true
  else if a =? 0xFF11 then
    info "Sound Mode 1 register, Sound length/Wave pattern duty (R/W)" true
  else if a =? 0xFF12 then info "Sound Mode 1 register, Envelope (R/W)" true
  else if a =? 0xFF13 then info "Sound Mode 1 register, Frequency lo (W)" true
  else if a =? 0xFF14 then
    info "Sound Mode 1 register, Frequency hi (R/W)" true
  else if a =? 0xFF17 then info "Sound Mode 2 register, envelope (R/W)" true
  else if a =? 0xFF19 then info "Sound Mode 2 register, frequency" true
  else if a =? 0xFF1A then
    info "Sound Mode 3 register, Sound on/off (R/W)" true
  else if a =? 0xFF20 then
    info "Sound Mode 4 register, sound length (R/W)" true
  else if a =? 0xFF21 then info "Sound Mode 4 register, envelope (R/W)" true
  else if a =? 0xFF23 then
    info "Sound Mode 4 register, counter/consecutive; inital (R/W)" true
  else if a =? 0xFF24 then info "Channel control / ON-OFF / Volume (R/W)" true
  else if a =? 0xFF25 then
    info "Selection of Sound output terminal (R/W)" true
  else if a =? 0xFF26 then info "Sound on/off (R/W)" true
  else if (0xFF30 <=? a) && (a <=? 0xFF3F) then info "Sound Sample RAM" true
  else if a =? 0xFF47 then info "BGP" false
  else if (0xFF4D <=? a) && (a <=? 0xFF7F) then info "GBC" true
  else if a =? 0xFFFF then info "IE" false
  else info "unknown" false.

Definition selectAddressBlock (a : Z) (rw : string) : outcome (Z * Z) :=
  if a <? AddrVRam then Ok (abRom, 0)
  else if (AddrVRam <=? a) && (a <? AddrERam) then Ok (abVRam, AddrVRam)
  else if (AddrERam <=? a) && (a <? AddrRam) then Ok (abERam, AddrERam)
  else if (AddrRam <=? a) && (a <? AddrOam) then Ok (abRam, AddrRam)
  else if (AddrOam <=? a) && (a <? AddrOamEnd) then Ok (abOam, AddrOam)
  else if AddrP1 =? a then Ok (abP1, AddrP1)
  else if AddrIF =? a then Ok (abIF, AddrIF)
  else if (AddrGpuRegs <=? a) && (a <? AddrGpuRegsEnd) then
    Ok (abGpuRegs, AddrGpuRegs)
  else if (AddrZero <=? a) && (a <? AddrIE) then Ok (abZero, AddrZero)
  else if AddrIE =? a then Ok (abIE, AddrIE)
  else
    let '(u, v) := getAddressInfo a in
    if negb v then
      Panic (UnhandledMemory
               (if String.eqb rw "" then "access"%string else rw) a u)
    else Ok (abNil, 0).

(** LockAddr gets a lock for an address if not already in the provided
    AddressKeys and appends it and returns this new key set. *)
Definition LockAddr (mm : Mmu) (a : Z) (ak : Z) : outcome (Mmu * Z) :=
  let! '(blk, _) := selectAddressBlock a "lock" in
  if holds ak blk then Ok (mm, ak) (* already have the key *)
  else
    let! mm := mutexLock mm blk in
    Ok (mm, Z.lor ak blk).

Definition UnlockAddr (mm : Mmu) (a : Z) (ak : Z) : outcome (Mmu * Z) :=
  let! '(blk, _) := selectAddressBlock a "unlock" in
  if negb (holds ak blk) then Ok (mm, ak) (* don't have the key *)
  else
    let! mm := mutexUnlock mm blk in
    Ok (mm, Z.land ak (Z.lxor blk 0xFFFF)).

Definition ReadByteAt (mm : Mmu) (a : Z) (ak : Z) : outcome Z :=
  let! '(blk, start) := selectAddressBlock a "read" in
  let owner := holds ak blk in
  let rest : outcome Z :=
    if negb owner then Panic (UnauthorizedRead a)
    else
      let '(u, v) := getAddressInfo a in
      if negb v then Panic (UnhandledMemory "read" a u) else Ok 0 in
  if (blk =? abRom) && owner then index (rom mm) (Int.u16 (a - start))
  else if blk =? abVRam then
    if owner then index (vram mm) (Int.u16 (a - start)) else rest
  else if blk =? abRam then
    if owner then index (ram mm) (Z.land (Int.u16 (a - start)) 0x1FFF)
    else rest
  else if blk =? abOam then
    if owner then index (oam mm) (Int.u16 (a - start)) else rest
  else if blk =? abP1 then Ok (mmio_readByte (ioP1 mm) owner)
  else if blk =? abIF then Ok (mmio_readByte (ioIF mm) owner)
  else if blk =? abGpuRegs then
    if owner then index (gpuregs mm) (Int.u16 (a - start)) else rest
  else if blk =? abZero then
    if owner then index (zero mm) (Int.u16 (a - start)) else rest
  else if blk =? abIE then
    if owner then Ok (ie mm) else rest
  else rest.

Definition WriteByteAt (mm : Mmu) (a : Z) (v : Z) (ak : Z) : outcome Mmu :=
  let! '(blk, start) := selectAddressBlock a "write" in
  let owner := holds ak blk in
  let rest : outcome Mmu :=
    if negb owner then Panic (UnauthorizedWrite a v)
    else
      let '(u, ok) := getAddressInfo a in
      if negb ok then Panic (UnhandledMemory "write" a u) else Ok mm in
  if blk =? abRom then Ok mm
  else if blk =? abVRam then
    if owner then
      let! s := store (vram mm) (Int.u16 (a - start)) v in
      Ok (with_vram s mm)
    else rest
  else if blk =? abRam then
    if owner then
      let! s := store (ram mm) (Z.land (Int.u16 (a - start)) 0x1FFF) v in
      Ok (with_ram s mm)
    else rest
  else if blk =? abOam then
    if owner then
      let! s := store (oam mm) (Int.u16 (a - start)) v in
      Ok (with_oam s mm)
    else rest
  else if blk =? abP1 then
    let mm := with_ioP1 (mmio_writeByte (ioP1 mm) v owner) mm in
    if negb owner then keyCheck mm else Ok mm
  else if blk =? abIF then
    Ok (with_ioIF (mmio_writeByte (ioIF mm) v owner) mm)
  else if blk =? abGpuRegs then
    if owner then
      let! s := store (gpuregs mm) (Int.u16 (a - start)) v in
      Ok (with_gpuregs s mm)
    else rest
  else if blk =? abZero then
    if owner then
      let! s := store (zero mm) (Int.u16 (a - start)) v in
      Ok (with_zero s mm)
    else rest
  else if blk =? abIE then
    if owner then Ok (with_ie v mm) else rest
  else rest.

Definition ReadIoByte (mm : Mmu) (a : Z) (ak : Z)
  : outcome (Z * bool * Mmu) :=
  let! '(blk, _) := selectAddressBlock a "write" in
  let owner := holds ak blk in
  if blk =? abP1 then
    let! '(v, q, io) := mmio_readIoByte (ioP1 mm) owner in
    Ok (v, q, with_ioP1 io mm)
  else if blk =? abIF then
    let! '(v, q, io) := mmio_readIoByte (ioIF mm) owner in
    Ok (v, q, with_ioIF io mm)
  else Panic (UnhandledQueuedWrite a).

(** *** The CPU

    Clock subscribers, trace channels and the clock period are consumers
    of the state and have no part in it.  [mmu] is the pointer [*Mmu]:
    [None] is nil, and using a nil MMU is a nil dereference. *)

Record Cpu : Type := mkCpu {
  a : Z; b : Z; c : Z; d : Z; e : Z;
  f : Z; (* 8 bits, but lower 4 bits always read zero *)
  h : Z; l : Z;
  sp : Z; pc : Z;
  m : Z; (* machine cycles *)
  t : Z; (* clock cycles *)
  inst : instruction; (* current instruction buffer *)
  ime : Z; (* interrupt master enable *)
  mmu : option Mmu;
  mmuKeys : Z;
  bios : list Z;
  biosFinished : bool
}.

Definition with_sp (v : Z) (s : Cpu) : Cpu :=
  mkCpu (a s) (b s) (c s) (d s) (e s) (f s) (h s) (l s) v (pc s)
        (m s) (t s) (inst s) (ime s) (mmu s) (mmuKeys s) (bios s)
        (biosFinished s).
Definition with_pc (v : Z) (s : Cpu) : Cpu :=
  mkCpu (a s) (b s) (c s) (d s) (e s) (f s) (h s) (l s) (sp s) v
        (m s) (t s) (inst s) (ime s) (mmu s) (mmuKeys s) (bios s)
        (biosFinished s).
Definition with_clocks (vm vt : Z) (s : Cpu) : Cpu :=
  mkCpu (a s) (b s) (c s) (d s) (e s) (f s) (h s) (l s) (sp s) (pc s)
        vm vt (inst s) (ime s) (mmu s) (mmuKeys s) (bios s)
        (biosFinished s).
Definition with_inst (i : instruction) (s : Cpu) : Cpu :=
  mkCpu (a s) (b s) (c s) (d s) (e s) (f s) (h s) (l s) (sp s) (pc s)
        (m s) (t s) i (ime s) (mmu s) (mmuKeys s) (bios s)
        (biosFinished s).
Definition with_ime (v : Z) (s : Cpu) : Cpu :=
  mkCpu (a s) (b s) (c s) (d s) (e s) (f s) (h s) (l s) (sp s) (pc s)
        (m s) (t s) (inst s) v (mmu s) (mmuKeys s) (bios s)
        (biosFinished s).
Definition with_mmu (mm : Mmu) (ak : Z) (s : Cpu) : Cpu :=
  mkCpu (a s) (b s) (c s) (d s) (e s) (f s) (h s) (l s) (sp s) (pc s)
        (m s) (t s) (inst s) (ime s) (Some mm) ak (bios s)
        (biosFinished s).
Definition with_biosFinished (v : bool) (s : Cpu) : Cpu :=
  mkCpu (a s) (b s) (c s) (d s) (e s) (f s) (h s) (l s) (sp s) (pc s)
        (m s) (t s) (inst s) (ime s) (mmu s) (mmuKeys s) (bios s) v.

Definition the_mmu (s : Cpu) : outcome Mmu :=
  match mmu s with Some mm => Ok mm | None => Panic NilDereference end.

(** [copy(make([]Byte, 0x100), bios)] *)
Definition pad_bios (bs : list Z) : list Z :=
  take (Z.to_nat 0x100) (bs ++ replicate (Z.to_nat 0x100) 0).

(** NewCpu creates a new Cpu with mmu connection.  The struct literal
    names the eight registers, [ime], the MMU, its keys and the boot ROM;
    every other field, [sp] and [pc] among them, keeps Go's zero value.
    Starting the worker that runs [step] is not part of the value built. *)
Definition NewCpu (mm : option Mmu) (bs : list Z) : outcome Cpu :=
  let fin := negb (0 <? Z.of_nat (length bs)) in
  let bs := if 0 <? Z.of_nat (length bs) then pad_bios bs else bs in
  let! r :=
    match mm with
    | Some mm =>
        let mmuKeys := 0 in
        let! '(mm, mmuKeys) := LockAddr mm AddrRom mmuKeys in
        let! '(mm, mmuKeys) := LockAddr mm AddrRam mmuKeys in
        let! '(mm, mmuKeys) := LockAddr mm AddrIF mmuKeys in
        let! '(mm, mmuKeys) := LockAddr mm AddrZero mmuKeys in
        let! '(mm, mmuKeys) := LockAddr mm AddrIE mmuKeys in
        Ok (Some mm, mmuKeys)
    | None => Ok (None, 0)
    end in
  let '(mm, mmuKeys) := r in
  Ok (mkCpu Reg.newRegister8 Reg.newRegister8 Reg.newRegister8
            Reg.newRegister8 Reg.newRegister8 Reg.newFlagsRegister8
            Reg.newRegister8 Reg.newRegister8
            0 0 0 0 (newInstruction 0 []) 1 mm mmuKeys bs fin).

Definition lockAddr (ad : Z) (s : Cpu) : outcome Cpu :=
  let! mm := the_mmu s in
  let! '(mm, ak) := LockAddr mm ad (mmuKeys s) in
  Ok (with_mmu mm ak s).

Definition unlockAddr (ad : Z) (s : Cpu) : outcome Cpu :=
  let! mm := the_mmu s in
  let! '(mm, ak) := UnlockAddr mm ad (mmuKeys s) in
  Ok (with_mmu mm ak s).

(** The deferred unlock runs when the access has returned; when the
    access panics the emulator dies with that panic. *)
Definition readByte (ad : Z) (s : Cpu) : outcome (Z * Cpu) :=
  if negb (biosFinished s) && (ad <=? 0xFF) then
    let! v := index (bios s) ad in Ok (v, s)
  else if (AddrVRam <=? ad) && (ad <=? AddrRam) then
    let! s := lockAddr AddrVRam s in
    let! mm := the_mmu s in
    let! v := ReadByteAt mm ad (mmuKeys s) in
    let! s := unlockAddr AddrVRam s in
    Ok (v, s)
  else if (AddrOam <=? ad) && (ad <=? AddrOamEnd) then
    let! s := lockAddr AddrOam s in
    let! mm := the_mmu s in
    let! v := ReadByteAt mm ad (mmuKeys s) in
    let! s := unlockAddr AddrOam s in
    Ok (v, s)
  else
    let! mm := the_mmu s in
    let! v := ReadByteAt mm ad (mmuKeys s) in
    Ok (v, s).

Definition mmu_write (ad v : Z) (s : Cpu) : outcome Cpu :=
  let! mm := the_mmu s in
  let! mm := WriteByteAt mm ad v (mmuKeys s) in
  Ok (with_mmu mm (mmuKeys s) s).

Definition writeByte (ad : Z) (v : Z) (s : Cpu) : outcome Cpu :=
  if (AddrVRam <=? ad) && (ad <=? AddrRam) then
    let! s := lockAddr AddrVRam s in
    let! s := mmu_write ad v s in
    unlockAddr AddrVRam s
  else if (AddrOam <=? ad) && (ad <=? AddrOamEnd) then
    let! s := lockAddr AddrOam s in
    let! s := mmu_write ad v s in
    unlockAddr AddrOam s
  else mmu_write ad v s.

(** Modelled from the spec: [BytesToWord] and the [Low]/[High] methods of
    a word are not among the sources; section 4.E fixes words as
    little-endian, the low byte at the lower address. *)
Definition BytesToWord (hi lo : Z) : Z := Int.u16 (Z.shiftl hi 8 + lo).
Definition Low (w : Z) : Z := Z.land w 0xFF.
Definition High (w : Z) : Z := Int.u8 (Z.shiftr w 8).

Definition readWord (ad : Z) (s : Cpu) : outcome (Z * Cpu) :=
  let! '(lo, s) := readByte ad s in
  let! '(hi, s) := readByte (Int.u16 (ad + 1)) s in
  Ok (BytesToWord hi lo, s).

Definition writeWord (ad : Z) (w : Z) (s : Cpu) : outcome Cpu :=
  let! s := writeByte ad (Low w) s in
  writeByte (Int.u16 (ad + 1)) (High w) s.

(** Modelled from the spec: the stack and jump helpers [push] and [jp] of
    this CPU are not among the sources.  They follow [pushWord] and [jp]
    of the earlier CPU, over this CPU's [writeWord]: the word goes to
    [sp-2] and [sp] drops by two (section 8, scenario 3). *)
Definition push (w : Z) (s : Cpu) : outcome Cpu :=
  let! s := writeWord (Int.u16 (sp s - 2)) w s in
  Ok (with_sp (Int.u16 (sp s - 2)) s).

Definition jp (ad : Z) (s : Cpu) : Cpu := with_pc (Int.u16 ad) s.

(** Modelled from the spec: the [Interrupt] constants and their vectors
    ([Address]) are not among the sources; sections 4.G and 6 give
    VBlank 0x01 at 0x40, LCD-STAT 0x02 at 0x48, Timer 0x04 at 0x50,
    Serial 0x08 at 0x58 and Keypad 0x10 at 0x60. *)
Definition InterruptVblank : Z := 0x01.
Definition InterruptLCDC : Z := 0x02.
Definition InterruptTimer : Z := 0x04.
Definition InterruptSerial : Z := 0x08.
Definition InterruptKeypad : Z := 0x10.

Definition Address (i : Z) : Z :=
  if i =? InterruptVblank then 0x40
  else if i =? InterruptLCDC then 0x48
  else if i =? InterruptTimer then 0x50
  else if i =? InterruptSerial then 0x58
  else if i =? InterruptKeypad then 0x60
  else 0.

(** resetInterrupt resets the specific interrupt. *)
Definition resetInterrupt (i : Z) (iflag : Z) (s : Cpu) : outcome Cpu :=
  let iflag := Z.land iflag (Z.lxor i 0xFF) in
  writeByte AddrIF iflag s.

(** getInterrupt returns the highest priority enabled interrupt. *)
Definition getInterrupt (ie iflag : Z) : Z :=
  if negb (Z.land (Z.land InterruptVblank ie) iflag =? 0) then
    InterruptVblank
  else if negb (Z.land (Z.land InterruptLCDC ie) iflag =? 0) then
    InterruptLCDC
  else if negb (Z.land (Z.land InterruptTimer ie) iflag =? 0) then
    InterruptTimer
  else if negb (Z.land (Z.land InterruptSerial ie) iflag =? 0) then
    InterruptSerial
  else if negb (Z.land (Z.land InterruptKeypad ie) iflag =? 0) then
    InterruptKeypad
  else 0.

(** Line 264 binds the results of [ReadIoByte], a byte and a flag, to the
    single name [iflag], which Go does not accept.  The call and its effect
    on the port are those of [ReadIoByte]; which byte [iflag] then holds is
    not settled by the sources, so [io] takes it as a parameter:
    [reading v q] is the byte bound when the call returns [v] and [q]. *)
Definition io (reading : Z -> bool -> Z) (s : Cpu) : outcome Cpu :=
  let! mm := the_mmu s in
  let! '(v, q, mm) := ReadIoByte mm AddrIF (mmuKeys s) in
  let iflag := reading v q in
  let s := with_mmu mm (mmuKeys s) s in
  let! '(iflag, s) :=
    (if ime s =? 0 then Ok (0, s) (* mask all interrupts *)
     else
       let! '(ie, s) := readByte AddrIE s in
       Ok (Z.land iflag ie, s)) in
  writeByte AddrIF iflag s.

Definition interrupt (s : Cpu) : outcome Cpu :=
  if ime s =? 1 then
    let! '(ie, s) := readByte AddrIE s in
    let! '(iflag, s) := readByte AddrIF s in
    let i := getInterrupt ie iflag in
    if i >? 0 then
      let pc0 := pc s in
      let s := with_ime 0 s in
      let! s := push pc0 s in
      let s := jp (Address i) s in
      resetInterrupt i iflag s
    else Ok s
  else Ok s.

(** *** Fetch, execute, step

    The opcode table is a parameter: it is declared elsewhere in the
    repository, a map from the synthetic opcode to its entry.  A lookup
    that misses yields Go's zero value in [fetch] and [ok = false] in
    [execute]. *)

(** Modelled from the spec: a table entry gives the operand byte count
    [b], the cycle cost [t] and the executor [f] (sections 3 and 4.C).  An
    entry whose executor is a nil function is one whose [cmd_f] panics. *)
Record command : Type := mkCommand {
  cmd_b : Z;
  cmd_t : Z;
  cmd_f : Cpu -> outcome Cpu
}.

Section Table.

Variable commandTable : Z -> option command.

(** The reading of line 264 that [io] is run with. *)
Variable reading : Z -> bool -> Z.

Fixpoint fetch_operands (n : nat) (ps : list Z) (s : Cpu)
  : outcome (list Z * Cpu) :=
  match n with
  | O => Ok (ps, s)
  | S n' =>
      let! '(v, s) := readByte (pc s) s in
      fetch_operands n' (ps ++ [v]) (with_pc (Int.u16 (pc s + 1)) s)
  end.

Definition fetch (s : Cpu) : outcome Cpu :=
  let! '(op, s) := readByte (pc s) s in
  let s := with_pc (Int.u16 (pc s + 1)) s in
  let! '(op, s) :=
    (if op =? 0xCB then
       let! '(op2, s) := readByte (pc s) s in
       Ok (Int.u16 (0xCB00 + op2), with_pc (Int.u16 (pc s + 1)) s)
     else Ok (op, s)) in
  let nb :=
    match commandTable op with Some cmd => cmd_b cmd | None => 0 end in
  let! '(ps, s) := fetch_operands (Z.to_nat nb) [] s in
  Ok (with_inst (newInstruction op ps) s).

Definition execute (s : Cpu) : outcome Cpu :=
  match commandTable (o (inst s)) with
  | Some cmd =>
      let! s := cmd_f cmd s in
      Ok (with_clocks (Int.u8 (m s + Int.u8 (cmd_t cmd * 4)))
                      (Int.u8 (t s + cmd_t cmd)) s)
  | None => Ok s
  end.

Definition step (s : Cpu) : outcome Cpu :=
  (* reset clocks *)
  let s := with_clocks 0 0 s in
  let s := if negb (biosFinished s) && (pc s =? 0x0100)
           then with_biosFinished true s else s in
  let! s := io reading s in (* handle memory mapped io *)
  let! s := interrupt s in (* handle interrupts *)
  let! s := fetch s in     (* load next instruction into c.inst *)
  let! s := lockAddr AddrGpuRegs s in
  let! s := execute s in   (* execute c.inst instruction *)
  unlockAddr AddrGpuRegs s.

(** The worker calls [step] again and again. *)
Fixpoint steps (n : nat) (s : Cpu) : outcome Cpu :=
  match n with
  | O => Ok s
  | S n' => let! s := step s in steps n' s
  end.

End Table.

End Jibi.

(** ** Vocabulary of the statements about the earlier CPU *)

Module MainSpec.
Import Main.

Section Vocabulary.

Context {M : Type} `{mmu M}.

(** The flags register after [f.set(0)] followed by the four conditional
    [setFlag] calls of an ALU primitive. *)
Definition flags_of (z n hc cy : bool) : Z :=
  (if z then flagZ else 0) + (if n then flagN else 0)
  + (if hc then flagH else 0) + (if cy then flagC else 0).

(** The ALU primitives touch the flags register only. *)
Definition same_but_f (s s' : cpu M) : Prop :=
  a s' = a s /\ b s' = b s /\ c s' = c s /\ d s' = d s /\ e s' = e s /\
  h s' = h s /\ l s' = l s /\ sp s' = sp s /\ pc s' = pc s /\
  m s' = m s /\ t s' = t s /\ inst s' = inst s /\ mc s' = mc s.

(** The carry going into [adc], [sbc], [rl] and [rr]. *)
Definition carry_in (s : cpu M) : Z := if f_getFlag flagC s then 1 else 0.

(** The number of operand bytes [fetch] reads for an opcode: the entry's
    [b], and none for an opcode the table leaves out. *)
Definition operand_count (tbl : Z -> option (command M)) (op : Z) : nat :=
  Z.to_nat (match tbl op with Some cmd => cmd_b cmd | None => 0 end).

(** Everything of the CPU that [fetch] leaves alone. *)
Definition same_but_pc_inst (s s' : cpu M) : Prop :=
  a s' = a s /\ b s' = b s /\ c s' = c s /\ d s' = d s /\ e s' = e s /\
  f s' = f s /\ h s' = h s /\ l s' = l s /\ sp s' = sp s /\
  m s' = m s /\ t s' = t s /\ mc s' = mc s.

(** Executors that leave the cycle counters and the instruction buffer
    alone (those that add nothing for a taken branch). *)
Definition table_keeps_clocks (tbl : Z -> option (command M)) : Prop :=
  forall op cmd s s',
    tbl op = Some cmd -> cmd_f cmd s = Ok s' ->
    m s' = m s /\ t s' = t s /\ inst s' = inst s.

End Vocabulary.

End MainSpec.

(** ** Vocabulary of the statements about the MMU and the later CPU *)

Module JibiSpec.
Import Jibi.

(** The blocks that back a memory region, each with the base address that
    [selectAddressBlock] reports for it. *)
Definition blocks : list (Z * Z) :=
  [ (abRom, 0); (abVRam, AddrVRam); (abERam, AddrERam); (abRam, AddrRam);
    (abOam, AddrOam); (abP1, AddrP1); (abIF, AddrIF);
    (abGpuRegs, AddrGpuRegs); (abZero, AddrZero); (abIE, AddrIE) ].

(** The region of an address: its block, when the address lies in one. *)
Definition region (ad : Z) : option Z :=
  match selectAddressBlock ad "" with
  | Ok (blk, _) => if blk =? abNil then None else Some blk
  | _ => None
  end.


(** The reading of "an opcode-table miss is fatal": executing an opcode
    with no entry panics, whatever the table and the state. *)
Definition unknown_opcode_fatal : Prop :=
  forall (tbl : Z -> option command) (s : Cpu),
    tbl (o (inst s)) = None -> is_panic (execute tbl s) = true.

(** The lowest-numbered of the five interrupt bits set in both IE and IF. *)
Definition lowest_pending (ie iflag : Z) : option Z :=
  find (fun k => Z.testbit ie k && Z.testbit iflag k) [0; 1; 2; 3; 4].

(** The vector of interrupt bit [k]: 0x40, 0x48, 0x50, 0x58, 0x60. *)
Definition vector (k : Z) : Z := 0x40 + 8 * k.

(** Everything of the CPU but its MMU pointer and key set. *)
Definition same_regs (s s' : Cpu) : Prop :=
  a s' = a s /\ b s' = b s /\ c s' = c s /\ d s' = d s /\ e s' = e s /\
  f s' = f s /\ h s' = h s /\ l s' = l s /\ sp s' = sp s /\ pc s' = pc s /\
  m s' = m s /\ t s' = t s /\ inst s' = inst s /\ ime s' = ime s /\
  bios s' = bios s /\ biosFinished s' = biosFinished s.

(** The keys the CPU takes and gives back around single accesses are those
    of the contested blocks: VRAM (bit 2), OAM (bit 5) and the GPU
    registers (bit 8).  The other bits of its key set stay as they are. *)
Definition contested (j : Z) : bool := (j =? 2) || (j =? 5) || (j =? 8).

Definition keys_stable (ak ak' : Z) : Prop :=
  forall j, 0 <= j < 16 -> contested j = false ->
            Z.testbit ak' j = Z.testbit ak j.

(** The three addresses the CPU locks around accesses. *)
Definition contested_addr (ad : Z) : Prop :=
  ad = AddrVRam \/ ad = AddrOam \/ ad = AddrGpuRegs.

(** Two MMUs that differ at most in which mutexes are locked. *)
Definition same_memory (mm mm' : Mmu) : Prop :=
  exists lk, mm' = with_locks lk mm.

(** What a memory access through the CPU leaves alone: the registers, the
    uncontested keys and the cartridge ROM. *)
Definition cpu_frame (s s' : Cpu) : Prop :=
  same_regs s s' /\ keys_stable (mmuKeys s) (mmuKeys s') /\
  option_map rom (mmu s') = option_map rom (mmu s).

(** A write through the CPU: registers, uncontested keys and ROM stay, and
    so does IE unless the write is to 0xFFFF. *)
Definition write_frame (ad : Z) (s s' : Cpu) : Prop :=
  cpu_frame s s' /\
  exists mm mm', mmu s = Some mm /\ mmu s' = Some mm' /\
                 (ad <> AddrIE -> ie mm' = ie mm).

(** What the boot-ROM handoff depends on: the overlay and its flag, the
    cartridge ROM and the CPU's key for it. *)
Definition boot_frame (s s' : Cpu) : Prop :=
  bios s' = bios s /\ biosFinished s' = biosFinished s /\
  option_map rom (mmu s') = option_map rom (mmu s) /\
  holds (mmuKeys s') abRom = holds (mmuKeys s) abRom.

(** Executors work on registers and, through the CPU's accessors, on
    memory: they leave the boot-ROM state alone. *)
Definition table_keeps_boot (tbl : Z -> option command) : Prop :=
  forall op cmd s s',
    tbl op = Some cmd -> cmd_f cmd s = Ok s' -> boot_frame s s'.

(** What another bus master can do to the CPU's world between two steps:
    it acts on the shared MMU through the same interface, which never
    writes the cartridge ROM, and it cannot reach the CPU's own fields or
    key set. *)
Definition interfere (s s' : Cpu) : Prop :=
  same_regs s s' /\ mmuKeys s' = mmuKeys s /\
  option_map rom (mmu s') = option_map rom (mmu s).

(** A run of the CPU worker next to the other bus masters, with the
    program counters at which its steps began. *)
Inductive run (tbl : Z -> option command) (rd : Z -> bool -> Z)
  : Cpu -> list Z -> Cpu -> Prop :=
  | run_done (s : Cpu) : run tbl rd s [] s
  | run_step (s s1 : Cpu) (pcs : list Z) (s' : Cpu) :
      step tbl rd s = Ok s1 -> run tbl rd s1 pcs s' ->
      run tbl rd s (pc s :: pcs) s'
  | run_env (s s1 : Cpu) (pcs : list Z) (s' : Cpu) :
      interfere s s1 -> run tbl rd s1 pcs s' -> run tbl rd s pcs s'.

(** An MMU whose memory arrays have the sizes [NewMmu] gives them. *)
Definition sized (mm : Mmu) : Prop :=
  length (vram mm) = Z.to_nat 0x2000 /\ length (ram mm) = Z.to_nat 0x2000 /\
  length (oam mm) = Z.to_nat 0xA0 /\ length (gpuregs mm) = 12%nat /\
  length (zero mm) = Z.to_nat 0x100.

(** Work RAM and its echo: 0xC000-0xFDFF. *)
Definition in_ram (ad : Z) : bool := (0xC000 <=? ad) && (ad <? 0xFE00).

(** Two addresses of one byte: the same address, or two addresses of work
    RAM and its echo that differ by a multiple of the RAM size. *)
Definition alias (ad ad' : Z) : bool :=
  (ad' =? ad) || in_ram ad && in_ram ad' && ((ad' - ad) mod 0x2000 =? 0).

(** The regions behind which the MMU keeps a byte of its own. *)
Definition memory_blocks : list Z :=
  [abVRam; abRam; abOam; abGpuRegs; abZero; abIE].

(** Two bus masters with key sets [ak1] and [ak2] over the mutexes [lk]:
    a block's mutex is locked exactly when one of them holds its key, and
    never do both hold it. *)
Definition exclusive (lk ak1 ak2 : Z) : Prop :=
  forall k, 1 <= k <= 10 ->
    Z.testbit lk k = Z.testbit ak1 k || Z.testbit ak2 k /\
    Z.testbit ak1 k && Z.testbit ak2 k = false.

(** The addresses that no block backs and [getAddressInfo] does not know:
    any access to them is an unhandled-memory panic. *)
Definition unhandled : list Z :=
  [0xFF15; 0xFF16; 0xFF18; 0xFF1B; 0xFF1C; 0xFF1D; 0xFF1E; 0xFF1F; 0xFF22;
   0xFF27; 0xFF28; 0xFF29; 0xFF2A; 0xFF2B; 0xFF2C; 0xFF2D; 0xFF2E; 0xFF2F;
   0xFF4C].


(** Two CPU states with the same cycle counters. *)
Definition same_clocks (s s' : Cpu) : Prop := m s' = m s /\ t s' = t s.

(** The phases of a step that come before [execute]. *)
Definition before_execute (tbl : Z -> option command) (rd : Z -> bool -> Z)
  (s : Cpu) : outcome Cpu :=
  let s := with_clocks 0 0 s in
  let s := if negb (biosFinished s) && (pc s =? 0x0100)
           then with_biosFinished true s else s in
  let! s := io rd s in
  let! s := interrupt s in
  let! s := fetch tbl s in
  lockAddr AddrGpuRegs s.

End JibiSpec.

(** ** Fixtures for the scenarios of section 8 *)

Module Scenario.

(** A flat, read-only 64 KiB view of a ROM image for the earlier CPU's
    memory controller: bytes outside the image read as zero. *)
Definition flat_read (img : list Z) (ad : Z) : outcome Z :=
  Ok (default 0 (img !! Z.to_nat ad)).

#[global] Instance flat_mmu : Main.mmu (list Z) := {|
  Main.readByte := flat_read;
  Main.readWord img ad :=
    let! lo := flat_read img ad in
    let! hi := flat_read img (Int.u16 (ad + 1)) in
    Ok (Int.u16 (Z.shiftl hi 8 + lo));
  Main.writeWord img _ _ := Ok img;
  Main.unloadBios img := img
|}.

(** Modelled from the spec: the opcode table is not among the sources.
    Section 4.C and scenarios 1 and 5 give the two entries used here:
    [0x00] NOP (no operand, 4 cycles) and [0x20] JR NZ,e8 (one operand
    byte), whose executor is the conditional relative jump on flag Z. *)
Definition jr_table (op : Z) : option (Main.command (list Z)) :=
  if op =? 0x00 then Some (Main.mkCommand 0 4 (fun s => Ok s))
  else if op =? 0x20 then
    Some (Main.mkCommand 1 8
            (fun s =>
               Ok (Main.jrNF Main.flagZ
                     (Int.i8 (default 0 (p (Main.inst s) !! 0%nat))) s)))
  else None.

(** Scenario 5: [ROM[0]=0x20, ROM[1]=0xFB], flag Z clear, [PC=0x0000]. *)
Definition jr_cpu : Main.cpu (list Z) := Main.newCpu [0x20; 0xFB].

(** The keys the CPU takes at construction: ROM, work RAM, IF, high RAM
    and IE. *)
Definition cpu_keys : Z :=
  Z.lor Jibi.abRom
    (Z.lor Jibi.abRam (Z.lor Jibi.abIF (Z.lor Jibi.abZero Jibi.abIE))).

(** The CPU that [NewCpu] builds over a fresh MMU for cartridge [cart] and
    boot ROM [bs]. *)
Definition fresh (cart : option (list Z)) (bs : list Z) : Jibi.Cpu :=
  Jibi.mkCpu 0 0 0 0 0 0 0 0 0 0 0 0 (newInstruction 0 []) 1
    (Some (Jibi.with_locks cpu_keys (Jibi.NewMmu cart))) cpu_keys
    (if 0 <? Z.of_nat (length bs) then Jibi.pad_bios bs else bs)
    (negb (0 <? Z.of_nat (length bs))).

(** That CPU with the stack pointer, the program counter, IE and IF set. *)
Definition pending (spv pcv iev ifv : Z) : Jibi.Cpu :=
  let mm :=
    Jibi.with_ioIF (Jibi.mkMmio Jibi.AddrIF ifv ifv ifv false)
      (Jibi.with_ie iev (Jibi.with_locks cpu_keys (Jibi.NewMmu None))) in
  Jibi.with_mmu mm cpu_keys
    (Jibi.with_pc pcv (Jibi.with_sp spv (fresh None []))).

(** Modelled from the spec: the opcode table is not among the sources;
    scenario 1 gives its entry [0x00], NOP: no operand, 4 cycles, no
    effect.  [0xD3] is one of the opcodes the table leaves out. *)
Definition nop_table (op : Z) : option Jibi.command :=
  if op =? 0x00 then Some (Jibi.mkCommand 0 4 (fun s => Ok s)) else None.

(** The reading of line 264 of [cpu.go] under which [iflag] is the byte
    that [ReadIoByte] returns, the flag being dropped. *)
Definition byte_read (v : Z) (q : bool) : Z := v.

(** A boot ROM of one NOP (padded with NOPs by [NewCpu]) over a cartridge
    that starts with [0xC3] and is NOPs from there on. *)
Definition boot_bios : list Z := [0x00].
Definition boot_cart : list Z := 0xC3 :: replicate 0x1FF 0x00.

End Scenario.

(** * Properties *)

(** ** Fixed-width arithmetic *)

Module IntFacts.
Import Int.

Lemma u8_range x : 0 <= u8 x < 256.
Proof. unfold u8. apply Z.mod_pos_bound. lia. Qed.

Lemma u16_range x : 0 <= u16 x < 65536.
Proof. unfold u16. apply Z.mod_pos_bound. lia. Qed.

Lemma u8_small x : 0 <= x < 256 -> u8 x = x.
Proof. unfold u8. intros. now apply Z.mod_small. Qed.

Lemma u16_small x : 0 <= x < 65536 -> u16 x = x.
Proof. unfold u16. intros. now apply Z.mod_small. Qed.

Lemma i8_range x : -128 <= i8 x < 128.
Proof.
  unfold i8. pose proof (Z.mod_pos_bound x 256 ltac:(lia)).
  destruct (Z.ltb_spec (x mod 256) 128); lia.
Qed.

Lemma i8_small x : -128 <= x < 128 -> i8 x = x.
Proof.
  unfold i8. intros Hx.
  pose proof (Z.mod_pos_bound x 256 ltac:(lia)) as Hr.
  pose proof (Z.div_mod x 256 ltac:(lia)) as Hq.
  destruct (Z.ltb_spec (x mod 256) 128); lia.
Qed.

(** The low nibble of a byte, as [x & 0x0F]. *)
Lemma land_0F x : Z.land x 0x0F = x mod 16.
Proof. change 0x0F with (Z.ones 4). now rewrite Z.land_ones by lia. Qed.

End IntFacts.

(** ** Outcomes *)

Lemma bind_Ok {A B : Type} (o : outcome A) (k : A -> outcome B) (y : B) :
  bind o k = Ok y -> exists x, o = Ok x /\ k x = Ok y.
Proof. destruct o as [x | e | ]; simpl; intros H; try discriminate. eauto. Qed.

(** ** Flags *)

Module RegFacts.
Import Reg.

Lemma setFlags_low_nibble v : Z.land (setFlags v) 0x0F = 0.
Proof.
  unfold setFlags. rewrite <- Z.land_assoc. change (Z.land 0xF0 0x0F) with 0.
  apply Z.land_0_r.
Qed.

End RegFacts.

(** ** The ALU of the earlier CPU *)

Module MainFacts.
Import Main MainSpec.

Section Alu.

Context {M : Type} `{mmu M}.

Lemma flags_of_getFlag z n hc cy :
  Reg.getFlag (flags_of z n hc cy) flagZ = z /\
  Reg.getFlag (flags_of z n hc cy) flagN = n /\
  Reg.getFlag (flags_of z n hc cy) flagH = hc /\
  Reg.getFlag (flags_of z n hc cy) flagC = cy /\
  Z.land (flags_of z n hc cy) 0x0F = 0.
Proof. destruct z, n, hc, cy; vm_compute; repeat split; reflexivity. Qed.

Lemma sub_result x y (s : cpu M) : fst (sub x y s) = Int.u8 (x - y).
Proof. reflexivity. Qed.

Lemma sub_f x y (s : cpu M) :
  f (snd (sub x y s)) =
  flags_of (Int.u8 (x - y) =? 0) true
           (Z.land x 0x0F >=? Z.land y 0x0F) (x >=? y).
Proof.
  unfold sub.
  destruct (Int.u8 (x - y) =? 0), (Z.land x 0x0F >=? Z.land y 0x0F),
    (x >=? y); reflexivity.
Qed.

Lemma add_result x y (s : cpu M) : fst (add x y s) = Int.u8 (x + y).
Proof. reflexivity. Qed.

Lemma add_f x y (s : cpu M) :
  f (snd (add x y s)) =
  flags_of (Int.u8 (x + y) =? 0) false
           (Int.u8 (Z.land x 0x0F + Z.land y 0x0F) >? 0x0F)
           (Int.u16 (x + y) >? 0xFF).
Proof.
  unfold add.
  destruct (Int.u8 (x + y) =? 0),
    (Int.u8 (Z.land x 0x0F + Z.land y 0x0F) >? 0x0F),
    (Int.u16 (x + y) >? 0xFF); reflexivity.
Qed.

Lemma sub_frame x y (s : cpu M) : same_but_f s (snd (sub x y s)).
Proof.
  unfold sub, same_but_f.
  destruct (Int.u8 (x - y) =? 0), (Z.land x 0x0F >=? Z.land y 0x0F),
    (x >=? y); cbn; repeat split; reflexivity.
Qed.

Lemma add_frame x y (s : cpu M) : same_but_f s (snd (add x y s)).
Proof.
  unfold add, same_but_f.
  destruct (Int.u8 (x + y) =? 0),
    (Int.u8 (Z.land x 0x0F + Z.land y 0x0F) >? 0x0F),
    (Int.u16 (x + y) >? 0xFF); cbn; repeat split; reflexivity.
Qed.

Lemma nibble_range x : 0 <= Z.land x 0x0F < 16.
Proof. rewrite IntFacts.land_0F. apply Z.mod_pos_bound. lia. Qed.

(** C3. For all 8-bit [x] and [y], [sub x y] returns [(x - y) mod 256] and
    leaves the flags register with Z = (r == 0), N = 1,
    H = ((x & 0x0F) >= (y & 0x0F)), C = (x >= y) (the inverted-borrow
    convention), no other bit of F set, and nothing else changed. *)
Theorem sub_flags_exact (x y : Z) (s : cpu M) :
  0 <= x < 256 -> 0 <= y < 256 ->
  let r := (x - y) mod 256 in
  let s' := snd (sub x y s) in
  fst (sub x y s) = r /\
  f_getFlag flagZ s' = (r =? 0) /\
  f_getFlag flagN s' = true /\
  f_getFlag flagH s' = (Z.land x 0x0F >=? Z.land y 0x0F) /\
  f_getFlag flagC s' = (x >=? y) /\
  f s' = flags_of (r =? 0) true (Z.land x 0x0F >=? Z.land y 0x0F) (x >=? y) /\
  Z.land (f s') 0x0F = 0 /\
  same_but_f s s'.
Proof.
  intros Hx Hy r s'. subst r s'.
  pose proof (sub_f x y s) as Hf. unfold Int.u8 in Hf.
  unfold f_getFlag. rewrite Hf.
  destruct (flags_of_getFlag ((x - y) mod 256 =? 0) true
              (Z.land x 0x0F >=? Z.land y 0x0F) (x >=? y))
    as (Hz & Hn & Hh & Hc & Hlow).
  repeat split; try assumption; try reflexivity; apply sub_frame.
Qed.

(** The carry of [sub] is set exactly when no borrow occurred, the half
    carry exactly when the low nibble did not borrow: the opposite of the
    conventional borrow flags. *)
Lemma sub_inverted_borrow (x y : Z) (s : cpu M) :
  0 <= x < 256 -> 0 <= y < 256 ->
  (f_getFlag flagC (snd (sub x y s)) = true <-> fst (sub x y s) = x - y) /\
  (f_getFlag flagH (snd (sub x y s)) = true <-> y mod 16 <= x mod 16).
Proof.
  intros Hx Hy. unfold f_getFlag. rewrite sub_f, sub_result.
  destruct (flags_of_getFlag (Int.u8 (x - y) =? 0) true
              (Z.land x 0x0F >=? Z.land y 0x0F) (x >=? y))
    as (_ & _ & Hh & Hc & _).
  rewrite Hc, Hh, !IntFacts.land_0F. unfold Int.u8. split.
  - rewrite Z.geb_le. split; intros Hle.
    + apply Z.mod_small. lia.
    + pose proof (Z.mod_pos_bound (x - y) 256 ltac:(lia)). lia.
  - rewrite Z.geb_le. reflexivity.
Qed.

(** C4. For all 8-bit [x] and [y], [add x y] returns [(x + y) mod 256] and
    leaves the flags register with Z = (r == 0), N = 0,
    H = ((x & 0x0F) + (y & 0x0F)) > 0x0F, C = (x + y) > 0xFF, no other bit
    of F set, and nothing else changed. *)
Theorem add_flags_exact (x y : Z) (s : cpu M) :
  0 <= x < 256 -> 0 <= y < 256 ->
  let r := (x + y) mod 256 in
  let s' := snd (add x y s) in
  fst (add x y s) = r /\
  f_getFlag flagZ s' = (r =? 0) /\
  f_getFlag flagN s' = false /\
  f_getFlag flagH s' = (Z.land x 0x0F + Z.land y 0x0F >? 0x0F) /\
  f_getFlag flagC s' = (x + y >? 0xFF) /\
  f s' = flags_of (r =? 0) false
                  (Z.land x 0x0F + Z.land y 0x0F >? 0x0F) (x + y >? 0xFF) /\
  Z.land (f s') 0x0F = 0 /\
  same_but_f s s'.
Proof.
  intros Hx Hy r s'. subst r s'.
  pose proof (add_f x y s) as Hf.
  pose proof (nibble_range x) as Hnx. pose proof (nibble_range y) as Hny.
  rewrite (IntFacts.u8_small (Z.land x 0x0F + Z.land y 0x0F)) in Hf by lia.
  rewrite (IntFacts.u16_small (x + y)) in Hf by lia.
  unfold Int.u8 in Hf.
  unfold f_getFlag. rewrite Hf.
  destruct (flags_of_getFlag ((x + y) mod 256 =? 0) false
              (Z.land x 0x0F + Z.land y 0x0F >? 0x0F) (x + y >? 0xFF))
    as (Hz & Hn & Hh & Hc & Hlow).
  repeat split; try assumption; try reflexivity; apply add_frame.
Qed.

End Alu.

Lemma sub_flags_exact_witness :
  0 <= 0x10 < 256 /\ 0 <= 0x01 < 256 /\
  fst (sub 0x10 0x01 Scenario.jr_cpu) = 0x0F /\
  f (snd (sub 0x10 0x01 Scenario.jr_cpu)) = 0x50.
Proof.
  split; [lia | split; [lia | ]].
  destruct (sub_flags_exact 0x10 0x01 Scenario.jr_cpu
              ltac:(lia) ltac:(lia)) as (Hr & _ & _ & _ & _ & Hf & _).
  split; [exact Hr | exact Hf].
Defined.

Lemma add_flags_exact_witness :
  0 <= 0xFF < 256 /\ 0 <= 0x01 < 256 /\
  fst (add 0xFF 0x01 Scenario.jr_cpu) = 0x00 /\
  f (snd (add 0xFF 0x01 Scenario.jr_cpu)) = 0xB0.
Proof.
  split; [lia | split; [lia | ]].
  destruct (add_flags_exact 0xFF 0x01 Scenario.jr_cpu
              ltac:(lia) ltac:(lia)) as (Hr & _ & _ & _ & _ & Hf & _).
  split; [exact Hr | exact Hf].
Defined.

(** *** Relative jumps *)

Section Jumps.

Context {M : Type} `{mmu M}.

Lemma jr_forward (n : Z) (s : cpu M) :
  0 <= n < 128 -> pc (jr n s) = (pc s + n) mod 65536.
Proof.
  intros Hn. unfold jr.
  destruct (Z.ltb_spec n 0); [lia | ].
  unfold with_pc; cbn [pc]. now rewrite (IntFacts.u16_small n) by lia.
Qed.

(** For a negative offset other than -128 the code adds the magnitude. *)
Lemma jr_negative_adds_magnitude (n : Z) (s : cpu M) :
  -128 < n < 0 -> pc (jr n s) = (pc s - n) mod 65536.
Proof.
  intros Hn. unfold jr.
  destruct (Z.ltb_spec n 0); [ | lia].
  unfold with_pc; cbn [pc]. rewrite IntFacts.i8_small by lia.
  rewrite (IntFacts.u16_small (- n)) by lia.
  reflexivity.
Qed.

(** So a taken backward jump never lands where the signed sum says. *)
Lemma jr_negative_misses (n : Z) (s : cpu M) :
  -128 < n < 0 -> 0 <= pc s < 65536 ->
  pc (jr n s) <> (pc s + n) mod 65536.
Proof.
  intros Hn Hpc. rewrite jr_negative_adds_magnitude by exact Hn.
  intros Heq.
  pose proof (Z.div_mod (pc s - n) 65536 ltac:(lia)) as H1.
  pose proof (Z.div_mod (pc s + n) 65536 ltac:(lia)) as H2.
  pose proof (Z.mod_pos_bound (pc s - n) 65536 ltac:(lia)) as B1.
  pose proof (Z.mod_pos_bound (pc s + n) 65536 ltac:(lia)) as B2.
  lia.
Qed.

(** Only -128 comes out right: [-n] overflows back to -128 and the
    conversion to 16 bits sign-extends it. *)
Lemma jr_minus_128 (s : cpu M) :
  pc (jr (-128) s) = (pc s + -128) mod 65536.
Proof.
  unfold jr. change (-128 <? 0) with true.
  unfold with_pc; cbn [pc]. unfold Int.u16.
  change (Int.i8 (- -128) mod 65536) with 65408.
  replace (pc s + 65408) with (pc s + -128 + 1 * 65536) by lia.
  now rewrite Z.mod_add by lia.
Qed.

End Jumps.

(** C2. Scenario 5 on the code: JR NZ,-5 at [PC=0x0000] with flag Z clear.
    After the fetch [PC] is 0x0002 and the operand is -5; the code leaves
    [PC = 0x0007], not [0x0002 - 5 = 0xFFFD]. *)
Theorem jr_nz_backward_scenario :
  Int.i8 0xFB = -5 /\
  f_getFlag flagZ Scenario.jr_cpu = false /\
  (exists s1, fetch Scenario.jr_table Scenario.jr_cpu = Ok s1 /\
              pc s1 = 0x0002 /\ inst s1 = newInstruction 0x20 [0xFB] /\
              pc (jrNF flagZ (-5) s1) = 0x0007) /\
  (exists s2, step Scenario.jr_table Scenario.jr_cpu = Ok (8, s2) /\
              pc s2 = 0x0007) /\
  (0x0002 - 5) mod 65536 = 0xFFFD.
Proof.
  split; [reflexivity | split; [reflexivity | ]].
  split; [ | split; [ | reflexivity]].
  - eexists. split; [reflexivity | ]. repeat split; reflexivity.
  - eexists. split; reflexivity.
Qed.

(** *** Reset and construction of the earlier CPU *)

Section Construction.

Context {M : Type} `{mmu M}.

Lemma reset_state (s : cpu M) :
  let s' := reset s in
  a s' = 0 /\ b s' = 0 /\ c s' = 0 /\ d s' = 0 /\ e s' = 0 /\ f s' = 0 /\
  h s' = 0 /\ l s' = 0 /\ sp s' = 0xFFFE /\ pc s' = 0x0000 /\
  m s' = 0 /\ t s' = 0.
Proof. cbn. repeat split; reflexivity. Qed.

Lemma newCpu_state (mem : M) :
  let s' := newCpu mem in
  a s' = 0 /\ b s' = 0 /\ c s' = 0 /\ d s' = 0 /\ e s' = 0 /\ f s' = 0 /\
  h s' = 0 /\ l s' = 0 /\ sp s' = 0xFFFE /\ pc s' = 0x0000.
Proof. cbn. repeat split; reflexivity. Qed.

End Construction.

End MainFacts.

(** ** The MMU and the later CPU *)

Module JibiFacts.
Import Jibi JibiSpec.

(** Splitting a successful sequence at its first call. *)
Ltac inv_bind H :=
  let x := fresh "x" in
  let Hx := fresh "Hx" in
  apply bind_Ok in H as (x & Hx & H).

(** *** Construction *)

Lemma NewCpu_fields (mm : option Mmu) (bs : list Z) (s : Cpu) :
  NewCpu mm bs = Ok s ->
  a s = 0 /\ b s = 0 /\ c s = 0 /\ d s = 0 /\ e s = 0 /\ f s = 0 /\
  h s = 0 /\ l s = 0 /\ sp s = 0 /\ pc s = 0 /\ ime s = 1 /\
  biosFinished s = negb (0 <? Z.of_nat (length bs)) /\
  bios s = (if 0 <? Z.of_nat (length bs) then pad_bios bs else bs).
Proof.
  unfold NewCpu. intros Hnew. inv_bind Hnew. destruct x as [mm' ak].
  injection Hnew as <-. cbn. repeat split; reflexivity.
Qed.

Lemma pad_bios_length (bs : list Z) : length (pad_bios bs) = 256%nat.
Proof.
  unfold pad_bios. rewrite length_take, length_app, length_replicate.
  change (Z.to_nat 256) with 256%nat. lia.
Qed.

Lemma pad_bios_lookup (bs : list Z) (i : nat) :
  (i < 256)%nat -> pad_bios bs !! i = Some (default 0 (bs !! i)).
Proof.
  intros Hi. unfold pad_bios. change (Z.to_nat 256) with 256%nat.
  rewrite lookup_take_lt by exact Hi.
  destruct (bs !! i) as [v | ] eqn:Hb.
  - now rewrite (lookup_app_l_Some _ _ _ _ Hb).
  - apply lookup_ge_None in Hb. rewrite lookup_app_r by exact Hb.
    rewrite lookup_replicate_2 by lia. reflexivity.
Qed.

(** With no other bus master holding a lock, construction returns and the
    CPU owns ROM, work RAM, IF, high RAM and IE. *)
Lemma NewCpu_fresh (cart : option (list Z)) (bs : list Z) :
  exists s, NewCpu (Some (NewMmu cart)) bs = Ok s /\
            mmuKeys s = Scenario.cpu_keys.
Proof. eexists. split; reflexivity. Qed.

Lemma NewCpu_nil (bs : list Z) :
  exists s, NewCpu None bs = Ok s /\ mmu s = None /\ mmuKeys s = 0.
Proof. eexists. repeat split; reflexivity. Qed.

(** C10. What construction gives, against the initial state of section 6:
    the eight registers are 0, [PC = 0x0000], [IME = 1] and the boot ROM is
    mapped exactly when one was provided, but the stack pointer is 0x0000,
    not 0xFFFE: [NewCpu] never initialises [sp]. *)
Theorem NewCpu_initial_state (mm : option Mmu) (bs : list Z) (s : Cpu) :
  NewCpu mm bs = Ok s ->
  a s = 0 /\ b s = 0 /\ c s = 0 /\ d s = 0 /\ e s = 0 /\ f s = 0 /\
  h s = 0 /\ l s = 0 /\ pc s = 0x0000 /\ ime s = 1 /\
  (biosFinished s = false <-> bs <> []) /\
  sp s = 0x0000 /\ sp s <> 0xFFFE.
Proof.
  intros Hnew.
  destruct (NewCpu_fields mm bs s Hnew)
    as (Ha & Hb & Hc & Hd & He & Hf & Hh & Hl & Hsp & Hpc & Hime & Hfin & _).
  repeat split; try assumption.
  - rewrite Hfin. destruct bs; cbn; [discriminate | intros _; discriminate].
  - rewrite Hfin. destruct bs; cbn; [congruence | reflexivity].
  - rewrite Hsp. discriminate.
Qed.

Lemma NewCpu_initial_state_witness :
  exists s, NewCpu (Some (NewMmu None)) [] = Ok s /\
            sp s = 0x0000 /\ sp s <> 0xFFFE /\ ime s = 1.
Proof.
  destruct (NewCpu_fresh None []) as (s & Hs & _).
  exists s. split; [exact Hs | ].
  destruct (NewCpu_initial_state _ _ _ Hs)
    as (_ & _ & _ & _ & _ & _ & _ & _ & _ & Hime & _ & Hsp & Hne).
  repeat split; assumption.
Defined.

(** *** Bit sets of blocks *)

Section Bits.

Lemma land_pow2 (x k : Z) :
  0 <= k -> Z.land x (2 ^ k) = if Z.testbit x k then 2 ^ k else 0.
Proof.
  intros Hk. apply Z.bits_inj'. intros i Hi.
  rewrite Z.land_spec, Z.pow2_bits_eqb by exact Hk.
  destruct (Z.eqb_spec k i) as [-> | Hne].
  - destruct (Z.testbit x i) eqn:Hx; cbn.
    + rewrite Z.pow2_bits_eqb, Z.eqb_refl by exact Hk. reflexivity.
    + now rewrite Z.bits_0.
  - rewrite andb_false_r.
    destruct (Z.testbit x k).
    + rewrite Z.pow2_bits_eqb by exact Hk. symmetry. now apply Z.eqb_neq.
    + now rewrite Z.bits_0.
Qed.

Lemma pow2_nonzero (k : Z) : 0 <= k -> 2 ^ k <> 0.
Proof. intros Hk. pose proof (Z.pow_pos_nonneg 2 k ltac:(lia) Hk). lia. Qed.

Lemma holds_pow2 (ak k : Z) : 0 <= k -> holds ak (2 ^ k) = Z.testbit ak k.
Proof.
  intros Hk. unfold holds. rewrite land_pow2 by exact Hk.
  destruct (Z.testbit ak k).
  - apply Z.eqb_refl.
  - apply Z.eqb_neq. intros Heq. now apply (pow2_nonzero k Hk).
Qed.

Lemma free_pow2 (lk k : Z) :
  0 <= k -> (Z.land lk (2 ^ k) =? 0) = negb (Z.testbit lk k).
Proof.
  intros Hk. rewrite land_pow2 by exact Hk.
  destruct (Z.testbit lk k); cbn.
  - apply Z.eqb_neq. now apply pow2_nonzero.
  - reflexivity.
Qed.

Lemma testbit_u16_high (x i : Z) :
  0 <= x < 65536 -> 16 <= i -> Z.testbit x i = false.
Proof.
  intros Hx Hi. rewrite <- (Z.mod_small x (2 ^ 16)) by (cbn; lia).
  apply Z.mod_pow2_bits_high. lia.
Qed.

Lemma testbit_FFFF (i : Z) : 0 <= i -> Z.testbit 0xFFFF i = (i <? 16).
Proof.
  intros Hi. change 0xFFFF with (Z.ones 16).
  destruct (Z.ltb_spec i 16).
  - apply Z.ones_spec_low. lia.
  - apply Z.ones_spec_high. lia.
Qed.

(** [ak | blk]: that bit set, the others as they were. *)
Lemma lor_pow2_testbit (ak k i : Z) :
  0 <= k -> 0 <= i ->
  Z.testbit (Z.lor ak (2 ^ k)) i = Z.testbit ak i || (i =? k).
Proof.
  intros Hk Hi. rewrite Z.lor_spec, Z.pow2_bits_eqb by exact Hk.
  now rewrite (Z.eqb_sym k i).
Qed.

(** [ak & (blk ^ 0xFFFF)]: that bit cleared, the others as they were. *)
Lemma clear_pow2_testbit (ak k i : Z) :
  0 <= ak < 65536 -> 0 <= k < 16 -> 0 <= i ->
  Z.testbit (Z.land ak (Z.lxor (2 ^ k) 0xFFFF)) i
  = Z.testbit ak i && negb (i =? k).
Proof.
  intros Hak Hk Hi.
  rewrite Z.land_spec, Z.lxor_spec, Z.pow2_bits_eqb, testbit_FFFF by lia.
  rewrite (Z.eqb_sym k i).
  destruct (Z.ltb_spec i 16) as [Hlt | Hge].
  - now rewrite xorb_true_r.
  - rewrite (testbit_u16_high ak i Hak Hge). reflexivity.
Qed.

Lemma set_then_clear (ak k : Z) :
  0 <= ak < 65536 -> 0 <= k < 16 -> Z.testbit ak k = false ->
  Z.land (Z.lor ak (2 ^ k)) (Z.lxor (2 ^ k) 0xFFFF) = ak.
Proof.
  intros Hak Hk Hfree. apply Z.bits_inj'. intros i Hi.
  rewrite Z.land_spec, Z.lxor_spec, lor_pow2_testbit, Z.pow2_bits_eqb,
    testbit_FFFF by lia.
  rewrite (Z.eqb_sym k i).
  destruct (Z.eqb_spec i k) as [-> | Hne].
  - rewrite Hfree.
    destruct (Z.ltb_spec k 16); [reflexivity | lia].
  - rewrite orb_false_r. destruct (Z.ltb_spec i 16) as [Hlt | Hge].
    + cbn. now rewrite andb_true_r.
    + rewrite (testbit_u16_high ak i Hak Hge). reflexivity.
Qed.

Lemma lock_then_release (lk k : Z) :
  0 <= k -> Z.testbit lk k = false -> Z.ldiff (Z.lor lk (2 ^ k)) (2 ^ k) = lk.
Proof.
  intros Hk Hfree. apply Z.bits_inj'. intros i Hi.
  rewrite Z.ldiff_spec, lor_pow2_testbit, Z.pow2_bits_eqb by lia.
  rewrite (Z.eqb_sym k i).
  destruct (Z.eqb_spec i k) as [-> | Hne].
  - rewrite Hfree. reflexivity.
  - rewrite orb_false_r. cbn. now rewrite andb_true_r.
Qed.

End Bits.

(** *** The partition of the address space *)

Ltac split_ifs :=
  repeat match goal with
         | |- context [if ?cond then _ else _] => destruct cond eqn:?
         end.

Ltac split_ifs_in H :=
  repeat match type of H with
         | context [if ?cond then _ else _] => destruct cond eqn:?
         end.

(** The direction string only labels the panic. *)
Lemma selectAddressBlock_Ok (ad : Z) (rw rw' : string) (r : Z * Z) :
  selectAddressBlock ad rw = Ok r -> selectAddressBlock ad rw' = Ok r.
Proof.
  unfold selectAddressBlock.
  destruct (getAddressInfo ad) as [u v].
  split_ifs; intros Hr; solve [exact Hr | discriminate].
Qed.

Lemma selectAddressBlock_blocks (ad : Z) (rw : string) (blk st : Z) :
  selectAddressBlock ad rw = Ok (blk, st) ->
  blk = abNil \/ In (blk, st) blocks.
Proof.
  unfold selectAddressBlock.
  destruct (getAddressInfo ad) as [u v].
  split_ifs; intros Hr; try discriminate; injection Hr as <- <-;
    solve [left; reflexivity | right; cbn; tauto].
Qed.

Lemma region_select (ad blk : Z) (rw : string) :
  region ad = Some blk ->
  exists st, selectAddressBlock ad rw = Ok (blk, st) /\ In (blk, st) blocks.
Proof.
  unfold region. intros Hreg.
  destruct (selectAddressBlock ad "") as [[blk' st] | | ] eqn:Hsel;
    try discriminate.
  destruct (Z.eqb_spec blk' abNil) as [Hnil | Hne]; [discriminate | ].
  injection Hreg as ->. exists st. split.
  - exact (selectAddressBlock_Ok _ _ rw _ Hsel).
  - destruct (selectAddressBlock_blocks _ _ _ _ Hsel); [contradiction | easy].
Qed.

(** Every region's block is one bit of the 16-bit key set. *)
Lemma blocks_bit (blk st : Z) :
  In (blk, st) blocks -> exists k, 1 <= k <= 10 /\ blk = 2 ^ k.
Proof.
  cbn. intros Hin.
  repeat (destruct Hin as [Heq | Hin];
          [injection Heq as <- <-;
           first [ exists 1; split; [lia | reflexivity]
                 | exists 2; split; [lia | reflexivity]
                 | exists 3; split; [lia | reflexivity]
                 | exists 4; split; [lia | reflexivity]
                 | exists 5; split; [lia | reflexivity]
                 | exists 6; split; [lia | reflexivity]
                 | exists 7; split; [lia | reflexivity]
                 | exists 8; split; [lia | reflexivity]
                 | exists 9; split; [lia | reflexivity]
                 | exists 10; split; [lia | reflexivity] ] | ]).
  contradiction.
Qed.

Lemma region_bit (ad blk : Z) :
  region ad = Some blk -> exists k, 1 <= k <= 10 /\ blk = 2 ^ k.
Proof.
  intros Hreg. destruct (region_select ad blk "" Hreg) as (st & _ & Hin).
  exact (blocks_bit blk st Hin).
Qed.

Lemma region_rom (ad : Z) : 0 <= ad <= 0x7FFF -> region ad = Some abRom.
Proof.
  intros Had. unfold region, selectAddressBlock.
  destruct (Z.ltb_spec ad AddrVRam) as [Hlt | Hge]; [reflexivity | ].
  unfold AddrVRam in Hge. lia.
Qed.

(** *** Writes to ROM *)

(** C8. For every address in 0x0000-0x7FFF, every byte and every key set,
    [WriteByteAt] returns without an error and with the MMU (every memory
    block, [ie], both ports, the locks) exactly as it was. *)
Theorem WriteByteAt_rom_ignored (mm : Mmu) (ad v ak : Z) :
  0 <= ad <= 0x7FFF -> WriteByteAt mm ad v ak = Ok mm.
Proof.
  intros Had. unfold WriteByteAt, selectAddressBlock.
  destruct (Z.ltb_spec ad AddrVRam) as [Hlt | Hge].
  - reflexivity.
  - unfold AddrVRam in Hge. lia.
Qed.

Lemma WriteByteAt_rom_ignored_witness :
  0 <= 0x2000 <= 0x7FFF /\
  WriteByteAt (NewMmu (Some [0x31; 0xFE; 0xFF])) 0x2000 0x01 0
  = Ok (NewMmu (Some [0x31; 0xFE; 0xFF])).
Proof.
  split; [lia | ].
  apply (WriteByteAt_rom_ignored (NewMmu (Some [0x31; 0xFE; 0xFF]))
           0x2000 0x01 0).
  lia.
Defined.

(** *** Locks and keys *)

Lemma with_locks_same (mm : Mmu) : with_locks (locks mm) mm = mm.
Proof. destruct mm; reflexivity. Qed.

Lemma with_locks_twice (mm : Mmu) (x y : Z) :
  with_locks y (with_locks x mm) = with_locks y mm.
Proof. reflexivity. Qed.

Lemma block_not_nil (k : Z) : 0 <= k -> (2 ^ k =? abNil) = false.
Proof. intros Hk. apply Z.eqb_neq. now apply pow2_nonzero. Qed.

Lemma LockAddr_held (mm : Mmu) (ad ak blk st : Z) :
  selectAddressBlock ad "lock" = Ok (blk, st) ->
  holds ak blk = true -> LockAddr mm ad ak = Ok (mm, ak).
Proof. intros Hsel Hh. unfold LockAddr. rewrite Hsel. cbn. now rewrite Hh. Qed.

Lemma LockAddr_acquire (mm : Mmu) (ad ak k st : Z) :
  selectAddressBlock ad "lock" = Ok (2 ^ k, st) -> 0 <= k ->
  holds ak (2 ^ k) = false -> Z.testbit (locks mm) k = false ->
  LockAddr mm ad ak
  = Ok (with_locks (Z.lor (locks mm) (2 ^ k)) mm, Z.lor ak (2 ^ k)).
Proof.
  intros Hsel Hk Hh Hfree. unfold LockAddr. rewrite Hsel. cbn [bind].
  rewrite Hh. unfold mutexLock.
  rewrite block_not_nil, free_pow2, Hfree by exact Hk. reflexivity.
Qed.

(** The lock of a block that another bus master holds makes the caller
    wait. *)
Lemma LockAddr_waits (mm : Mmu) (ad ak k st : Z) :
  selectAddressBlock ad "lock" = Ok (2 ^ k, st) -> 0 <= k ->
  holds ak (2 ^ k) = false -> Z.testbit (locks mm) k = true ->
  LockAddr mm ad ak = Blocked.
Proof.
  intros Hsel Hk Hh Hbusy. unfold LockAddr. rewrite Hsel. cbn [bind].
  rewrite Hh. unfold mutexLock.
  rewrite block_not_nil, free_pow2, Hbusy by exact Hk. reflexivity.
Qed.

Lemma UnlockAddr_absent (mm : Mmu) (ad ak blk st : Z) :
  selectAddressBlock ad "unlock" = Ok (blk, st) ->
  holds ak blk = false -> UnlockAddr mm ad ak = Ok (mm, ak).
Proof.
  intros Hsel Hh. unfold UnlockAddr. rewrite Hsel. cbn. now rewrite Hh.
Qed.

Lemma UnlockAddr_release (mm : Mmu) (ad ak k st : Z) :
  selectAddressBlock ad "unlock" = Ok (2 ^ k, st) -> 0 <= k ->
  holds ak (2 ^ k) = true -> Z.testbit (locks mm) k = true ->
  UnlockAddr mm ad ak
  = Ok (with_locks (Z.ldiff (locks mm) (2 ^ k)) mm,
        Z.land ak (Z.lxor (2 ^ k) 0xFFFF)).
Proof.
  intros Hsel Hk Hh Hbusy. unfold UnlockAddr. rewrite Hsel. cbn [bind].
  rewrite Hh. unfold mutexUnlock.
  rewrite block_not_nil, free_pow2, Hbusy by exact Hk. reflexivity.
Qed.

(** Outside the regions there is no key to take or give back: the call
    panics on an unhandled address, and where the address is known but
    backed by no block [LockAddr] changes nothing while [UnlockAddr] reaches
    for the nil mutex of [abNil]. *)
Lemma LockAddr_no_region (mm : Mmu) (ad ak : Z) :
  region ad = None ->
  LockAddr mm ad ak = Ok (mm, ak) \/ exists err, LockAddr mm ad ak = Panic err.
Proof.
  unfold region, LockAddr. intros Hreg.
  destruct (selectAddressBlock ad "") as [[blk st] | err | ] eqn:Hsel.
  - destruct (Z.eqb_spec blk abNil) as [-> | Hne]; [ | discriminate].
    rewrite (selectAddressBlock_Ok _ _ "lock" _ Hsel). cbn [bind].
    unfold holds, abNil. rewrite Z.land_0_r. now left.
  - right. unfold selectAddressBlock in Hsel |- *.
    destruct (getAddressInfo ad) as [u v].
    split_ifs_in Hsel; try discriminate. cbn. eauto.
  - unfold selectAddressBlock in Hsel.
    destruct (getAddressInfo ad) as [u v].
    split_ifs_in Hsel; discriminate.
Qed.

Lemma UnlockAddr_no_region (mm : Mmu) (ad ak : Z) :
  region ad = None -> exists err, UnlockAddr mm ad ak = Panic err.
Proof.
  unfold region, UnlockAddr. intros Hreg.
  destruct (selectAddressBlock ad "") as [[blk st] | err | ] eqn:Hsel.
  - destruct (Z.eqb_spec blk abNil) as [-> | Hne]; [ | discriminate].
    rewrite (selectAddressBlock_Ok _ _ "unlock" _ Hsel). cbn [bind].
    unfold holds, abNil. rewrite Z.land_0_r. cbn. eauto.
  - unfold selectAddressBlock in Hsel |- *.
    destruct (getAddressInfo ad) as [u v].
    split_ifs_in Hsel; try discriminate. cbn. eauto.
  - unfold selectAddressBlock in Hsel.
    destruct (getAddressInfo ad) as [u v].
    split_ifs_in Hsel; discriminate.
Qed.

(** C9. For an address in a region with block bit [blk] and a 16-bit key
    set [ak]: [LockAddr] returns [ak] unchanged when it holds the bit and
    otherwise (the block's mutex being free) [ak] with that bit added;
    [UnlockAddr] returns [ak] unchanged when the bit is absent and otherwise
    [ak] with exactly that bit cleared; and unlocking after locking gives
    back the keys (and the MMU) one started from. *)
Theorem lock_unlock_keys (mm : Mmu) (ad ak blk : Z) :
  region ad = Some blk -> 0 <= ak < 65536 ->
  exists k, 1 <= k <= 10 /\ blk = 2 ^ k /\ holds ak blk = Z.testbit ak k /\
  (holds ak blk = true -> LockAddr mm ad ak = Ok (mm, ak)) /\
  (holds ak blk = false -> Z.testbit (locks mm) k = false ->
   LockAddr mm ad ak
   = Ok (with_locks (Z.lor (locks mm) blk) mm, Z.lor ak blk)) /\
  (forall i, 0 <= i ->
     Z.testbit (Z.lor ak blk) i = Z.testbit ak i || (i =? k)) /\
  (holds ak blk = false -> UnlockAddr mm ad ak = Ok (mm, ak)) /\
  (holds ak blk = true -> Z.testbit (locks mm) k = true ->
   UnlockAddr mm ad ak
   = Ok (with_locks (Z.ldiff (locks mm) blk) mm,
         Z.land ak (Z.lxor blk 0xFFFF))) /\
  (forall i, 0 <= i ->
     Z.testbit (Z.land ak (Z.lxor blk 0xFFFF)) i
     = Z.testbit ak i && negb (i =? k)) /\
  (forall mm', holds (Z.land ak (Z.lxor blk 0xFFFF)) blk = false /\
               UnlockAddr mm' ad (Z.land ak (Z.lxor blk 0xFFFF))
               = Ok (mm', Z.land ak (Z.lxor blk 0xFFFF))) /\
  (holds ak blk = false -> Z.testbit (locks mm) k = false ->
   exists mm', LockAddr mm ad ak = Ok (mm', Z.lor ak blk) /\
               holds (Z.lor ak blk) blk = true /\
               LockAddr mm' ad (Z.lor ak blk) = Ok (mm', Z.lor ak blk) /\
               UnlockAddr mm' ad (Z.lor ak blk) = Ok (mm, ak)).
Proof.
  intros Hreg Hak.
  destruct (region_select ad blk "lock" Hreg) as (st & Hlock & Hin).
  destruct (region_select ad blk "unlock" Hreg) as (st' & Hunlock & _).
  destruct (blocks_bit blk st Hin) as (k & Hk & ->).
  exists k. split; [exact Hk | ]. split; [reflexivity | ].
  split; [apply holds_pow2; lia | ].
  split; [intros Hh; exact (LockAddr_held mm ad ak _ st Hlock Hh) | ].
  split; [intros Hh Hfree;
          apply (LockAddr_acquire mm ad ak k st); lia || assumption | ].
  split; [intros i Hi; apply lor_pow2_testbit; lia | ].
  split; [intros Hh; exact (UnlockAddr_absent mm ad ak _ st' Hunlock Hh) | ].
  split; [intros Hh Hbusy;
          apply (UnlockAddr_release mm ad ak k st'); lia || assumption | ].
  split; [intros i Hi; apply clear_pow2_testbit; lia | ].
  split.
  { intros mm'.
    assert (Hgone : holds (Z.land ak (Z.lxor (2 ^ k) 0xFFFF)) (2 ^ k) = false).
    { rewrite holds_pow2, clear_pow2_testbit, Z.eqb_refl by lia.
      apply andb_false_r. }
    split; [exact Hgone | ].
    exact (UnlockAddr_absent mm' ad _ _ st' Hunlock Hgone). }
  intros Hh Hfree.
  assert (Hheld : holds (Z.lor ak (2 ^ k)) (2 ^ k) = true).
  { rewrite holds_pow2, lor_pow2_testbit, Z.eqb_refl by lia.
    apply orb_true_r. }
  eexists.
  split; [apply (LockAddr_acquire mm ad ak k st); lia || assumption | ].
  split; [exact Hheld | ].
  split; [exact (LockAddr_held _ ad _ _ st Hlock Hheld) | ].
  rewrite (UnlockAddr_release _ ad _ k st') by
    first [ assumption | lia
          | cbn [locks with_locks]; rewrite lor_pow2_testbit, Z.eqb_refl by lia;
            apply orb_true_r ].
  cbn [locks with_locks]. rewrite with_locks_twice.
  rewrite lock_then_release by (lia || assumption).
  rewrite with_locks_same.
  rewrite set_then_clear; [reflexivity | lia | lia | ].
  rewrite <- holds_pow2 by lia. exact Hh.
Qed.

Lemma lock_unlock_keys_witness :
  region AddrVRam = Some abVRam /\ 0 <= 0 < 65536 /\
  exists mm', LockAddr (NewMmu None) AddrVRam 0 = Ok (mm', abVRam) /\
              UnlockAddr mm' AddrVRam abVRam = Ok (NewMmu None, 0).
Proof.
  split; [reflexivity | split; [lia | ]].
  destruct (lock_unlock_keys (NewMmu None) AddrVRam 0 abVRam
              eq_refl ltac:(lia))
    as (k & Hk & Hblk & _ & _ & _ & _ & _ & _ & _ & _ & Hround).
  assert (Hk2 : k = 2).
  { change abVRam with (2 ^ 2) in Hblk.
    apply Z.pow_inj_r in Hblk; lia. }
  subst k.
  destruct (Hround eq_refl eq_refl) as (mm' & Hl & _ & _ & Hu).
  exists mm'. split; [exact Hl | exact Hu].
Defined.

(** *** Authorization of reads and writes *)

Ltac each_block Hin :=
  cbn in Hin;
  repeat (destruct Hin as [Hin | Hin]; [injection Hin as <- <- | ]);
  [ .. | contradiction].



(** With the key, an access is never refused as unauthorized. *)
Lemma ReadByteAt_authorized (mm : Mmu) (ad ak blk : Z) :
  region ad = Some blk -> holds ak blk = true ->
  ReadByteAt mm ad ak <> Panic (UnauthorizedRead ad).
Proof.
  intros Hreg Hh.
  destruct (region_select ad blk "read" Hreg) as (st & Hsel & Hin).
  unfold ReadByteAt, index. rewrite Hsel. cbn [bind]. rewrite Hh.
  destruct (getAddressInfo ad) as [u ok].
  each_block Hin; cbn; split_ifs; try discriminate;
    match goal with
    | |- context [?s !! ?i] => destruct (s !! i); discriminate
    end.
Qed.




Lemma NewCpu_is_fresh (cart : option (list Z)) (bs : list Z) :
  NewCpu (Some (NewMmu cart)) bs = Ok (Scenario.fresh cart bs).
Proof. reflexivity. Qed.

(** [pending] is [fresh] after the CPU has written IE and IF itself. *)
Lemma pending_by_writes (iev ifv : Z) :
  (let! s := writeByte AddrIE iev (Scenario.fresh None []) in
   writeByte AddrIF ifv s)
  = Ok (Scenario.pending 0 0 iev ifv).
Proof. reflexivity. Qed.

(** *** Opcodes without a table entry *)

(** On a table miss the earlier CPU's [execute] does nothing after its
    boot-ROM check. *)
Lemma Main_execute_unknown_opcode {M : Type} `{Main.mmu M}
  (tbl : Z -> option (Main.command M)) (s : Main.cpu M) :
  tbl (o (Main.inst s)) = None ->
  Main.execute tbl s
  = Ok (if Main.pc s =? 0x0100
        then Main.with_mc (Main.unloadBios (Main.mc s)) s else s).
Proof.
  intros Hmiss. unfold Main.execute.
  destruct (Main.pc s =? 0x0100); cbn [Main.inst Main.with_mc];
    now rewrite Hmiss.
Qed.

(** Scenario 1 on the code: a NOP at ROM[0] takes PC to 0x0001 and credits
    [t = 4] and [m = 16]. *)
Example nop_step :
  exists s',
    step Scenario.nop_table Scenario.byte_read
      (Scenario.fresh (Some [0x00]) []) = Ok s' /\
    pc s' = 0x0001 /\ t s' = 4 /\ m s' = 16 /\ f s' = 0.
Proof.
  eexists. split; [vm_compute; reflexivity | ]. repeat split; reflexivity.
Qed.

(** *** What the memory accessors leave alone *)

Lemma same_regs_refl (s : Cpu) : same_regs s s.
Proof. unfold same_regs. repeat split; reflexivity. Qed.

Lemma same_regs_trans (s1 s2 s3 : Cpu) :
  same_regs s1 s2 -> same_regs s2 s3 -> same_regs s1 s3.
Proof.
  unfold same_regs. intros H12 H23.
  repeat match goal with
         | H : _ /\ _ |- _ => destruct H
         end.
  repeat split; congruence.
Qed.

Lemma keys_stable_refl (ak : Z) : keys_stable ak ak.
Proof. intros j _ _. reflexivity. Qed.

Lemma keys_stable_trans (k1 k2 k3 : Z) :
  keys_stable k1 k2 -> keys_stable k2 k3 -> keys_stable k1 k3.
Proof.
  intros H12 H23 j Hj Hc. rewrite (H23 j Hj Hc). exact (H12 j Hj Hc).
Qed.

Lemma keys_stable_lor (ak k : Z) :
  0 <= k -> contested k = true -> keys_stable ak (Z.lor ak (2 ^ k)).
Proof.
  intros Hk Hc j Hj Hnc. rewrite lor_pow2_testbit by lia.
  destruct (Z.eqb_spec j k) as [-> | Hne]; [congruence | apply orb_false_r].
Qed.

Lemma keys_stable_clear (ak k : Z) :
  0 <= k -> contested k = true ->
  keys_stable ak (Z.land ak (Z.lxor (2 ^ k) 0xFFFF)).
Proof.
  intros Hk Hc j Hj Hnc.
  rewrite Z.land_spec, Z.lxor_spec, Z.pow2_bits_eqb, testbit_FFFF by lia.
  destruct (Z.eqb_spec k j) as [-> | Hne]; [congruence | ].
  destruct (Z.ltb_spec j 16); [ | lia].
  cbn. apply andb_true_r.
Qed.

Lemma keys_stable_holds (ak ak' k : Z) :
  keys_stable ak ak' -> 0 <= k < 16 -> contested k = false ->
  holds ak' (2 ^ k) = holds ak (2 ^ k).
Proof.
  intros Hst Hk Hc. rewrite !holds_pow2 by lia. exact (Hst k Hk Hc).
Qed.

Lemma same_memory_refl (mm : Mmu) : same_memory mm mm.
Proof. exists (locks mm). symmetry. apply with_locks_same. Qed.

Lemma same_memory_trans (m1 m2 m3 : Mmu) :
  same_memory m1 m2 -> same_memory m2 m3 -> same_memory m1 m3.
Proof. intros [l1 ->] [l2 ->]. exists l2. reflexivity. Qed.

Lemma LockAddr_inv (mm : Mmu) (ad ak : Z) (mm' : Mmu) (ak' : Z) :
  LockAddr mm ad ak = Ok (mm', ak') ->
  exists blk st,
    selectAddressBlock ad "lock" = Ok (blk, st) /\ same_memory mm mm' /\
    (ak' = ak \/ (blk <> abNil /\ ak' = Z.lor ak blk)).
Proof.
  unfold LockAddr. intros Hl.
  destruct (selectAddressBlock ad "lock") as [[blk st] | | ];
    try discriminate.
  cbn [bind] in Hl. exists blk, st. split; [reflexivity | ].
  destruct (holds ak blk).
  - injection Hl as <- <-. split; [apply same_memory_refl | now left].
  - unfold mutexLock in Hl.
    destruct (Z.eqb_spec blk abNil) as [Hnil | Hne]; [discriminate | ].
    destruct (Z.land (locks mm) blk =? 0); [ | discriminate].
    injection Hl as <- <-. split; [eexists; reflexivity | now right].
Qed.

Lemma UnlockAddr_inv (mm : Mmu) (ad ak : Z) (mm' : Mmu) (ak' : Z) :
  UnlockAddr mm ad ak = Ok (mm', ak') ->
  exists blk st,
    selectAddressBlock ad "unlock" = Ok (blk, st) /\ same_memory mm mm' /\
    (ak' = ak \/ (blk <> abNil /\ ak' = Z.land ak (Z.lxor blk 0xFFFF))).
Proof.
  unfold UnlockAddr. intros Hl.
  destruct (selectAddressBlock ad "unlock") as [[blk st] | | ];
    try discriminate.
  cbn [bind] in Hl. exists blk, st. split; [reflexivity | ].
  destruct (holds ak blk); cbn [negb] in Hl.
  - unfold mutexUnlock in Hl.
    destruct (Z.eqb_spec blk abNil) as [Hnil | Hne]; [discriminate | ].
    destruct (Z.land (locks mm) blk =? 0); [discriminate | ].
    injection Hl as <- <-. split; [eexists; reflexivity | now right].
  - injection Hl as <- <-. split; [apply same_memory_refl | now left].
Qed.

Lemma contested_addr_block (ad blk st : Z) (rw : string) :
  contested_addr ad -> selectAddressBlock ad rw = Ok (blk, st) ->
  exists k, 0 <= k /\ contested k = true /\ blk = 2 ^ k.
Proof.
  intros [-> | [-> | ->]] Hsel; cbn in Hsel; injection Hsel as <- <-.
  - exists 2. repeat split; lia.
  - exists 5. repeat split; lia.
  - exists 8. repeat split; lia.
Qed.

Lemma lockAddr_inv (ad : Z) (s s' : Cpu) :
  contested_addr ad -> lockAddr ad s = Ok s' ->
  same_regs s s' /\ keys_stable (mmuKeys s) (mmuKeys s') /\
  exists mm mm', mmu s = Some mm /\ mmu s' = Some mm' /\ same_memory mm mm'.
Proof.
  intros Had Hl. unfold lockAddr, the_mmu in Hl.
  destruct (mmu s) as [mm | ] eqn:Hmm; [ | discriminate].
  cbn [bind] in Hl. inv_bind Hl. destruct x as [mm' ak'].
  injection Hl as <-.
  destruct (LockAddr_inv _ _ _ _ _ Hx) as (blk & st & Hsel & Hmem & Hkeys).
  split; [unfold same_regs; cbn; repeat split; reflexivity | ].
  split.
  - cbn [mmuKeys with_mmu].
    destruct Hkeys as [-> | [_ ->]]; [apply keys_stable_refl | ].
    destruct (contested_addr_block _ _ _ _ Had Hsel) as (k & Hk & Hc & ->).
    now apply keys_stable_lor.
  - exists mm, mm'. split; [reflexivity | split; [reflexivity | assumption]].
Qed.

Lemma unlockAddr_inv (ad : Z) (s s' : Cpu) :
  contested_addr ad -> unlockAddr ad s = Ok s' ->
  same_regs s s' /\ keys_stable (mmuKeys s) (mmuKeys s') /\
  exists mm mm', mmu s = Some mm /\ mmu s' = Some mm' /\ same_memory mm mm'.
Proof.
  intros Had Hl. unfold unlockAddr, the_mmu in Hl.
  destruct (mmu s) as [mm | ] eqn:Hmm; [ | discriminate].
  cbn [bind] in Hl. inv_bind Hl. destruct x as [mm' ak'].
  injection Hl as <-.
  destruct (UnlockAddr_inv _ _ _ _ _ Hx) as (blk & st & Hsel & Hmem & Hkeys).
  split; [unfold same_regs; cbn; repeat split; reflexivity | ].
  split.
  - cbn [mmuKeys with_mmu].
    destruct Hkeys as [-> | [_ ->]]; [apply keys_stable_refl | ].
    destruct (contested_addr_block _ _ _ _ Had Hsel) as (k & Hk & Hc & ->).
    now apply keys_stable_clear.
  - exists mm, mm'. split; [reflexivity | split; [reflexivity | assumption]].
Qed.

Lemma cpu_frame_refl (s : Cpu) : cpu_frame s s.
Proof.
  split; [apply same_regs_refl | split; [apply keys_stable_refl | reflexivity]].
Qed.

Lemma cpu_frame_trans (s1 s2 s3 : Cpu) :
  cpu_frame s1 s2 -> cpu_frame s2 s3 -> cpu_frame s1 s3.
Proof.
  intros (Hr1 & Hk1 & Hm1) (Hr2 & Hk2 & Hm2).
  split; [exact (same_regs_trans _ _ _ Hr1 Hr2) | ].
  split; [exact (keys_stable_trans _ _ _ Hk1 Hk2) | congruence].
Qed.

Lemma same_memory_rom (mm mm' : Mmu) : same_memory mm mm' -> rom mm' = rom mm.
Proof. intros [lk ->]. reflexivity. Qed.

Lemma same_memory_ie (mm mm' : Mmu) : same_memory mm mm' -> ie mm' = ie mm.
Proof. intros [lk ->]. reflexivity. Qed.

Lemma lockAddr_frame (ad : Z) (s s' : Cpu) :
  contested_addr ad -> lockAddr ad s = Ok s' -> cpu_frame s s'.
Proof.
  intros Had Hl.
  destruct (lockAddr_inv ad s s' Had Hl)
    as (Hr & Hk & mm & mm' & Hm & Hm' & Hmem).
  split; [exact Hr | split; [exact Hk | ]].
  rewrite Hm, Hm'. cbn. f_equal. now apply same_memory_rom.
Qed.

Lemma unlockAddr_frame (ad : Z) (s s' : Cpu) :
  contested_addr ad -> unlockAddr ad s = Ok s' -> cpu_frame s s'.
Proof.
  intros Had Hl.
  destruct (unlockAddr_inv ad s s' Had Hl)
    as (Hr & Hk & mm & mm' & Hm & Hm' & Hmem).
  split; [exact Hr | split; [exact Hk | ]].
  rewrite Hm, Hm'. cbn. f_equal. now apply same_memory_rom.
Qed.

Lemma select_IE (ad st : Z) (rw : string) :
  selectAddressBlock ad rw = Ok (abIE, st) -> ad = AddrIE.
Proof.
  unfold selectAddressBlock. destruct (getAddressInfo ad) as [u ok].
  split_ifs; intros Hsel; try discriminate;
    try (injection Hsel as Hblk _; vm_compute in Hblk; discriminate Hblk).
  symmetry. now apply Z.eqb_eq.
Qed.

Lemma WriteByteAt_frame (mm : Mmu) (ad v ak : Z) (mm' : Mmu) :
  WriteByteAt mm ad v ak = Ok mm' ->
  rom mm' = rom mm /\ locks mm' = locks mm /\
  (ad <> AddrIE -> ie mm' = ie mm).
Proof.
  unfold WriteByteAt. intros Hw.
  destruct (selectAddressBlock ad "write") as [[blk st] | | ] eqn:Hsel;
    try discriminate.
  cbn [bind] in Hw. destruct (getAddressInfo ad) as [u ok].
  unfold keyCheck in Hw.
  split_ifs_in Hw;
    try discriminate;
    try (inv_bind Hw);
    try (destruct (kp _); [ | discriminate]);
    injection Hw as <-; cbn; repeat split; try reflexivity.
  intros Hne. exfalso. apply Hne.
  match goal with
  | H : (blk =? abIE) = true |- _ => apply Z.eqb_eq in H; subst blk
  end.
  exact (select_IE _ _ _ Hsel).
Qed.

Lemma ReadIoByte_frame (mm : Mmu) (ad ak v : Z) (q : bool) (mm' : Mmu) :
  ReadIoByte mm ad ak = Ok (v, q, mm') ->
  rom mm' = rom mm /\ locks mm' = locks mm /\ ie mm' = ie mm.
Proof.
  unfold ReadIoByte, mmio_readIoByte. intros Hr.
  destruct (selectAddressBlock ad "write") as [[blk st] | | ];
    try discriminate.
  cbn [bind] in Hr.
  split_ifs_in Hr; try discriminate; cbn [bind] in Hr;
    injection Hr as <- <- <-; repeat split; reflexivity.
Qed.

Lemma mmu_write_inv (ad v : Z) (s s' : Cpu) :
  mmu_write ad v s = Ok s' ->
  same_regs s s' /\ mmuKeys s' = mmuKeys s /\
  exists mm mm', mmu s = Some mm /\ mmu s' = Some mm' /\
                 WriteByteAt mm ad v (mmuKeys s) = Ok mm'.
Proof.
  unfold mmu_write, the_mmu. intros Hw.
  destruct (mmu s) as [mm | ] eqn:Hmm; [ | discriminate].
  cbn [bind] in Hw. inv_bind Hw. injection Hw as <-.
  split; [unfold same_regs; cbn; repeat split; reflexivity | ].
  split; [reflexivity | ].
  exists mm, x. split; [reflexivity | split; [reflexivity | exact Hx]].
Qed.

Lemma mmu_write_frame (ad v : Z) (s s' : Cpu) :
  mmu_write ad v s = Ok s' -> write_frame ad s s'.
Proof.
  intros Hw.
  destruct (mmu_write_inv ad v s s' Hw)
    as (Hr & Hk & mm & mm' & Hm & Hm' & Hwr).
  destruct (WriteByteAt_frame _ _ _ _ _ Hwr) as (Hrom & _ & Hie).
  split.
  - split; [exact Hr | split].
    + rewrite Hk. apply keys_stable_refl.
    + rewrite Hm, Hm'. cbn. now f_equal.
  - exists mm, mm'. split; [exact Hm | split; [exact Hm' | exact Hie]].
Qed.

Lemma write_frame_locked (ad lk : Z) (s s1 s2 s' : Cpu) :
  contested_addr lk ->
  lockAddr lk s = Ok s1 -> write_frame ad s1 s2 -> unlockAddr lk s2 = Ok s' ->
  write_frame ad s s'.
Proof.
  intros Hlk Hl (Hf & m1 & m2 & Hm1 & Hm2 & Hie) Hu.
  destruct (lockAddr_inv lk s s1 Hlk Hl)
    as (_ & _ & mm & m1' & Hmm & Hm1' & Hmem1).
  destruct (unlockAddr_inv lk s2 s' Hlk Hu)
    as (_ & _ & m2' & mm' & Hm2' & Hmm' & Hmem2).
  split.
  - eapply cpu_frame_trans; [exact (lockAddr_frame lk s s1 Hlk Hl) | ].
    eapply cpu_frame_trans; [exact Hf | ].
    exact (unlockAddr_frame lk s2 s' Hlk Hu).
  - exists mm, mm'. split; [exact Hmm | split; [exact Hmm' | ]].
    intros Hne. rewrite Hm1 in Hm1'. injection Hm1' as <-.
    rewrite Hm2 in Hm2'. injection Hm2' as <-.
    rewrite (same_memory_ie _ _ Hmem2), (Hie Hne).
    exact (same_memory_ie _ _ Hmem1).
Qed.

Lemma writeByte_frame (ad v : Z) (s s' : Cpu) :
  writeByte ad v s = Ok s' -> write_frame ad s s'.
Proof.
  unfold writeByte. intros Hw.
  destruct ((AddrVRam <=? ad) && (ad <=? AddrRam)).
  - inv_bind Hw. inv_bind Hw.
    eapply (write_frame_locked ad AddrVRam);
      [left; reflexivity | eassumption | | eassumption].
    eapply mmu_write_frame; eassumption.
  - destruct ((AddrOam <=? ad) && (ad <=? AddrOamEnd)).
    + inv_bind Hw. inv_bind Hw.
      eapply (write_frame_locked ad AddrOam);
        [right; left; reflexivity | eassumption | | eassumption].
      eapply mmu_write_frame; eassumption.
    + eapply mmu_write_frame; eassumption.
Qed.

Lemma readByte_frame (ad v : Z) (s s' : Cpu) :
  readByte ad s = Ok (v, s') -> cpu_frame s s'.
Proof.
  unfold readByte. intros Hr.
  destruct (negb (biosFinished s) && (ad <=? 0xFF)).
  - inv_bind Hr. injection Hr as _ <-. apply cpu_frame_refl.
  - destruct ((AddrVRam <=? ad) && (ad <=? AddrRam)).
    + inv_bind Hr. inv_bind Hr. inv_bind Hr. inv_bind Hr.
      injection Hr as _ <-.
      eapply cpu_frame_trans;
        [eapply (lockAddr_frame AddrVRam); [left; reflexivity | eassumption]
        | eapply (unlockAddr_frame AddrVRam);
          [left; reflexivity | eassumption]].
    + destruct ((AddrOam <=? ad) && (ad <=? AddrOamEnd)).
      * inv_bind Hr. inv_bind Hr. inv_bind Hr. inv_bind Hr.
        injection Hr as _ <-.
        eapply cpu_frame_trans;
          [eapply (lockAddr_frame AddrOam);
           [right; left; reflexivity | eassumption]
          | eapply (unlockAddr_frame AddrOam);
            [right; left; reflexivity | eassumption]].
      * inv_bind Hr. inv_bind Hr. injection Hr as _ <-.
        apply cpu_frame_refl.
Qed.

(** *** Interrupt dispatch *)

Lemma readByte_IE (s : Cpu) (mm : Mmu) :
  mmu s = Some mm -> holds (mmuKeys s) abIE = true ->
  readByte AddrIE s = Ok (ie mm, s).
Proof.
  intros Hmm Hh. unfold readByte, the_mmu.
  change (AddrIE <=? 0xFF) with false. rewrite andb_false_r.
  change ((AddrVRam <=? AddrIE) && (AddrIE <=? AddrRam)) with false.
  change ((AddrOam <=? AddrIE) && (AddrIE <=? AddrOamEnd)) with false.
  cbv iota. rewrite Hmm. cbn [bind]. unfold ReadByteAt.
  change (selectAddressBlock AddrIE "read") with (Ok (abIE, AddrIE)).
  cbn [bind]. rewrite Hh. reflexivity.
Qed.

Lemma readByte_IF (s : Cpu) (mm : Mmu) :
  mmu s = Some mm -> holds (mmuKeys s) abIF = true ->
  readByte AddrIF s = Ok (value (ioIF mm), s).
Proof.
  intros Hmm Hh. unfold readByte, the_mmu.
  change (AddrIF <=? 0xFF) with false. rewrite andb_false_r.
  change ((AddrVRam <=? AddrIF) && (AddrIF <=? AddrRam)) with false.
  change ((AddrOam <=? AddrIF) && (AddrIF <=? AddrOamEnd)) with false.
  cbv iota. rewrite Hmm. cbn [bind]. unfold ReadByteAt.
  change (selectAddressBlock AddrIF "read") with (Ok (abIF, AddrIF)).
  cbn [bind]. rewrite Hh. reflexivity.
Qed.

Lemma writeByte_IF (s : Cpu) (mm : Mmu) (v : Z) :
  mmu s = Some mm -> holds (mmuKeys s) abIF = true ->
  writeByte AddrIF v s
  = Ok (with_mmu (with_ioIF (mmio_writeByte (ioIF mm) v true) mm)
                 (mmuKeys s) s).
Proof.
  intros Hmm Hh. unfold writeByte, mmu_write, the_mmu.
  change ((AddrVRam <=? AddrIF) && (AddrIF <=? AddrRam)) with false.
  change ((AddrOam <=? AddrIF) && (AddrIF <=? AddrOamEnd)) with false.
  cbv iota. rewrite Hmm. cbn [bind]. unfold WriteByteAt.
  change (selectAddressBlock AddrIF "write") with (Ok (abIF, AddrIF)).
  cbn [bind]. rewrite Hh. reflexivity.
Qed.

(** The test [Byte(i)&ie&iflag != 0] of [getInterrupt], bit by bit. *)
Lemma pending_bit (k ie iflag : Z) :
  0 <= k ->
  negb (Z.land (Z.land (2 ^ k) ie) iflag =? 0)
  = Z.testbit ie k && Z.testbit iflag k.
Proof.
  intros Hk.
  rewrite <- Z.land_assoc, Z.land_comm, land_pow2, Z.land_spec by exact Hk.
  destruct (Z.testbit ie k && Z.testbit iflag k).
  - apply negb_true_iff, Z.eqb_neq. now apply pow2_nonzero.
  - reflexivity.
Qed.

(** [getInterrupt] returns the lowest pending interrupt bit, or 0. *)
Lemma getInterrupt_lowest (ie iflag : Z) :
  getInterrupt ie iflag
  = match lowest_pending ie iflag with Some k => 2 ^ k | None => 0 end.
Proof.
  unfold getInterrupt, lowest_pending.
  change InterruptVblank with (2 ^ 0). change InterruptLCDC with (2 ^ 1).
  change InterruptTimer with (2 ^ 2). change InterruptSerial with (2 ^ 3).
  change InterruptKeypad with (2 ^ 4).
  rewrite !pending_bit by lia. cbn [find].
  destruct (Z.testbit ie 0 && Z.testbit iflag 0); [reflexivity | ].
  destruct (Z.testbit ie 1 && Z.testbit iflag 1); [reflexivity | ].
  destruct (Z.testbit ie 2 && Z.testbit iflag 2); [reflexivity | ].
  destruct (Z.testbit ie 3 && Z.testbit iflag 3); [reflexivity | ].
  destruct (Z.testbit ie 4 && Z.testbit iflag 4); reflexivity.
Qed.

(** What [lowest_pending] finds is a common bit below which there is none. *)
Lemma lowest_pending_spec (ie iflag k : Z) :
  lowest_pending ie iflag = Some k ->
  0 <= k <= 4 /\ Z.testbit ie k = true /\ Z.testbit iflag k = true /\
  forall j, 0 <= j < k -> Z.testbit ie j && Z.testbit iflag j = false.
Proof.
  unfold lowest_pending. cbn [find].
  destruct (Z.testbit ie 0 && Z.testbit iflag 0) eqn:H0;
    [ | destruct (Z.testbit ie 1 && Z.testbit iflag 1) eqn:H1;
        [ | destruct (Z.testbit ie 2 && Z.testbit iflag 2) eqn:H2;
            [ | destruct (Z.testbit ie 3 && Z.testbit iflag 3) eqn:H3;
                [ | destruct (Z.testbit ie 4 && Z.testbit iflag 4) eqn:H4;
                    [ | discriminate ] ] ] ] ];
    intros Hk; injection Hk as <-;
    match goal with
    | H : _ && _ = true |- _ => apply andb_true_iff in H as [Hie Hif]
    end;
    (split; [lia | split; [exact Hie | split; [exact Hif | ]]]);
    intros j Hj;
    repeat match goal with
           | H : Z.testbit ie ?n && _ = false |- _ =>
               destruct (Z.eq_dec j n) as [-> | ?]; [exact H | clear H]
           end;
    lia.
Qed.

Lemma lowest_pending_none (ie iflag : Z) :
  lowest_pending ie iflag = None <->
  forall j, 0 <= j <= 4 -> Z.testbit ie j && Z.testbit iflag j = false.
Proof.
  unfold lowest_pending. cbn [find]. split.
  - intros Hnone j Hj.
    destruct (Z.testbit ie 0 && Z.testbit iflag 0) eqn:H0; [discriminate | ].
    destruct (Z.testbit ie 1 && Z.testbit iflag 1) eqn:H1; [discriminate | ].
    destruct (Z.testbit ie 2 && Z.testbit iflag 2) eqn:H2; [discriminate | ].
    destruct (Z.testbit ie 3 && Z.testbit iflag 3) eqn:H3; [discriminate | ].
    destruct (Z.testbit ie 4 && Z.testbit iflag 4) eqn:H4; [discriminate | ].
    assert (Hcases : j = 0 \/ j = 1 \/ j = 2 \/ j = 3 \/ j = 4) by lia.
    destruct Hcases as [-> | [-> | [-> | [-> | ->]]]]; assumption.
  - intros Hall.
    rewrite (Hall 0), (Hall 1), (Hall 2), (Hall 3), (Hall 4) by lia.
    reflexivity.
Qed.

Lemma Address_vector (k : Z) : 0 <= k <= 4 -> Address (2 ^ k) = vector k.
Proof.
  intros Hk.
  assert (Hcases : k = 0 \/ k = 1 \/ k = 2 \/ k = 3 \/ k = 4) by lia.
  destruct Hcases as [-> | [-> | [-> | [-> | ->]]]]; reflexivity.
Qed.

(** [iflag & (i ^ 0xFF)]: that bit cleared, the others as they were. *)
Lemma clear_bit_byte (x k i : Z) :
  0 <= x < 256 -> 0 <= k < 8 -> 0 <= i ->
  Z.testbit (Z.land x (Z.lxor (2 ^ k) 0xFF)) i
  = Z.testbit x i && negb (i =? k).
Proof.
  intros Hx Hk Hi.
  rewrite Z.land_spec, Z.lxor_spec, Z.pow2_bits_eqb by lia.
  rewrite (Z.eqb_sym k i). change 0xFF with (Z.ones 8).
  destruct (Z.ltb_spec i 8) as [Hlt | Hge].
  - rewrite Z.ones_spec_low by lia. now rewrite xorb_true_r.
  - rewrite <- (Z.mod_small x (2 ^ 8)) by (cbn; lia).
    rewrite Z.mod_pow2_bits_high by lia. reflexivity.
Qed.

Lemma writeWord_frame (ad w : Z) (s s' : Cpu) :
  writeWord ad w s = Ok s' ->
  cpu_frame s s' /\
  exists mm mm', mmu s = Some mm /\ mmu s' = Some mm' /\
                 (ad <> AddrIE -> Int.u16 (ad + 1) <> AddrIE ->
                  ie mm' = ie mm).
Proof.
  unfold writeWord. intros Hw. inv_bind Hw.
  destruct (writeByte_frame _ _ _ _ Hx) as (Hf1 & m0 & m1 & Hm0 & Hm1 & Hie1).
  destruct (writeByte_frame _ _ _ _ Hw) as (Hf2 & m1' & m2 & Hm1' & Hm2 & Hie2).
  rewrite Hm1 in Hm1'. injection Hm1' as <-.
  split; [exact (cpu_frame_trans _ _ _ Hf1 Hf2) | ].
  exists m0, m2. split; [exact Hm0 | split; [exact Hm2 | ]].
  intros Hlo Hhi. rewrite (Hie2 Hhi). exact (Hie1 Hlo).
Qed.

(** The push: [sp] drops by two, the other registers, the uncontested keys
    and ROM stay, and IE stays unless one of the two bytes lands on it. *)
Lemma push_frame (w : Z) (s s' : Cpu) :
  push w s = Ok s' ->
  same_regs (with_sp (Int.u16 (sp s - 2)) s) s' /\
  keys_stable (mmuKeys s) (mmuKeys s') /\
  exists mm mm', mmu s = Some mm /\ mmu s' = Some mm' /\
                 rom mm' = rom mm /\
                 (2 <= sp s < 65536 -> ie mm' = ie mm).
Proof.
  unfold push. intros Hp. inv_bind Hp. injection Hp as <-.
  destruct (writeWord_frame _ _ _ _ Hx)
    as ((Hr & Hk & Hrom) & mm & mm' & Hm & Hm' & Hie).
  unfold same_regs in Hr.
  repeat match goal with
         | H : _ /\ _ |- _ => destruct H
         end.
  split.
  - unfold same_regs. cbn. repeat split; try assumption. congruence.
  - split; [exact Hk | ].
    exists mm, mm'. split; [exact Hm | split; [exact Hm' | split]].
    + rewrite Hm, Hm' in Hrom. cbn in Hrom. congruence.
    + intros Hsp. apply Hie.
      * rewrite IntFacts.u16_small by lia. unfold AddrIE. lia.
      * rewrite (IntFacts.u16_small (sp s - 2)) by lia.
        rewrite IntFacts.u16_small by lia. unfold AddrIE. lia.
Qed.

(** The state the dispatch returns, given the state [s1] in which the push
    of the PC returns: PC at the vector, and IF written back by its owner
    without the bit dispatched. *)
Lemma interrupt_after_push (s s1 : Cpu) (mm mm1 : Mmu) (k : Z) :
  ime s = 1 ->
  mmu s = Some mm ->
  holds (mmuKeys s) abIE = true ->
  holds (mmuKeys s) abIF = true ->
  lowest_pending (ie mm) (value (ioIF mm)) = Some k ->
  push (pc s) (with_ime 0 s) = Ok s1 ->
  mmu s1 = Some mm1 ->
  interrupt s
  = Ok (with_mmu
          (with_ioIF
             (mmio_writeByte (ioIF mm1)
                (Z.land (value (ioIF mm)) (Z.lxor (2 ^ k) 0xFF)) true)
             mm1)
          (mmuKeys s1) (jp (Address (2 ^ k)) s1)).
Proof.
  intros Hime Hmm Hie Hif Hlow Hpush Hm1.
  destruct (lowest_pending_spec _ _ _ Hlow) as (Hk & _).
  destruct (push_frame _ _ _ Hpush) as (_ & Hkeys & _).
  cbn [mmuKeys with_ime] in Hkeys.
  assert (Hif1 : holds (mmuKeys s1) abIF = true).
  { change abIF with (2 ^ 7).
    rewrite (keys_stable_holds _ _ 7 Hkeys) by (lia || reflexivity).
    exact Hif. }
  unfold interrupt. rewrite Hime. change (1 =? 1) with true. cbv iota.
  rewrite (readByte_IE s mm Hmm Hie). cbn [bind].
  rewrite (readByte_IF s mm Hmm Hif). cbn [bind].
  rewrite getInterrupt_lowest, Hlow.
  assert (Hpos : (2 ^ k >? 0) = true).
  { apply Z.gtb_lt. apply Z.pow_pos_nonneg; lia. }
  rewrite Hpos, Hpush. cbn [bind]. unfold resetInterrupt.
  now rewrite (writeByte_IF (jp (Address (2 ^ k)) s1) mm1) by assumption.
Qed.

(** C1, as the code has it. With [IME = 1], the CPU owning IE and IF, and
    [k] the lowest of the five interrupt bits set in both IE and IF, the
    interrupt phase (its push of the PC succeeding) clears IME, pushes the
    pre-dispatch PC, sets PC to the vector of [k] and clears exactly bit
    [k] of IF; the other registers and ROM stay, and IE stays whenever the
    stack pointer is at least 2, so that neither pushed byte lands on
    0xFFFF. *)
Theorem interrupt_dispatch (s s1 : Cpu) (mm : Mmu) (k : Z) :
  ime s = 1 ->
  mmu s = Some mm ->
  holds (mmuKeys s) abIE = true ->
  holds (mmuKeys s) abIF = true ->
  0 <= value (ioIF mm) < 256 ->
  lowest_pending (ie mm) (value (ioIF mm)) = Some k ->
  push (pc s) (with_ime 0 s) = Ok s1 ->
  exists s' mm1 mm',
    interrupt s = Ok s' /\ mmu s1 = Some mm1 /\ mmu s' = Some mm' /\
    ime s' = 0 /\ pc s' = vector k /\ sp s' = Int.u16 (sp s - 2) /\
    same_regs
      (with_pc (vector k) (with_sp (Int.u16 (sp s - 2)) (with_ime 0 s))) s' /\
    mm' = with_ioIF (mmio_writeByte (ioIF mm1)
                       (Z.land (value (ioIF mm)) (Z.lxor (2 ^ k) 0xFF)) true)
                    mm1 /\
    value (ioIF mm') = Z.land (value (ioIF mm)) (Z.lxor (2 ^ k) 0xFF) /\
    (forall i, 0 <= i ->
       Z.testbit (value (ioIF mm')) i
       = Z.testbit (value (ioIF mm)) i && negb (i =? k)) /\
    rom mm' = rom mm /\
    ie mm' = ie mm1 /\
    (2 <= sp s < 65536 -> ie mm' = ie mm).
Proof.
  intros Hime Hmm Hie Hif Hbyte Hlow Hpush.
  destruct (lowest_pending_spec _ _ _ Hlow) as (Hk & _).
  destruct (push_frame _ _ _ Hpush)
    as (Hregs & _ & m0 & mm1 & Hm0 & Hm1 & Hrom & Hie1).
  cbn [mmu with_ime] in Hm0. rewrite Hmm in Hm0. injection Hm0 as <-.
  cbn [with_ime sp] in Hie1.
  eexists. exists mm1. eexists.
  split; [exact (interrupt_after_push s s1 mm mm1 k
                   Hime Hmm Hie Hif Hlow Hpush Hm1) | ].
  unfold same_regs in Hregs. cbn in Hregs.
  repeat match goal with
         | H : _ /\ _ |- _ => destruct H
         end.
  split; [exact Hm1 | ].
  split; [reflexivity | ].
  split; [cbn; congruence | ].
  split; [cbn; rewrite Address_vector by lia;
          apply IntFacts.u16_small; unfold vector; lia | ].
  split; [cbn; congruence | ].
  split.
  { unfold same_regs. cbn. rewrite Address_vector by lia.
    rewrite (IntFacts.u16_small (vector k)) by (unfold vector; lia).
    repeat split; congruence. }
  split; [reflexivity | ].
  split; [reflexivity | ].
  split; [intros i Hi; cbn; apply clear_bit_byte; lia | ].
  split; [exact Hrom | ].
  split; [reflexivity | ].
  exact Hie1.
Qed.

(** With the master enable off, or with none of the five interrupt bits
    set in both IE and IF, the interrupt phase changes nothing. *)
Lemma interrupt_idle (s : Cpu) (mm : Mmu) :
  mmu s = Some mm ->
  holds (mmuKeys s) abIE = true -> holds (mmuKeys s) abIF = true ->
  ime s <> 1 \/ lowest_pending (ie mm) (value (ioIF mm)) = None ->
  interrupt s = Ok s.
Proof.
  intros Hmm Hie Hif Hidle. unfold interrupt.
  destruct (Z.eqb_spec (ime s) 1) as [Hime | Hime]; [ | reflexivity].
  destruct Hidle as [Hoff | Hnone]; [contradiction | ].
  rewrite (readByte_IE s mm Hmm Hie). cbn [bind].
  rewrite (readByte_IF s mm Hmm Hif). cbn [bind].
  rewrite getInterrupt_lowest, Hnone. reflexivity.
Qed.

(** Scenario 6 on the code, with the stack in high RAM: IME = 1,
    IE = IF = 0x05, PC = 0x0150, SP = 0xFFFE. *)
Lemma interrupt_scenario :
  io Scenario.byte_read (Scenario.pending 0xFFFE 0x0150 0x05 0x05)
  = Ok (Scenario.pending 0xFFFE 0x0150 0x05 0x05) /\
  exists s' mm',
    interrupt (Scenario.pending 0xFFFE 0x0150 0x05 0x05) = Ok s' /\
    mmu s' = Some mm' /\
    pc s' = 0x0040 /\ ime s' = 0 /\ value (ioIF mm') = 0x04 /\
    ie mm' = 0x05 /\ sp s' = 0xFFFC /\
    zero mm' !! 0x7C%nat = Some 0x50 /\ zero mm' !! 0x7D%nat = Some 0x01.
Proof.
  split; [vm_compute; reflexivity | ].
  eexists. eexists. split; [vm_compute; reflexivity | ].
  repeat split; reflexivity.
Qed.

Lemma interrupt_dispatch_witness :
  exists s' mm',
    interrupt (Scenario.pending 0xFFFE 0x0150 0x05 0x05) = Ok s' /\
    mmu s' = Some mm' /\
    pc s' = 0x0040 /\ ime s' = 0 /\ value (ioIF mm') = 0x04 /\
    ie mm' = 0x05.
Proof.
  assert (Hp : exists s1,
             push (pc (Scenario.pending 0xFFFE 0x0150 0x05 0x05))
                  (with_ime 0 (Scenario.pending 0xFFFE 0x0150 0x05 0x05))
             = Ok s1) by (eexists; vm_compute; reflexivity).
  destruct Hp as [s1 Hp].
  destruct (interrupt_dispatch (Scenario.pending 0xFFFE 0x0150 0x05 0x05)
              s1 _ 0 eq_refl eq_refl eq_refl eq_refl
              ltac:(cbn; lia) eq_refl Hp)
    as (s' & mm1 & mm' & Hint & _ & Hm' & Hime & Hpc & _ & _ & _ & Hval
        & _ & _ & _ & Hie).
  exists s', mm'. split; [exact Hint | split; [exact Hm' | ]].
  split; [exact Hpc | split; [exact Hime | split; [exact Hval | ]]].
  apply Hie. cbn. lia.
Defined.

(** C1. Two states in which the dispatch does not do what section 8 says
    of it.  First, with the stack pointer at 0x0000, where [NewCpu] leaves
    it, the dispatch from PC = 0x0250 with IE = IF = 0x05 overwrites IE
    with the high byte of the pushed PC.  Second, with only bit 5 set in
    both IE and IF nothing is dispatched. *)
Lemma interrupt_dispatch_exceptions :
  (exists s' mm',
     interrupt (Scenario.pending 0x0000 0x0250 0x05 0x05) = Ok s' /\
     mmu s' = Some mm' /\
     pc s' = 0x0040 /\ ime s' = 0 /\ value (ioIF mm') = 0x04 /\
     ie mm' = 0x02 /\ ie mm' <> 0x05) /\
  Z.land 0x20 0x20 <> 0 /\
  interrupt (Scenario.pending 0xFFFE 0x0150 0x20 0x20)
  = Ok (Scenario.pending 0xFFFE 0x0150 0x20 0x20).
Proof.
  split; [ | split; [discriminate | vm_compute; reflexivity]].
  eexists. eexists. split; [vm_compute; reflexivity | ].
  repeat split; try reflexivity. discriminate.
Qed.

(** *** The stack in high RAM *)

Ltac decide_cmp :=
  repeat match goal with
         | |- context [?x <? ?y] =>
             first [ replace (x <? y) with true
                       by (symmetry; apply Z.ltb_lt; lia)
                   | replace (x <? y) with false
                       by (symmetry; apply Z.ltb_ge; lia) ]
         | |- context [?x <=? ?y] =>
             first [ replace (x <=? y) with true
                       by (symmetry; apply Z.leb_le; lia)
                   | replace (x <=? y) with false
                       by (symmetry; apply Z.leb_gt; lia) ]
         | |- context [?x =? ?y] =>
             first [ replace (x =? y) with true
                       by (symmetry; apply Z.eqb_eq; lia)
                   | replace (x =? y) with false
                       by (symmetry; apply Z.eqb_neq; lia) ]
         end.

Lemma select_zero (ad : Z) (rw : string) :
  0xFF80 <= ad < 0xFFFF -> selectAddressBlock ad rw = Ok (abZero, AddrZero).
Proof.
  intros Had. unfold selectAddressBlock.
  unfold AddrVRam, AddrERam, AddrRam, AddrOam, AddrOamEnd, AddrP1, AddrIF,
    AddrGpuRegs, AddrGpuRegsEnd, AddrZero, AddrIE.
  decide_cmp. reflexivity.
Qed.

Lemma store_Ok (l : list Z) (i v : Z) :
  0 <= i -> (Z.to_nat i < length l)%nat ->
  store l i v = Ok (<[Z.to_nat i := v]> l).
Proof.
  intros Hi Hlen. unfold store.
  destruct (Z.ltb_spec i 0); [lia | ].
  destruct (Nat.ltb_spec (Z.to_nat i) (length l)); [reflexivity | lia].
Qed.

Lemma writeByte_zero (s : Cpu) (mm : Mmu) (ad v : Z) :
  mmu s = Some mm -> holds (mmuKeys s) abZero = true ->
  0xFF80 <= ad < 0xFFFF -> (Z.to_nat (ad - 0xFF80) < length (zero mm))%nat ->
  writeByte ad v s
  = Ok (with_mmu (with_zero (<[Z.to_nat (ad - 0xFF80) := v]> (zero mm)) mm)
                 (mmuKeys s) s).
Proof.
  intros Hmm Hh Had Hlen. unfold writeByte.
  unfold AddrVRam, AddrRam, AddrOam, AddrOamEnd.
  decide_cmp. cbn [andb]. cbv iota.
  unfold mmu_write, the_mmu. rewrite Hmm. cbn [bind].
  unfold WriteByteAt. rewrite (select_zero ad "write" Had). cbn [bind].
  rewrite Hh.
  change (abZero =? abRom) with false. change (abZero =? abVRam) with false.
  change (abZero =? abRam) with false. change (abZero =? abOam) with false.
  change (abZero =? abP1) with false. change (abZero =? abIF) with false.
  change (abZero =? abGpuRegs) with false.
  change (abZero =? abZero) with true. cbv iota.
  unfold AddrZero. rewrite (IntFacts.u16_small (ad - 0xFF80)) by lia.
  rewrite store_Ok by (lia || exact Hlen). reflexivity.
Qed.

(** With the stack in high RAM and the CPU holding its key, the push
    returns and leaves the low byte at [sp-2] and the high byte at
    [sp-1]. *)
Lemma push_high_ram (s : Cpu) (mm : Mmu) (w : Z) :
  mmu s = Some mm -> holds (mmuKeys s) abZero = true ->
  0xFF82 <= sp s <= 0xFFFF -> length (zero mm) = 256%nat ->
  exists s1 mm1,
    push w s = Ok s1 /\ mmu s1 = Some mm1 /\ sp s1 = sp s - 2 /\
    zero mm1 !! Z.to_nat (sp s - 2 - 0xFF80) = Some (Low w) /\
    zero mm1 !! Z.to_nat (sp s - 1 - 0xFF80) = Some (High w).
Proof.
  intros Hmm Hh Hsp Hlen. unfold push, writeWord.
  rewrite (IntFacts.u16_small (sp s - 2)) by lia.
  rewrite (writeByte_zero s mm (sp s - 2) (Low w) Hmm Hh) by lia.
  cbn [bind].
  rewrite (IntFacts.u16_small (sp s - 2 + 1)) by lia.
  erewrite writeByte_zero;
    [ | reflexivity | exact Hh | lia
      | cbn [zero with_zero]; rewrite length_insert; lia ].
  cbn [bind]. eexists. eexists.
  split; [reflexivity | ]. split; [reflexivity | ].
  cbn [sp with_sp with_mmu zero with_zero].
  split; [apply IntFacts.u16_small; lia | ].
  split.
  - rewrite list_lookup_insert_ne by lia.
    apply list_lookup_insert_eq. lia.
  - replace (sp s - 2 + 1 - 0xFF80) with (sp s - 1 - 0xFF80) by lia.
    apply list_lookup_insert_eq. rewrite length_insert. lia.
Qed.

(** With the stack in high RAM nothing is left to assume about the push:
    the dispatch returns, IE is untouched and the pre-dispatch PC lies at
    [sp-2] (low byte) and [sp-1] (high byte). *)
Lemma interrupt_dispatch_high_ram (s : Cpu) (mm : Mmu) (k : Z) :
  ime s = 1 ->
  mmu s = Some mm ->
  holds (mmuKeys s) abIE = true ->
  holds (mmuKeys s) abIF = true ->
  holds (mmuKeys s) abZero = true ->
  0 <= value (ioIF mm) < 256 ->
  lowest_pending (ie mm) (value (ioIF mm)) = Some k ->
  0xFF82 <= sp s <= 0xFFFF -> length (zero mm) = 256%nat ->
  exists s' mm',
    interrupt s = Ok s' /\ mmu s' = Some mm' /\
    ime s' = 0 /\ pc s' = vector k /\ sp s' = sp s - 2 /\
    value (ioIF mm') = Z.land (value (ioIF mm)) (Z.lxor (2 ^ k) 0xFF) /\
    ie mm' = ie mm /\
    zero mm' !! Z.to_nat (sp s - 2 - 0xFF80) = Some (Low (pc s)) /\
    zero mm' !! Z.to_nat (sp s - 1 - 0xFF80) = Some (High (pc s)).
Proof.
  intros Hime Hmm Hie Hif Hzero Hbyte Hlow Hsp Hlen.
  destruct (lowest_pending_spec _ _ _ Hlow) as (Hk & _).
  destruct (push_high_ram (with_ime 0 s) mm (pc s) Hmm Hzero Hsp Hlen)
    as (s1 & mm1 & Hpush & Hm1 & Hsp1 & Hlo & Hhi).
  destruct (push_frame _ _ _ Hpush)
    as (Hregs & _ & m0 & mm1' & Hm0 & Hm1' & _ & Hie1).
  cbn [mmu with_ime] in Hm0. rewrite Hmm in Hm0. injection Hm0 as <-.
  rewrite Hm1 in Hm1'. injection Hm1' as <-.
  cbn [with_ime sp] in Hie1, Hsp1.
  unfold same_regs in Hregs. cbn in Hregs.
  repeat match goal with
         | H : _ /\ _ |- _ => destruct H
         end.
  eexists. eexists.
  split; [exact (interrupt_after_push s s1 mm mm1 k
                   Hime Hmm Hie Hif Hlow Hpush Hm1) | ].
  split; [reflexivity | ].
  split; [cbn; congruence | ].
  split; [cbn; rewrite Address_vector by lia;
          apply IntFacts.u16_small; unfold vector; lia | ].
  split; [cbn; exact Hsp1 | ].
  split; [reflexivity | ].
  split; [cbn; apply Hie1; lia | ].
  split; [exact Hlo | exact Hhi].
Qed.

(** *** The boot-ROM overlay *)

Lemma boot_frame_refl (s : Cpu) : boot_frame s s.
Proof. unfold boot_frame. repeat split; reflexivity. Qed.

(** Setting a register keeps the boot-ROM state. *)
Ltac boot_same := unfold boot_frame; cbn; repeat split; reflexivity.

Lemma boot_frame_trans (s1 s2 s3 : Cpu) :
  boot_frame s1 s2 -> boot_frame s2 s3 -> boot_frame s1 s3.
Proof.
  unfold boot_frame. intros (H1 & H2 & H3 & H4) (H5 & H6 & H7 & H8).
  repeat split; congruence.
Qed.

Lemma cpu_frame_boot (s s' : Cpu) : cpu_frame s s' -> boot_frame s s'.
Proof.
  intros (Hr & Hk & Hrom). unfold same_regs in Hr.
  repeat match goal with
         | H : _ /\ _ |- _ => destruct H
         end.
  unfold boot_frame. repeat split; try assumption.
  change abRom with (2 ^ 1).
  apply keys_stable_holds; [exact Hk | lia | reflexivity].
Qed.

Lemma same_regs_boot (s s' : Cpu) :
  same_regs s s' -> mmu s' = mmu s -> mmuKeys s' = mmuKeys s ->
  boot_frame s s'.
Proof.
  intros Hr Hm Hk. unfold same_regs in Hr.
  repeat match goal with
         | H : _ /\ _ |- _ => destruct H
         end.
  unfold boot_frame. rewrite Hm, Hk. repeat split; assumption.
Qed.

Lemma readByte_boot (ad v : Z) (s s' : Cpu) :
  readByte ad s = Ok (v, s') -> boot_frame s s'.
Proof. intros Hr. apply cpu_frame_boot. exact (readByte_frame _ _ _ _ Hr). Qed.

Lemma writeByte_boot (ad v : Z) (s s' : Cpu) :
  writeByte ad v s = Ok s' -> boot_frame s s'.
Proof.
  intros Hw. apply cpu_frame_boot.
  exact (proj1 (writeByte_frame _ _ _ _ Hw)).
Qed.

Lemma push_boot (w : Z) (s s' : Cpu) : push w s = Ok s' -> boot_frame s s'.
Proof.
  intros Hp.
  destruct (push_frame _ _ _ Hp) as (Hr & Hk & mm & mm' & Hm & Hm' & Hrom & _).
  unfold same_regs in Hr. cbn in Hr.
  repeat match goal with
         | H : _ /\ _ |- _ => destruct H
         end.
  unfold boot_frame. rewrite Hm, Hm'. cbn.
  repeat split; try assumption; try congruence.
  change abRom with (2 ^ 1).
  apply keys_stable_holds; [exact Hk | lia | reflexivity].
Qed.

Lemma io_boot (rd : Z -> bool -> Z) (s s' : Cpu) :
  io rd s = Ok s' -> boot_frame s s'.
Proof.
  unfold io, the_mmu. intros Hio.
  destruct (mmu s) as [mm | ] eqn:Hmm; [ | discriminate].
  cbn [bind] in Hio. inv_bind Hio. destruct x as [[iflag q] mm'].
  destruct (ReadIoByte_frame _ _ _ _ _ _ Hx) as (Hrom & _).
  assert (Hb0 : boot_frame s (with_mmu mm' (mmuKeys s) s)).
  { unfold boot_frame. rewrite Hmm. cbn. repeat split. now f_equal. }
  inv_bind Hio. destruct x as [iflag' s1].
  apply (boot_frame_trans _ _ _ Hb0).
  destruct (ime (with_mmu mm' (mmuKeys s) s) =? 0).
  - injection Hx0 as _ <-. exact (writeByte_boot _ _ _ _ Hio).
  - inv_bind Hx0. destruct x as [iev s2]. injection Hx0 as _ <-.
    exact (boot_frame_trans _ _ _ (readByte_boot _ _ _ _ Hx1)
             (writeByte_boot _ _ _ _ Hio)).
Qed.

Lemma interrupt_boot (s s' : Cpu) : interrupt s = Ok s' -> boot_frame s s'.
Proof.
  unfold interrupt. intros Hi.
  destruct (ime s =? 1); [ | injection Hi as <-; apply boot_frame_refl].
  inv_bind Hi. destruct x as [iev s1].
  inv_bind Hi. destruct x as [iflag s2].
  pose proof (boot_frame_trans _ _ _ (readByte_boot _ _ _ _ Hx)
                (readByte_boot _ _ _ _ Hx0)) as Hb.
  destruct (getInterrupt iev iflag >? 0);
    [ | injection Hi as <-; exact Hb].
  inv_bind Hi. unfold resetInterrupt in Hi.
  apply (boot_frame_trans _ _ _ Hb).
  assert (Hb1 : boot_frame s2 (with_ime 0 s2)) by boot_same.
  apply (boot_frame_trans _ _ _ Hb1).
  apply (boot_frame_trans _ _ _ (push_boot _ _ _ Hx1)).
  assert (Hb2 : boot_frame x (jp (Address (getInterrupt iev iflag)) x))
    by boot_same.
  apply (boot_frame_trans _ _ _ Hb2).
  exact (writeByte_boot _ _ _ _ Hi).
Qed.

Section TableFacts.

Variable tbl : Z -> option command.
Variable rd : Z -> bool -> Z.

Lemma fetch_operands_boot (n : nat) :
  forall (ps : list Z) (s : Cpu) (ps' : list Z) (s' : Cpu),
    fetch_operands n ps s = Ok (ps', s') -> boot_frame s s'.
Proof.
  induction n as [ | n IH]; intros ps s ps' s' Hf; cbn [fetch_operands] in Hf.
  - injection Hf as _ <-. apply boot_frame_refl.
  - inv_bind Hf. destruct x as [v s1].
    apply (boot_frame_trans _ _ _ (readByte_boot _ _ _ _ Hx)).
    assert (Hb : boot_frame s1 (with_pc (Int.u16 (pc s1 + 1)) s1))
      by boot_same.
    apply (boot_frame_trans _ _ _ Hb).
    exact (IH _ _ _ _ Hf).
Qed.

Lemma fetch_boot (s s' : Cpu) : fetch tbl s = Ok s' -> boot_frame s s'.
Proof.
  unfold fetch. intros Hf.
  inv_bind Hf. destruct x as [op s1].
  apply (boot_frame_trans _ _ _ (readByte_boot _ _ _ _ Hx)).
  inv_bind Hf. destruct x as [op' s2].
  inv_bind Hf. destruct x as [ps s3]. injection Hf as <-.
  assert (Hb12 : boot_frame s1 s2).
  { destruct (op =? 0xCB).
    - inv_bind Hx0. destruct x as [op2 s4]. injection Hx0 as _ <-.
      apply (boot_frame_trans _ (with_pc (Int.u16 (pc s1 + 1)) s1));
        [boot_same | ].
      apply (boot_frame_trans _ _ _ (readByte_boot _ _ _ _ Hx2)).
      boot_same.
    - injection Hx0 as _ <-. boot_same. }
  apply (boot_frame_trans _ _ _ Hb12).
  apply (boot_frame_trans _ _ _ (fetch_operands_boot _ _ _ _ _ Hx1)).
  boot_same.
Qed.

Hypothesis tbl_keeps_boot : table_keeps_boot tbl.

Lemma execute_boot (s s' : Cpu) : execute tbl s = Ok s' -> boot_frame s s'.
Proof.
  unfold execute. intros He.
  destruct (tbl (o (inst s))) as [cmd | ] eqn:Hcmd.
  - inv_bind He. injection He as <-.
    apply (boot_frame_trans _ _ _ (tbl_keeps_boot _ _ _ _ Hcmd Hx)).
    boot_same.
  - injection He as <-. apply boot_frame_refl.
Qed.

(** One step: the overlay flag is raised when the step starts at 0x0100 and
    otherwise kept; the boot ROM, the cartridge ROM and the ROM key stay. *)
Lemma step_boot (s s' : Cpu) :
  step tbl rd s = Ok s' ->
  bios s' = bios s /\
  biosFinished s' = biosFinished s || (pc s =? 0x0100) /\
  option_map rom (mmu s') = option_map rom (mmu s) /\
  holds (mmuKeys s') abRom = holds (mmuKeys s) abRom.
Proof.
  unfold step. intros Hs.
  inv_bind Hs. inv_bind Hs. inv_bind Hs. inv_bind Hs. inv_bind Hs.
  pose proof (io_boot _ _ _ Hx) as B1.
  pose proof (interrupt_boot _ _ Hx0) as B2.
  pose proof (fetch_boot _ _ Hx1) as B3.
  pose proof (cpu_frame_boot _ _
                (lockAddr_frame AddrGpuRegs _ _
                   (or_intror (or_intror eq_refl)) Hx2)) as B4.
  pose proof (execute_boot _ _ Hx3) as B5.
  pose proof (cpu_frame_boot _ _
                (unlockAddr_frame AddrGpuRegs _ _
                   (or_intror (or_intror eq_refl)) Hs)) as B6.
  pose proof (boot_frame_trans _ _ _ B1
                (boot_frame_trans _ _ _ B2
                   (boot_frame_trans _ _ _ B3
                      (boot_frame_trans _ _ _ B4
                         (boot_frame_trans _ _ _ B5 B6))))) as Hb.
  clear - Hb. unfold boot_frame in Hb.
  cbn [biosFinished pc with_clocks] in Hb.
  destruct (biosFinished s) eqn:Hf, (pc s =? 0x0100) eqn:Hp;
    cbn in Hb; rewrite ?Hf in Hb;
    destruct Hb as (Hbios & Hfin & Hrom & Hkey);
    repeat split; assumption.
Qed.

(** Once unmapped, the overlay is never mapped again. *)
Lemma steps_never_remap (n : nat) :
  forall s s', steps tbl rd n s = Ok s' ->
               biosFinished s = true -> biosFinished s' = true.
Proof.
  induction n as [ | n IH]; intros s s' Hs Hfin; cbn [steps] in Hs.
  - now injection Hs as <-.
  - inv_bind Hs. apply (IH _ _ Hs).
    destruct (step_boot _ _ Hx) as (_ & -> & _). now rewrite Hfin.
Qed.

Lemma steps_boot (n : nat) :
  forall s s', steps tbl rd n s = Ok s' ->
               bios s' = bios s /\
               option_map rom (mmu s') = option_map rom (mmu s) /\
               holds (mmuKeys s') abRom = holds (mmuKeys s) abRom.
Proof.
  induction n as [ | n IH]; intros s s' Hs; cbn [steps] in Hs.
  - injection Hs as <-. repeat split; reflexivity.
  - inv_bind Hs.
    destruct (step_boot _ _ Hx) as (H1 & _ & H2 & H3).
    destruct (IH _ _ Hs) as (H4 & H5 & H6).
    repeat split; congruence.
Qed.

Lemma steps_split (n : nat) :
  forall s s', steps tbl rd (S n) s = Ok s' ->
               exists si, steps tbl rd n s = Ok si /\ step tbl rd si = Ok s'.
Proof.
  induction n as [ | n IH]; intros s s' Hs.
  - cbn in Hs. inv_bind Hs. injection Hs as <-.
    exists s. split; [reflexivity | exact Hx].
  - cbn [steps] in Hs. inv_bind Hs.
    destruct (IH x s' Hs) as (si & Hsi & Hstep).
    exists si. split; [ | exact Hstep].
    cbn [steps]. rewrite Hx. exact Hsi.
Qed.

(** The overlay is unmapped after [n] steps exactly when it was unmapped at
    the start or one of those steps began with [PC = 0x0100]. *)
Lemma steps_unmapped (n : nat) :
  forall s s', steps tbl rd n s = Ok s' ->
               (biosFinished s' = true <->
                biosFinished s = true \/
                exists i si, (i < n)%nat /\ steps tbl rd i s = Ok si /\
                             pc si = 0x0100).
Proof.
  induction n as [ | n IH]; intros s s' Hs.
  - injection Hs as <-. split; [now left | ].
    intros [Hfin | (i & si & Hi & _)]; [exact Hfin | lia].
  - destruct (steps_split n s s' Hs) as (sn & Hsn & Hstep).
    destruct (step_boot _ _ Hstep) as (_ & Hfin & _).
    rewrite Hfin, orb_true_iff, (IH s sn Hsn), Z.eqb_eq. split.
    + intros [[H0 | (i & si & Hi & Hsi & Hpc)] | Hpc].
      * now left.
      * right. exists i, si. repeat split; [lia | exact Hsi | exact Hpc].
      * right. exists n, sn. repeat split; [lia | exact Hsn | exact Hpc].
    + intros [H0 | (i & si & Hi & Hsi & Hpc)].
      * left. now left.
      * destruct (Nat.eq_dec i n) as [-> | Hne].
        -- right. rewrite Hsn in Hsi. now injection Hsi as ->.
        -- left. right. exists i, si.
           repeat split; [lia | exact Hsi | exact Hpc].
Qed.

End TableFacts.

(** Reads below 0x0100 while the overlay is mapped, and after. *)
Lemma readByte_overlay (s : Cpu) (ad v : Z) :
  biosFinished s = false -> 0 <= ad <= 0xFF ->
  bios s !! Z.to_nat ad = Some v -> readByte ad s = Ok (v, s).
Proof.
  intros Hfin Had Hv. unfold readByte. rewrite Hfin.
  destruct (Z.leb_spec ad 0xFF); [ | lia]. cbn [negb andb].
  unfold index. destruct (Z.ltb_spec ad 0); [lia | ].
  rewrite Hv. reflexivity.
Qed.

Lemma readByte_rom (s : Cpu) (mm : Mmu) (ad v : Z) :
  biosFinished s = true -> 0 <= ad <= 0x7FFF ->
  mmu s = Some mm -> holds (mmuKeys s) abRom = true ->
  rom mm !! Z.to_nat ad = Some v -> readByte ad s = Ok (v, s).
Proof.
  intros Hfin Had Hmm Hh Hv. unfold readByte. rewrite Hfin.
  cbn [negb andb]. unfold AddrVRam, AddrRam, AddrOam, AddrOamEnd.
  decide_cmp. cbn [andb]. cbv iota.
  unfold the_mmu. rewrite Hmm. cbn [bind].
  unfold ReadByteAt, selectAddressBlock, AddrVRam.
  decide_cmp. cbn [bind]. rewrite Hh.
  change ((abRom =? abRom) && true) with true. cbv iota.
  rewrite Z.sub_0_r, IntFacts.u16_small by lia.
  unfold index. destruct (Z.ltb_spec ad 0); [lia | ].
  rewrite Hv. reflexivity.
Qed.

Lemma nop_table_keeps_boot : table_keeps_boot Scenario.nop_table.
Proof.
  intros op cmd s s' Hcmd Hrun. unfold Scenario.nop_table in Hcmd.
  destruct (op =? 0x00); [ | discriminate].
  injection Hcmd as <-. cbn in Hrun. injection Hrun as <-.
  apply boot_frame_refl.
Qed.

Lemma interfere_boot (s s' : Cpu) : interfere s s' -> boot_frame s s'.
Proof.
  intros (Hr & Hk & Hrom). unfold same_regs in Hr.
  repeat match goal with
         | H : _ /\ _ |- _ => destruct H
         end.
  unfold boot_frame. rewrite Hk. repeat split; assumption.
Qed.

Section Runs.

Variable tbl : Z -> option command.
Variable rd : Z -> bool -> Z.
Hypothesis tbl_keeps_boot : table_keeps_boot tbl.

Lemma steps_run (n : nat) :
  forall s s', steps tbl rd n s = Ok s' ->
               exists pcs, length pcs = n /\ run tbl rd s pcs s'.
Proof.
  induction n as [ | n IH]; intros s s' Hs; cbn [steps] in Hs.
  - injection Hs as <-. exists []. split; [reflexivity | constructor].
  - inv_bind Hs. destruct (IH _ _ Hs) as (pcs & Hlen & Hrun).
    exists (pc s :: pcs). split; [cbn; now rewrite Hlen | ].
    exact (run_step tbl rd s x pcs s' Hx Hrun).
Qed.

(** Along a run the overlay is unmapped exactly when it was unmapped at
    the start or a step began with [PC = 0x0100]; the boot ROM, the
    cartridge ROM and the CPU's key for it never change. *)
Lemma run_boot (s : Cpu) (pcs : list Z) (s' : Cpu) :
  run tbl rd s pcs s' ->
  (biosFinished s' = true <-> biosFinished s = true \/ In 0x0100 pcs) /\
  bios s' = bios s /\
  option_map rom (mmu s') = option_map rom (mmu s) /\
  holds (mmuKeys s') abRom = holds (mmuKeys s) abRom.
Proof.
  induction 1 as [s | s s1 pcs s' Hstep Hrun IH | s s1 pcs s' Henv Hrun IH].
  - split; [ | repeat split; reflexivity].
    split; [now left | intros [Hfin | []]; exact Hfin].
  - destruct (step_boot tbl rd tbl_keeps_boot _ _ Hstep)
      as (Hbios & Hfin & Hrom & Hkey).
    destruct IH as (IHfin & IHbios & IHrom & IHkey).
    split; [ | repeat split; congruence].
    rewrite IHfin, Hfin, orb_true_iff, Z.eqb_eq. cbn [In].
    split; [intros [[H0 | Hpc] | Hin] | intros [H0 | [Hpc | Hin]]];
      auto using eq_sym.
  - destruct (interfere_boot _ _ Henv) as (Hbios & Hfin & Hrom & Hkey).
    destruct IH as (IHfin & IHbios & IHrom & IHkey).
    split; [ | repeat split; congruence].
    rewrite IHfin, Hfin. reflexivity.
Qed.

End Runs.

(** C6. With a boot ROM [bs] provided over cartridge [cart], along any run
    of steps (other bus masters acting on the MMU in between, and whatever
    byte [io] binds at line 264): the overlay
    is unmapped exactly when one of the steps so far began with
    [PC = 0x0100]; while it is mapped a read at 0x0000-0x00FF returns the
    boot ROM byte; once it is unmapped it stays unmapped for the rest of
    the run and such a read returns the cartridge byte. *)
Theorem boot_rom_handoff (tbl : Z -> option command) (rd : Z -> bool -> Z)
  (cart bs : list Z) (s0 s : Cpu) (pcs : list Z) :
  table_keeps_boot tbl ->
  bs <> [] ->
  NewCpu (Some (NewMmu (Some cart))) bs = Ok s0 ->
  run tbl rd s0 pcs s ->
  (biosFinished s = true <-> In 0x0100 pcs) /\
  (biosFinished s = false ->
   forall ad, 0 <= ad <= 0xFF ->
              readByte ad s = Ok (default 0 (bs !! Z.to_nat ad), s)) /\
  (biosFinished s = true ->
   forall pcs' s', run tbl rd s pcs' s' ->
                   biosFinished s' = true /\
                   forall ad v, 0 <= ad <= 0xFF ->
                                cart !! Z.to_nat ad = Some v ->
                                readByte ad s' = Ok (v, s')).
Proof.
  intros Htbl Hbs Hnew Hrun.
  rewrite NewCpu_is_fresh in Hnew. injection Hnew as <-.
  assert (Hlen : (0 <? Z.of_nat (length bs)) = true).
  { destruct bs; [contradiction | cbn [length]; apply Z.ltb_lt; lia]. }
  assert (Hfin0 : biosFinished (Scenario.fresh (Some cart) bs) = false).
  { cbn. now rewrite Hlen. }
  assert (Hbios0 : bios (Scenario.fresh (Some cart) bs) = pad_bios bs).
  { cbn. now rewrite Hlen. }
  destruct (run_boot tbl rd Htbl _ _ _ Hrun) as (Hunm & Hbios & Hrom & Hkey).
  split; [ | split].
  - rewrite Hunm, Hfin0.
    split; [intros [Habs | Hin]; [discriminate | exact Hin] | now right].
  - intros Hfin ad Had. apply readByte_overlay; [exact Hfin | exact Had | ].
    rewrite Hbios, Hbios0. apply pad_bios_lookup. lia.
  - intros Hfin pcs' s' Hrun'.
    destruct (run_boot tbl rd Htbl _ _ _ Hrun') as (Hunm' & _ & Hrom' & Hkey').
    assert (Hfin' : biosFinished s' = true) by (apply Hunm'; now left).
    split; [exact Hfin' | ].
    intros ad v Had Hv.
    rewrite Hrom in Hrom'. rewrite Hkey in Hkey'. cbn in Hrom', Hkey'.
    destruct (mmu s') as [mm' | ] eqn:Hmm'; [ | discriminate].
    cbn in Hrom'. injection Hrom' as Hrom'.
    apply (readByte_rom s' mm');
      [exact Hfin' | lia | exact Hmm' | exact Hkey' | now rewrite Hrom'].
Qed.

Lemma boot_rom_handoff_witness :
  exists s0 s,
    NewCpu (Some (NewMmu (Some Scenario.boot_cart))) Scenario.boot_bios
    = Ok s0 /\
    steps Scenario.nop_table Scenario.byte_read 257 s0 = Ok s /\
    biosFinished s0 = false /\ readByte 0x0000 s0 = Ok (0x00, s0) /\
    biosFinished s = true /\ readByte 0x0000 s = Ok (0xC3, s).
Proof.
  assert (Hsteps : exists s,
             steps Scenario.nop_table Scenario.byte_read 257
               (Scenario.fresh (Some Scenario.boot_cart) Scenario.boot_bios)
             = Ok s /\ biosFinished s = true)
    by (eexists; split; vm_compute; reflexivity).
  destruct Hsteps as (s & Hsteps & Hfin).
  destruct (steps_run Scenario.nop_table Scenario.byte_read 257 _ _ Hsteps) as (pcs & _ & Hrun).
  exists (Scenario.fresh (Some Scenario.boot_cart) Scenario.boot_bios), s.
  split; [reflexivity | split; [exact Hsteps | ]].
  destruct (boot_rom_handoff Scenario.nop_table Scenario.byte_read
              Scenario.boot_cart
              Scenario.boot_bios _ _ [] nop_table_keeps_boot
              ltac:(discriminate) eq_refl (run_done _ _ _))
    as (_ & Hmapped & _).
  destruct (boot_rom_handoff Scenario.nop_table Scenario.byte_read
              Scenario.boot_cart
              Scenario.boot_bios _ s pcs nop_table_keeps_boot
              ltac:(discriminate) eq_refl Hrun) as (_ & _ & Hunmapped).
  split; [reflexivity | split; [exact (Hmapped eq_refl 0x0000 ltac:(lia)) | ]].
  split; [exact Hfin | ].
  destruct (Hunmapped Hfin [] s (run_done _ _ _)) as (_ & Hread).
  exact (Hread 0x0000 0xC3 ltac:(lia) eq_refl).
Defined.

(** *** Opcodes without a table entry *)

Lemma same_regs_clocks (s s' : Cpu) : same_regs s s' -> same_clocks s s'.
Proof.
  unfold same_regs, same_clocks. intros Hr.
  repeat match goal with
         | H : _ /\ _ |- _ => destruct H
         end.
  split; assumption.
Qed.

Lemma same_clocks_trans (s1 s2 s3 : Cpu) :
  same_clocks s1 s2 -> same_clocks s2 s3 -> same_clocks s1 s3.
Proof. unfold same_clocks. intros [? ?] [? ?]. split; congruence. Qed.

Lemma readByte_regs (ad v : Z) (s s' : Cpu) :
  readByte ad s = Ok (v, s') -> same_regs s s'.
Proof. intros Hr. exact (proj1 (readByte_frame _ _ _ _ Hr)). Qed.

Lemma writeByte_regs (ad v : Z) (s s' : Cpu) :
  writeByte ad v s = Ok s' -> same_regs s s'.
Proof. intros Hw. exact (proj1 (proj1 (writeByte_frame _ _ _ _ Hw))). Qed.

Lemma io_clocks (rd : Z -> bool -> Z) (s s' : Cpu) :
  io rd s = Ok s' -> same_clocks s s'.
Proof.
  unfold io, the_mmu. intros Hio.
  destruct (mmu s) as [mm | ]; [ | discriminate].
  cbn [bind] in Hio. inv_bind Hio. destruct x as [[v q] mm'].
  inv_bind Hio. destruct x as [iflag' s1].
  assert (H0 : same_clocks s (with_mmu mm' (mmuKeys s) s))
    by (split; reflexivity).
  apply (same_clocks_trans _ _ _ H0).
  destruct (ime (with_mmu mm' (mmuKeys s) s) =? 0).
  - injection Hx0 as _ <-.
    exact (same_regs_clocks _ _ (writeByte_regs _ _ _ _ Hio)).
  - inv_bind Hx0. destruct x as [iev s2]. injection Hx0 as _ <-.
    exact (same_clocks_trans _ _ _
             (same_regs_clocks _ _ (readByte_regs _ _ _ _ Hx1))
             (same_regs_clocks _ _ (writeByte_regs _ _ _ _ Hio))).
Qed.

Lemma interrupt_clocks (s s' : Cpu) :
  interrupt s = Ok s' -> same_clocks s s'.
Proof.
  unfold interrupt. intros Hi.
  destruct (ime s =? 1); [ | injection Hi as <-; split; reflexivity].
  inv_bind Hi. destruct x as [iev s1].
  inv_bind Hi. destruct x as [iflag s2].
  pose proof (same_clocks_trans _ _ _
                (same_regs_clocks _ _ (readByte_regs _ _ _ _ Hx))
                (same_regs_clocks _ _ (readByte_regs _ _ _ _ Hx0))) as Hc.
  destruct (getInterrupt iev iflag >? 0);
    [ | injection Hi as <-; exact Hc].
  inv_bind Hi. unfold resetInterrupt in Hi.
  apply (same_clocks_trans _ _ _ Hc).
  destruct (push_frame _ _ _ Hx1) as (Hpush & _).
  apply same_regs_clocks in Hpush. cbn in Hpush.
  apply (same_clocks_trans _ x); [exact Hpush | ].
  apply (same_clocks_trans _ (jp (Address (getInterrupt iev iflag)) x));
    [split; reflexivity | ].
  exact (same_regs_clocks _ _ (writeByte_regs _ _ _ _ Hi)).
Qed.

Section Misses.

Variable tbl : Z -> option command.

(** [fetch] on an opcode the table leaves out: the opcode byte (two for a
    0xCB prefix) and nothing more. *)
Lemma fetch_unknown (s s1 : Cpu) :
  fetch tbl s = Ok s1 -> tbl (o (inst s1)) = None ->
  p (inst s1) = [] /\ same_clocks s s1 /\
  exists b0 sa,
    readByte (pc s) s = Ok (b0, sa) /\
    pc s1 = if b0 =? 0xCB then Int.u16 (Int.u16 (pc s + 1) + 1)
            else Int.u16 (pc s + 1).
Proof.
  unfold fetch. intros Hf Hmiss.
  inv_bind Hf. destruct x as [b0 sa].
  inv_bind Hf. destruct x as [op sb].
  inv_bind Hf. destruct x as [ps sc]. injection Hf as <-.
  cbn [inst with_inst o p pc] in Hmiss |- *. rewrite Hmiss in Hx1.
  cbn [fetch_operands Z.to_nat] in Hx1. injection Hx1 as <- <-.
  pose proof (readByte_regs _ _ _ _ Hx) as Ha.
  assert (Hpa : pc sa = pc s).
  { unfold same_regs in Ha. tauto. }
  split; [reflexivity | ].
  destruct (b0 =? 0xCB) eqn:Hcb.
  - inv_bind Hx0. destruct x as [b1 sd]. injection Hx0 as _ <-.
    pose proof (readByte_regs _ _ _ _ Hx1) as Hd.
    assert (Hpd : pc sd = Int.u16 (pc s + 1)).
    { unfold same_regs in Hd. cbn in Hd. rewrite <- Hpa. tauto. }
    split.
    + apply (same_clocks_trans _ _ _ (same_regs_clocks _ _ Ha)).
      apply same_regs_clocks in Hd. exact Hd.
    + exists b0, sa. split; [exact Hx | ].
      cbn [pc with_pc with_inst]. now rewrite Hcb, Hpd.
  - injection Hx0 as _ <-.
    split; [exact (same_regs_clocks _ _ Ha) | ].
    exists b0, sa. split; [exact Hx | ].
    cbn [pc with_pc with_inst]. now rewrite Hcb, Hpa.
Qed.

Variable rd : Z -> bool -> Z.

Lemma step_phases (s : Cpu) :
  step tbl rd s
  = let! s := before_execute tbl rd s in
    let! s := execute tbl s in
    unlockAddr AddrGpuRegs s.
Proof.
  unfold step, before_execute.
  destruct (io rd _) as [s1 | | ]; cbn [bind]; try reflexivity.
  destruct (interrupt s1) as [s2 | | ]; cbn [bind]; try reflexivity.
  destruct (fetch tbl s2) as [s3 | | ]; cbn [bind]; reflexivity.
Qed.

Lemma before_execute_unknown (s s3 : Cpu) :
  before_execute tbl rd s = Ok s3 -> tbl (o (inst s3)) = None ->
  p (inst s3) = [] /\ t s3 = 0 /\ m s3 = 0.
Proof.
  unfold before_execute. intros Hb Hmiss.
  inv_bind Hb. inv_bind Hb. inv_bind Hb.
  destruct (lockAddr_inv AddrGpuRegs _ _ (or_intror (or_intror eq_refl)) Hb)
    as (Hregs & _).
  assert (Hinst : inst s3 = inst x1) by (unfold same_regs in Hregs; tauto).
  rewrite Hinst in Hmiss |- *.
  destruct (fetch_unknown _ _ Hx1 Hmiss) as (Hp & Hc3 & _).
  split; [exact Hp | ].
  pose proof (same_clocks_trans _ _ _ (io_clocks _ _ _ Hx)
                (same_clocks_trans _ _ _ (interrupt_clocks _ _ Hx0)
                   (same_clocks_trans _ _ _ Hc3
                      (same_regs_clocks _ _ Hregs)))) as [Hm Ht].
  rewrite Hm, Ht.
  destruct (negb (biosFinished (with_clocks 0 0 s))
            && (pc (with_clocks 0 0 s) =? 0x0100));
    split; reflexivity.
Qed.

End Misses.

Section EarlierMisses.

Context {M : Type} `{Main.mmu M}.
Variable mtbl : Z -> option (Main.command M).

Lemma Main_fetch_operands_frame (n : nat) :
  forall s s' : Main.cpu M,
    Main.fetch_operands n s = Ok s' ->
    o (Main.inst s') = o (Main.inst s) /\
    Main.m s' = Main.m s /\ Main.t s' = Main.t s.
Proof.
  induction n as [ | n IH]; intros s s' Hf; cbn [Main.fetch_operands] in Hf.
  - injection Hf as <-. repeat split; reflexivity.
  - apply bind_Ok in Hf as (v & _ & Hf).
    apply IH in Hf. cbn in Hf. exact Hf.
Qed.

Lemma Main_fetch_unknown (s s1 : Main.cpu M) :
  Main.fetch mtbl s = Ok s1 -> mtbl (o (Main.inst s1)) = None ->
  p (Main.inst s1) = [] /\ Main.m s1 = Main.m s /\ Main.t s1 = Main.t s /\
  exists b0,
    Main.readByte (Main.mc s) (Main.pc s) = Ok b0 /\
    Main.pc s1 = if b0 =? 0xCB
                 then Int.u16 (Int.u16 (Main.pc s + 1) + 1)
                 else Int.u16 (Main.pc s + 1).
Proof.
  unfold Main.fetch. intros Hf Hmiss.
  apply bind_Ok in Hf as (b0 & Hb0 & Hf).
  apply bind_Ok in Hf as ([op sb] & Hop & Hf).
  destruct (Main_fetch_operands_frame _ _ _ Hf) as (Ho & _).
  cbn [Main.inst Main.with_inst o] in Ho. rewrite Ho in Hmiss.
  rewrite Hmiss in Hf. cbn [Main.fetch_operands Z.to_nat] in Hf.
  injection Hf as <-. cbn [Main.inst Main.with_inst p Main.m Main.t Main.pc].
  split; [reflexivity | ].
  destruct (b0 =? 0xCB) eqn:Hcb.
  - apply bind_Ok in Hop as (b1 & _ & Hop). injection Hop as _ <-.
    cbn. repeat split; try reflexivity.
    exists b0. split; [exact Hb0 | now rewrite Hcb].
  - injection Hop as _ <-.
    cbn. repeat split; try reflexivity.
    exists b0. split; [exact Hb0 | now rewrite Hcb].
Qed.

End EarlierMisses.

(** C5, as the code has it. An opcode without a table entry is not an
    error, for every table, state and such opcode.  In [cpu.go], [execute]
    returns with the CPU and the memory exactly as they were; [fetch] reads
    the opcode byte (two for a 0xCB prefix) and no operand byte; and a step
    whose phases before [execute] return ends as its final unlock ends,
    with an empty operand list and no cycle counted.  In [part_000],
    [execute] returns having done nothing but the boot-ROM unload that
    precedes the table lookup when [PC = 0x0100]; [fetch] reads no operand
    byte; and the step returns 0 whenever its fetch returns. *)
Theorem unknown_opcode_silent {M : Type} `{Main.mmu M}
  (tbl : Z -> option command) (rd : Z -> bool -> Z)
  (mtbl : Z -> option (Main.command M)) :
  (forall s, tbl (o (inst s)) = None ->
     execute tbl s = Ok s /\ is_panic (execute tbl s) = false) /\
  (forall s s1, fetch tbl s = Ok s1 -> tbl (o (inst s1)) = None ->
     p (inst s1) = [] /\
     exists b0 sa,
       readByte (pc s) s = Ok (b0, sa) /\
       pc s1 = if b0 =? 0xCB then Int.u16 (Int.u16 (pc s + 1) + 1)
               else Int.u16 (pc s + 1)) /\
  (forall s s3, before_execute tbl rd s = Ok s3 ->
     tbl (o (inst s3)) = None ->
     step tbl rd s = unlockAddr AddrGpuRegs s3 /\
     p (inst s3) = [] /\ t s3 = 0 /\ m s3 = 0 /\
     forall s', step tbl rd s = Ok s' ->
                same_regs s3 s' /\ t s' = 0 /\ m s' = 0) /\
  (forall s, mtbl (o (Main.inst s)) = None ->
     Main.execute mtbl s
     = Ok (if Main.pc s =? 0x0100
           then Main.with_mc (Main.unloadBios (Main.mc s)) s else s)) /\
  (forall s s1, Main.fetch mtbl s = Ok s1 ->
     mtbl (o (Main.inst s1)) = None ->
     p (Main.inst s1) = [] /\
     exists b0,
       Main.readByte (Main.mc s) (Main.pc s) = Ok b0 /\
       Main.pc s1 = if b0 =? 0xCB
                    then Int.u16 (Int.u16 (Main.pc s + 1) + 1)
                    else Int.u16 (Main.pc s + 1)) /\
  (forall s s1, Main.fetch mtbl (Main.with_clocks 0 0 s) = Ok s1 ->
     mtbl (o (Main.inst s1)) = None ->
     Main.step mtbl s
     = Ok (0, if Main.pc s1 =? 0x0100
              then Main.with_mc (Main.unloadBios (Main.mc s1)) s1 else s1)).
Proof.
  split; [ | split; [ | split; [ | split; [ | split]]]].
  - intros s Hmiss. unfold execute. rewrite Hmiss. split; reflexivity.
  - intros s s1 Hf Hmiss.
    destruct (fetch_unknown tbl s s1 Hf Hmiss) as (Hp & _ & Hpc).
    split; assumption.
  - intros s s3 Hb Hmiss.
    destruct (before_execute_unknown tbl rd s s3 Hb Hmiss) as (Hp & Ht & Hm).
    assert (Hstep : step tbl rd s = unlockAddr AddrGpuRegs s3).
    { rewrite step_phases, Hb. cbn [bind]. unfold execute.
      rewrite Hmiss. reflexivity. }
    split; [exact Hstep | ]. split; [exact Hp | ].
    split; [exact Ht | ]. split; [exact Hm | ].
    intros s' Hs'. rewrite Hstep in Hs'.
    destruct (unlockAddr_inv AddrGpuRegs _ _
                (or_intror (or_intror eq_refl)) Hs') as (Hregs & _).
    split; [exact Hregs | ].
    destruct (same_regs_clocks _ _ Hregs) as [Hm' Ht'].
    split; congruence.
  - intros s Hmiss. exact (Main_execute_unknown_opcode mtbl s Hmiss).
  - intros s s1 Hf Hmiss.
    destruct (Main_fetch_unknown mtbl s s1 Hf Hmiss) as (Hp & _ & _ & Hpc).
    split; assumption.
  - intros s s1 Hf Hmiss.
    destruct (Main_fetch_unknown mtbl _ s1 Hf Hmiss) as (_ & _ & Ht & _).
    cbn in Ht.
    unfold Main.step. rewrite Hf. cbn [bind].
    rewrite (Main_execute_unknown_opcode mtbl s1 Hmiss). cbn [bind].
    destruct (Main.pc s1 =? 0x0100); cbn [Main.t Main.with_mc];
      now rewrite Ht.
Qed.

Lemma unknown_opcode_silent_witness :
  Scenario.nop_table 0xD3 = None /\
  execute Scenario.nop_table
    (with_inst (newInstruction 0xD3 []) (Scenario.fresh (Some [0xD3]) []))
  = Ok (with_inst (newInstruction 0xD3 []) (Scenario.fresh (Some [0xD3]) []))
  /\
  (exists s1,
     fetch Scenario.nop_table (Scenario.fresh (Some [0xD3; 0x42]) []) = Ok s1 /\
     p (inst s1) = [] /\ pc s1 = 0x0001) /\
  Scenario.jr_table 0xD3 = None /\
  Main.step Scenario.jr_table (Main.newCpu [0xD3; 0x42])
  = Ok (0, Main.with_inst (newInstruction 0xD3 [])
             (Main.with_pc 0x0001 (Main.newCpu [0xD3; 0x42]))).
Proof.
  destruct (unknown_opcode_silent Scenario.nop_table Scenario.byte_read
              Scenario.jr_table)
    as (Hexec & Hfetch & _ & _ & _ & Hmstep).
  split; [reflexivity | ].
  split.
  { apply (Hexec (with_inst (newInstruction 0xD3 [])
                    (Scenario.fresh (Some [0xD3]) []))).
    reflexivity. }
  split.
  { exists (with_inst (newInstruction 0xD3 [])
              (with_pc 0x0001 (Scenario.fresh (Some [0xD3; 0x42]) []))).
    split; [reflexivity | ].
    destruct (Hfetch (Scenario.fresh (Some [0xD3; 0x42]) [])
                (with_inst (newInstruction 0xD3 [])
                   (with_pc 0x0001 (Scenario.fresh (Some [0xD3; 0x42]) [])))
                eq_refl eq_refl) as (Hp & _).
    split; [exact Hp | reflexivity]. }
  split; [reflexivity | ].
  exact (Hmstep (Main.newCpu [0xD3; 0x42])
           (Main.with_inst (newInstruction 0xD3 [])
              (Main.with_pc 0x0001 (Main.newCpu [0xD3; 0x42])))
           eq_refl eq_refl).
Defined.

(** C5. A table miss is not fatal on the code: with [0xD3] at ROM[0] a
    whole step completes, one byte consumed and no cycle counted. *)
Lemma unknown_opcode_not_fatal :
  Scenario.nop_table 0xD3 = None /\
  (exists s',
     step Scenario.nop_table Scenario.byte_read
       (Scenario.fresh (Some [0xD3]) []) = Ok s' /\
     o (inst s') = 0xD3 /\ pc s' = 0x0001 /\ t s' = 0 /\ m s' = 0) /\
  ~ unknown_opcode_fatal.
Proof.
  split; [reflexivity | split].
  - eexists. split; [vm_compute; reflexivity | ]. repeat split; reflexivity.
  - intros Hfatal.
    specialize (Hfatal Scenario.nop_table
                  (with_inst (newInstruction 0xD3 [])
                             (Scenario.fresh (Some [0xD3]) [])) eq_refl).
    discriminate Hfatal.
Qed.

End JibiFacts.

(** ** More of the earlier CPU's ALU *)

Module AluFacts.
Import Main MainSpec MainFacts.

(** *** The flags register, bit by bit *)

Lemma testbit_setFlags (v i : Z) :
  0 <= i ->
  Z.testbit (Reg.setFlags v) i = Z.testbit v i && ((4 <=? i) && (i <? 8)).
Proof.
  intros Hi. unfold Reg.setFlags, Int.u8. rewrite Z.land_spec.
  change 256 with (2 ^ 8).
  assert (Hmask : Z.testbit 0xF0 i = (4 <=? i) && (i <? 8)).
  { change 0xF0 with (Z.shiftl (Z.ones 4) 4).
    destruct (Z.leb_spec 4 i) as [Hge | Hlt].
    - rewrite Z.shiftl_spec_high by lia.
      destruct (Z.ltb_spec i 8).
      + apply Z.ones_spec_low. lia.
      + apply Z.ones_spec_high. lia.
    - apply Z.shiftl_spec_low. lia. }
  rewrite Hmask.
  destruct (Z.ltb_spec i 8) as [Hlt | Hge].
  - now rewrite Z.mod_pow2_bits_low by lia.
  - now rewrite !andb_false_r.
Qed.

Lemma getFlag_bit (r k : Z) :
  0 <= k -> Reg.getFlag r (2 ^ k) = Z.testbit r k.
Proof.
  intros Hk. unfold Reg.getFlag.
  replace (Z.land r (2 ^ k)) with (if Z.testbit r k then 2 ^ k else 0).
  - destruct (Z.testbit r k); [apply Z.eqb_refl | ].
    apply Z.eqb_neq. pose proof (Z.pow_pos_nonneg 2 k ltac:(lia) Hk). lia.
  - apply Z.bits_inj'. intros i Hi.
    rewrite Z.land_spec, Z.pow2_bits_eqb by exact Hk.
    destruct (Z.eqb_spec k i) as [-> | Hne].
    + destruct (Z.testbit r i); cbn;
        [now rewrite Z.pow2_bits_eqb, Z.eqb_refl | now rewrite Z.bits_0].
    + rewrite andb_false_r. destruct (Z.testbit r k);
        [rewrite Z.pow2_bits_eqb by exact Hk; now apply Z.eqb_neq
        | now rewrite Z.bits_0].
Qed.

(** A flag of the high nibble after setting or resetting one of them. *)
Lemma getFlag_setFlag (r k j : Z) :
  4 <= k < 8 -> 4 <= j < 8 ->
  Reg.getFlag (Reg.setFlag r (2 ^ k)) (2 ^ j)
  = Reg.getFlag r (2 ^ j) || (j =? k).
Proof.
  intros Hk Hj. unfold Reg.setFlag.
  rewrite !getFlag_bit, testbit_setFlags, Z.lor_spec, Z.pow2_bits_eqb by lia.
  rewrite (Z.eqb_sym k j).
  destruct (Z.leb_spec 4 j); [ | lia]. destruct (Z.ltb_spec j 8); [ | lia].
  cbn. apply andb_true_r.
Qed.

Lemma getFlag_resetFlag (r k j : Z) :
  4 <= k < 8 -> 4 <= j < 8 ->
  Reg.getFlag (Reg.resetFlag r (2 ^ k)) (2 ^ j)
  = Reg.getFlag r (2 ^ j) && negb (j =? k).
Proof.
  intros Hk Hj. unfold Reg.resetFlag.
  rewrite !getFlag_bit, testbit_setFlags, Z.land_spec, Z.lxor_spec,
    Z.pow2_bits_eqb by lia.
  rewrite (Z.eqb_sym k j). change 0xFF with (Z.ones 8).
  rewrite Z.ones_spec_low by lia.
  destruct (Z.leb_spec 4 j); [ | lia]. destruct (Z.ltb_spec j 8); [ | lia].
  rewrite xorb_true_r. cbn. apply andb_true_r.
Qed.

Lemma getFlag_set0 (j : Z) :
  0 <= j -> Reg.getFlag (Reg.setFlags 0) (2 ^ j) = false.
Proof.
  intros Hj. rewrite getFlag_bit, testbit_setFlags by lia.
  now rewrite Z.bits_0.
Qed.

Lemma flag_masks :
  flagZ = 2 ^ 7 /\ flagN = 2 ^ 6 /\ flagH = 2 ^ 5 /\ flagC = 2 ^ 4.
Proof. repeat split; reflexivity. Qed.

(** Rewriting the flag reads of a state built by the ALU primitives. *)
Ltac flag_bits :=
  unfold f_getFlag, f_setFlag, f_resetFlag, f_set, with_f; cbn [f];
  change flagZ with (2 ^ 7); change flagN with (2 ^ 6);
  change flagH with (2 ^ 5); change flagC with (2 ^ 4);
  repeat first [ rewrite getFlag_setFlag by lia
               | rewrite getFlag_resetFlag by lia
               | rewrite getFlag_set0 by lia ];
  cbn [Z.eqb Pos.eqb negb orb andb];
  rewrite ?andb_true_r, ?orb_false_r, ?orb_true_r, ?andb_false_r.

Section Unary.

Context {M : Type} `{mmu M}.

Lemma inc_carry (x : Z) (s : cpu M) :
  f_getFlag flagC (snd (inc x s)) = f_getFlag flagC s.
Proof.
  unfold inc. cbn [snd].
  destruct (Int.u8 (x + 1) =? 0), (Z.land x 0x0F =? 0x0F);
    flag_bits; reflexivity.
Qed.

Lemma dec_carry (x : Z) (s : cpu M) :
  f_getFlag flagC (snd (dec x s)) = f_getFlag flagC s.
Proof.
  unfold dec. cbn [snd].
  destruct (Int.u8 (x - 1) =? 0), (Z.land x 0x0F =? 0x0F); cbn [negb];
    flag_bits; reflexivity.
Qed.

(** X1. [inc] returns [(x + 1) mod 256], sets Z when that is 0, clears N,
    sets H exactly when the low nibble of [x] was 0x0F, and leaves the
    carry flag and everything outside F as they were. *)
Theorem inc_flags (x : Z) (s : cpu M) :
  0 <= x < 256 ->
  let r := fst (inc x s) in
  let s' := snd (inc x s) in
  r = (x + 1) mod 256 /\
  (r = 0 <-> x = 255) /\
  f_getFlag flagZ s' = (r =? 0) /\
  f_getFlag flagN s' = false /\
  f_getFlag flagH s' = (x mod 16 =? 15) /\
  f_getFlag flagC s' = f_getFlag flagC s /\
  Z.land (f s') 0x0F = 0 /\
  same_but_f s s'.
Proof.
  intros Hx r s'. subst r s'. unfold inc. cbn [fst snd].
  rewrite IntFacts.land_0F.
  split; [reflexivity | ].
  split; [unfold Int.u8; split; intros Hr;
          [Z.div_mod_to_equations; lia | subst x; reflexivity] | ].
  destruct (Int.u8 (x + 1) =? 0), (x mod 16 =? 15);
    (repeat split;
     [ flag_bits; reflexivity | flag_bits; reflexivity
     | flag_bits; reflexivity | flag_bits; reflexivity
     | apply RegFacts.setFlags_low_nibble | .. ]; reflexivity).
Qed.

(** X2. [dec] returns [(x - 1) mod 256], sets Z when that is 0, sets N,
    sets H exactly when the low nibble of [x] was not 0x0F, and leaves the
    carry flag and everything outside F as they were. *)
Theorem dec_flags (x : Z) (s : cpu M) :
  0 <= x < 256 ->
  let r := fst (dec x s) in
  let s' := snd (dec x s) in
  r = (x - 1) mod 256 /\
  (r = 0 <-> x = 1) /\
  f_getFlag flagZ s' = (r =? 0) /\
  f_getFlag flagN s' = true /\
  f_getFlag flagH s' = negb (x mod 16 =? 15) /\
  f_getFlag flagC s' = f_getFlag flagC s /\
  Z.land (f s') 0x0F = 0 /\
  same_but_f s s'.
Proof.
  intros Hx r s'. subst r s'. unfold dec. cbn [fst snd].
  rewrite IntFacts.land_0F.
  split; [reflexivity | ].
  split; [unfold Int.u8; split; intros Hr;
          [Z.div_mod_to_equations; lia | subst x; reflexivity] | ].
  destruct (Int.u8 (x - 1) =? 0), (x mod 16 =? 15); cbn [negb];
    (repeat split;
     [ flag_bits; reflexivity | flag_bits; reflexivity
     | flag_bits; reflexivity | flag_bits; reflexivity
     | apply RegFacts.setFlags_low_nibble | .. ]; reflexivity).
Qed.

(** X3. [inc] and [dec] undo each other on bytes, wrapping at both ends,
    and together leave the carry flag as it was. *)
Theorem inc_dec_round_trip (x : Z) (s : cpu M) :
  0 <= x < 256 ->
  fst (dec (fst (inc x s)) (snd (inc x s))) = x /\
  fst (inc (fst (dec x s)) (snd (dec x s))) = x /\
  f_getFlag flagC (snd (dec (fst (inc x s)) (snd (inc x s))))
  = f_getFlag flagC s /\
  f_getFlag flagC (snd (inc (fst (dec x s)) (snd (dec x s))))
  = f_getFlag flagC s.
Proof.
  intros Hx. split; [ | split; [ | split]].
  - unfold inc, dec, Int.u8. cbn [fst]. Z.div_mod_to_equations. lia.
  - unfold inc, dec, Int.u8. cbn [fst]. Z.div_mod_to_equations. lia.
  - now rewrite dec_carry, inc_carry.
  - now rewrite inc_carry, dec_carry.
Qed.

(** X4. [bit b n] for a bit number below 8 sets Z exactly when bit [b] of
    [n] is clear, clears N, sets H, and leaves the carry flag and
    everything outside F as they were. *)
Theorem bit_flags (bi n : Z) (s : cpu M) :
  0 <= bi < 8 -> 0 <= n < 256 ->
  let s' := bit bi n s in
  f_getFlag flagZ s' = negb (Z.testbit n bi) /\
  f_getFlag flagN s' = false /\
  f_getFlag flagH s' = true /\
  f_getFlag flagC s' = f_getFlag flagC s /\
  Z.land (f s') 0x0F = 0 /\
  same_but_f s s'.
Proof.
  intros Hb Hn s'. subst s'. unfold bit.
  assert (Hshl : shl1 bi = 2 ^ bi).
  { unfold shl1. rewrite Z.shiftl_1_l. apply IntFacts.u8_small.
    split; [apply Z.pow_nonneg; lia | ].
    change 256 with (2 ^ 8). apply Z.pow_lt_mono_r; lia. }
  rewrite Hshl.
  assert (Hset : (Z.land (2 ^ bi) n =? 2 ^ bi) = Z.testbit n bi).
  { rewrite Z.land_comm. apply (getFlag_bit n bi). lia. }
  rewrite Hset.
  destruct (Z.testbit n bi); cbn [negb];
    (repeat split;
     [ flag_bits; reflexivity | flag_bits; reflexivity
     | flag_bits; reflexivity | flag_bits; reflexivity
     | apply RegFacts.setFlags_low_nibble | .. ]; reflexivity).
Qed.

(** The flags register after a logic operation. *)
Lemma and_f (x y : Z) (s : cpu M) :
  f (snd (and x y s)) = flags_of (Z.land x y =? 0) false true false.
Proof. unfold and. destruct (Z.land x y =? 0); reflexivity. Qed.

Lemma or_f (x y : Z) (s : cpu M) :
  f (snd (or x y s)) = flags_of (Z.lor x y =? 0) false false false.
Proof. unfold or. destruct (Z.lor x y =? 0); reflexivity. Qed.

Lemma xor_f (x y : Z) (s : cpu M) :
  f (snd (xor x y s)) = flags_of (Z.lxor x y =? 0) false false false.
Proof. unfold xor. destruct (Z.lxor x y =? 0); reflexivity. Qed.

Lemma byte_bits (x : Z) :
  0 <= x < 256 <-> (0 <= x /\ forall i, 8 <= i -> Z.testbit x i = false).
Proof.
  split.
  - intros Hx. split; [lia | ]. intros i Hi.
    rewrite <- (Z.mod_small x (2 ^ 8)) by (cbn; lia).
    apply Z.mod_pow2_bits_high. lia.
  - intros [Hx Hhigh]. split; [exact Hx | ].
    destruct (Z.eq_dec x 0) as [-> | Hne]; [lia | ].
    destruct (Z.lt_ge_cases x 256) as [Hlt | Hge]; [exact Hlt | ].
    exfalso. assert (Hlog : 8 <= Z.log2 x).
    { change 8 with (Z.log2 256). apply Z.log2_le_mono. exact Hge. }
    pose proof (Z.bit_log2 x ltac:(lia)) as Hbit.
    rewrite (Hhigh _ Hlog) in Hbit. discriminate.
Qed.

(** X5. The logic operations on bytes: [and], [or] and [xor] return the
    bitwise result, again a byte, and leave F with Z set exactly when the
    result is 0, N and C clear, and H set by [and] only; [xor x x] is 0
    with [F = 0x80]. *)
Theorem logic_flags (x y : Z) (s : cpu M) :
  0 <= x < 256 -> 0 <= y < 256 ->
  (fst (and x y s) = Z.land x y /\ 0 <= fst (and x y s) < 256 /\
   f (snd (and x y s)) = flags_of (Z.land x y =? 0) false true false /\
   same_but_f s (snd (and x y s))) /\
  (fst (or x y s) = Z.lor x y /\ 0 <= fst (or x y s) < 256 /\
   f (snd (or x y s)) = flags_of (Z.lor x y =? 0) false false false /\
   same_but_f s (snd (or x y s))) /\
  (fst (xor x y s) = Z.lxor x y /\ 0 <= fst (xor x y s) < 256 /\
   f (snd (xor x y s)) = flags_of (Z.lxor x y =? 0) false false false /\
   same_but_f s (snd (xor x y s))) /\
  (fst (xor x x s) = 0 /\ f (snd (xor x x s)) = 0x80).
Proof.
  intros Hx Hy.
  destruct (proj1 (byte_bits x) Hx) as [Hx0 Hxh].
  destruct (proj1 (byte_bits y) Hy) as [Hy0 Hyh].
  assert (Hand : 0 <= Z.land x y < 256).
  { apply byte_bits. split; [apply Z.land_nonneg; now left | ].
    intros i Hi. now rewrite Z.land_spec, Hxh. }
  assert (Hor : 0 <= Z.lor x y < 256).
  { apply byte_bits. split; [apply Z.lor_nonneg; now split | ].
    intros i Hi. now rewrite Z.lor_spec, Hxh, Hyh. }
  assert (Hxor : 0 <= Z.lxor x y < 256).
  { apply byte_bits. split; [apply Z.lxor_nonneg; tauto | ].
    intros i Hi. now rewrite Z.lxor_spec, Hxh, Hyh. }
  split; [ | split; [ | split; [ | split]]].
  - split; [reflexivity | split; [exact Hand | split; [apply and_f | ]]].
    unfold and, same_but_f.
    destruct (Z.land x y =? 0); cbn; repeat split; reflexivity.
  - split; [reflexivity | split; [exact Hor | split; [apply or_f | ]]].
    unfold or, same_but_f.
    destruct (Z.lor x y =? 0); cbn; repeat split; reflexivity.
  - split; [reflexivity | split; [exact Hxor | split; [apply xor_f | ]]].
    unfold xor, same_but_f.
    destruct (Z.lxor x y =? 0); cbn; repeat split; reflexivity.
  - cbn [xor fst]. apply Z.lxor_nilpotent.
  - rewrite xor_f, Z.lxor_nilpotent. reflexivity.
Qed.

End Unary.

(** *** Carry chains *)

Section Carry.

Context {M : Type} `{mmu M}.

Lemma adc_f (x y : Z) (s : cpu M) :
  f (snd (adc x y s)) =
  flags_of (Int.u8 (x + y + carry_in s) =? 0) false
           (Int.u8 (Z.land x 0x0F + Z.land y 0x0F + carry_in s) >? 0x0F)
           (Int.u16 (x + y + carry_in s) >? 0xFF).
Proof.
  unfold adc, carry_in.
  destruct (f_getFlag flagC s);
    match goal with
    | |- context [Int.u8 (x + y + ?c) =? 0] =>
        destruct (Int.u8 (x + y + c) =? 0),
          (Int.u8 (Z.land x 0x0F + Z.land y 0x0F + c) >? 0x0F),
          (Int.u16 (x + y + c) >? 0xFF)
    end; reflexivity.
Qed.

Lemma sbc_f (x y : Z) (s : cpu M) :
  f (snd (sbc x y s)) =
  flags_of (Int.u8 (x - Int.u8 (y + carry_in s)) =? 0) true
           (Z.land x 0x0F >=? Int.u8 (Z.land y 0x0F + carry_in s))
           (x >=? Int.u8 (y + carry_in s)).
Proof.
  unfold sbc, carry_in.
  destruct (f_getFlag flagC s);
    match goal with
    | |- context [Int.u8 (x - Int.u8 (y + ?c)) =? 0] =>
        destruct (Int.u8 (x - Int.u8 (y + c)) =? 0),
          (Z.land x 0x0F >=? Int.u8 (Z.land y 0x0F + c)),
          (x >=? Int.u8 (y + c))
    end; reflexivity.
Qed.

Lemma carry_in_range (s : cpu M) : 0 <= carry_in s <= 1.
Proof. unfold carry_in. destruct (f_getFlag flagC s); lia. Qed.

Lemma carry_in_flag (s : cpu M) :
  carry_in s = Z.b2z (f_getFlag flagC s).
Proof. unfold carry_in. destruct (f_getFlag flagC s); reflexivity. Qed.

Lemma add_carry (x y : Z) (s : cpu M) :
  0 <= x < 256 -> 0 <= y < 256 ->
  f_getFlag flagC (snd (add x y s)) = (x + y >? 0xFF).
Proof.
  intros Hx Hy. unfold f_getFlag. rewrite add_f.
  rewrite (IntFacts.u16_small (x + y)) by lia.
  now destruct (flags_of_getFlag (Int.u8 (x + y) =? 0) false
                  (Int.u8 (Z.land x 0x0F + Z.land y 0x0F) >? 0x0F)
                  (x + y >? 0xFF)) as (_ & _ & _ & Hc & _).
Qed.

Lemma sub_carry (x y : Z) (s : cpu M) :
  f_getFlag flagC (snd (sub x y s)) = (x >=? y).
Proof.
  unfold f_getFlag. rewrite sub_f.
  now destruct (flags_of_getFlag (Int.u8 (x - y) =? 0) true
                  (Z.land x 0x0F >=? Z.land y 0x0F) (x >=? y))
    as (_ & _ & _ & Hc & _).
Qed.

(** X6. [adc] is the 9-bit sum of its operands and the incoming carry:
    the result and the outgoing carry flag together are [x + y + carry];
    H is the carry out of the low nibbles, N is clear, and with the carry
    clear [adc] is [add]. *)
Theorem adc_carry_chain (x y : Z) (s : cpu M) :
  0 <= x < 256 -> 0 <= y < 256 ->
  let r := fst (adc x y s) in
  let s' := snd (adc x y s) in
  r + 256 * Z.b2z (f_getFlag flagC s') = x + y + carry_in s /\
  0 <= r < 256 /\
  f_getFlag flagZ s' = (r =? 0) /\
  f_getFlag flagN s' = false /\
  f_getFlag flagH s' = (x mod 16 + y mod 16 + carry_in s >? 15) /\
  (f_getFlag flagC s = false -> adc x y s = add x y s).
Proof.
  intros Hx Hy r s'. subst r s'.
  pose proof (carry_in_range s) as Hc.
  pose proof (nibble_range x) as Hnx. pose proof (nibble_range y) as Hny.
  pose proof (adc_f x y s) as Hf.
  rewrite (IntFacts.u16_small (x + y + carry_in s)) in Hf by lia.
  rewrite (IntFacts.u8_small (Z.land x 0x0F + Z.land y 0x0F + carry_in s))
    in Hf by lia.
  rewrite !IntFacts.land_0F in Hf.
  unfold f_getFlag. rewrite Hf.
  destruct (flags_of_getFlag (Int.u8 (x + y + carry_in s) =? 0) false
              (x mod 16 + y mod 16 + carry_in s >? 0x0F)
              (x + y + carry_in s >? 0xFF))
    as (Hz & Hn & Hh & Hcy & _).
  rewrite Hz, Hn, Hh, Hcy.
  assert (Hres : fst (adc x y s) = Int.u8 (x + y + carry_in s)).
  { unfold adc, carry_in. now destruct (f_getFlag flagC s). }
  rewrite Hres.
  split.
  { unfold Int.u8.
    destruct (Z.gtb_spec (x + y + carry_in s) 0xFF); cbn [Z.b2z];
      Z.div_mod_to_equations; lia. }
  split; [apply IntFacts.u8_range | ].
  split; [reflexivity | split; [reflexivity | split; [reflexivity | ]]].
  intros Hclear. unfold adc, add, f_getFlag. rewrite Hclear.
  now rewrite !Z.add_0_r.
Qed.

(** X7. [sbc] returns [(x - y - carry) mod 256] with N set; its carry flag
    is set exactly when [x >= (y + carry) mod 256], so it is set when no
    borrow occurred and also, whatever [x], when [y = 255] comes with the
    carry set; with the carry clear [sbc] is [sub]. *)
Theorem sbc_borrow_chain (x y : Z) (s : cpu M) :
  0 <= x < 256 -> 0 <= y < 256 ->
  let r := fst (sbc x y s) in
  let s' := snd (sbc x y s) in
  r = (x - y - carry_in s) mod 256 /\
  f_getFlag flagN s' = true /\
  f_getFlag flagZ s' = (r =? 0) /\
  (y + carry_in s < 256 ->
   f_getFlag flagC s' = (y + carry_in s <=? x)) /\
  (y + carry_in s = 256 -> f_getFlag flagC s' = true /\ r = x) /\
  (f_getFlag flagC s = false -> sbc x y s = sub x y s).
Proof.
  intros Hx Hy r s'. subst r s'.
  pose proof (carry_in_range s) as Hc.
  pose proof (sbc_f x y s) as Hf.
  assert (Hres : fst (sbc x y s) = Int.u8 (x - Int.u8 (y + carry_in s))).
  { unfold sbc, carry_in. now destruct (f_getFlag flagC s). }
  unfold f_getFlag. rewrite Hf, Hres.
  destruct (flags_of_getFlag
              (Int.u8 (x - Int.u8 (y + carry_in s)) =? 0) true
              (Z.land x 0x0F >=? Int.u8 (Z.land y 0x0F + carry_in s))
              (x >=? Int.u8 (y + carry_in s)))
    as (Hz & Hn & _ & Hcy & _).
  rewrite Hz, Hn, Hcy.
  split; [unfold Int.u8; Z.div_mod_to_equations; lia | ].
  split; [reflexivity | split; [reflexivity | ]].
  split; [ | split].
  - intros Hsmall. rewrite IntFacts.u8_small by lia.
    destruct (Z.geb_spec x (y + carry_in s)), (Z.leb_spec (y + carry_in s) x);
      try reflexivity; lia.
  - intros Hwrap. rewrite Hwrap. cbn [Int.u8]. unfold Int.u8.
    rewrite Z.mod_same, Z.sub_0_r by lia.
    split; [apply Z.geb_le; lia | apply Z.mod_small; lia].
  - intros Hclear. unfold sbc, sub, f_getFlag. rewrite Hclear.
    rewrite !Z.add_0_r. rewrite (IntFacts.u8_small y) by lia.
    rewrite (IntFacts.u8_small (Z.land y 0x0F))
      by (pose proof (nibble_range y); lia).
    reflexivity.
Qed.

(** The two bytes of a 16-bit word as [addWordR] takes them. *)
Lemma word_bytes (w : Z) :
  0 <= w < 65536 ->
  Int.u8 (Z.shiftr w 8) = w / 256 /\ Int.u8 (Z.land w 0xFF) = w mod 256.
Proof.
  intros Hw. rewrite Z.shiftr_div_pow2 by lia.
  change 0xFF with (Z.ones 8). rewrite Z.land_ones by lia.
  change (2 ^ 8) with 256. unfold Int.u8. split.
  - apply Z.mod_small. Z.div_mod_to_equations. lia.
  - apply Z.mod_small. apply Z.mod_pos_bound. lia.
Qed.

Lemma adc_result (x y : Z) (s : cpu M) :
  fst (adc x y s) = Int.u8 (x + y + carry_in s).
Proof. unfold adc, carry_in. now destruct (f_getFlag flagC s). Qed.

Lemma sbc_result (x y : Z) (s : cpu M) :
  fst (sbc x y s) = Int.u8 (x - Int.u8 (y + carry_in s)).
Proof. unfold sbc, carry_in. now destruct (f_getFlag flagC s). Qed.

Lemma addWordR_nonneg (w n : Z) (s : cpu M) :
  0 <= n ->
  fst (addWordR w n s)
  = Int.u16
      (Z.shiftl
         (fst (adc (Int.u8 (Z.shiftr w 8)) 0
                   (snd (add (Int.u8 (Z.land w 0xFF)) (Int.u8 n) s)))) 8
       + fst (add (Int.u8 (Z.land w 0xFF)) (Int.u8 n) s)).
Proof.
  intros Hn. unfold addWordR.
  destruct (Z.ltb_spec n 0); [lia | ].
  destruct (add (Int.u8 (Z.land w 0xFF)) (Int.u8 n) s) as [lo s1].
  cbn [fst snd].
  destruct (adc (Int.u8 (Z.shiftr w 8)) 0 s1) as [hi s2]. reflexivity.
Qed.

Lemma addWordR_neg (w n : Z) (s : cpu M) :
  n < 0 ->
  fst (addWordR w n s)
  = Int.u16
      (Z.shiftl
         (fst (sbc (Int.u8 (Z.shiftr w 8)) 0
                   (snd (sub (Int.u8 (Z.land w 0xFF))
                             (Int.u8 (Int.i8 (- n))) s)))) 8
       + fst (sub (Int.u8 (Z.land w 0xFF)) (Int.u8 (Int.i8 (- n))) s)).
Proof.
  intros Hn. unfold addWordR.
  destruct (Z.ltb_spec n 0); [ | lia].
  destruct (sub (Int.u8 (Z.land w 0xFF)) (Int.u8 (Int.i8 (- n))) s)
    as [lo s1].
  cbn [fst snd].
  destruct (sbc (Int.u8 (Z.shiftr w 8)) 0 s1) as [hi s2]. reflexivity.
Qed.

(** X8. For a non-negative offset [addWordR] is the 16-bit sum: the carry
    of the low byte is taken into the high byte. *)
Theorem addWordR_forward (w n : Z) (s : cpu M) :
  0 <= w < 65536 -> 0 <= n < 128 ->
  fst (addWordR w n s) = (w + n) mod 65536.
Proof.
  intros Hw Hn. rewrite addWordR_nonneg by lia.
  destruct (word_bytes w Hw) as [Hhi Hlo]. rewrite Hhi, Hlo.
  rewrite (IntFacts.u8_small n) by lia.
  assert (Hlo_r : 0 <= w mod 256 < 256) by (apply Z.mod_pos_bound; lia).
  assert (Hhi_r : 0 <= w / 256 < 256) by (Z.div_mod_to_equations; lia).
  rewrite adc_result. unfold carry_in.
  rewrite (add_carry (w mod 256) n s) by lia.
  rewrite add_result, Z.shiftl_mul_pow2 by lia. change (2 ^ 8) with 256.
  unfold Int.u8, Int.u16.
  destruct (Z.gtb_spec (w mod 256 + n) 0xFF);
    Z.div_mod_to_equations; lia.
Qed.

(** X9. For a negative offset [addWordR] is off by 256: [sub] sets the
    carry when the low byte did not borrow and [sbc] then takes that carry
    for a borrow, so the high byte drops by one exactly when it should
    not. *)
Theorem addWordR_backward (w n : Z) (s : cpu M) :
  0 <= w < 65536 -> -128 <= n < 0 ->
  fst (addWordR w n s)
  = (w + n + (if - n <=? w mod 256 then -256 else 256)) mod 65536 /\
  fst (addWordR w n s) <> (w + n) mod 65536.
Proof.
  intros Hw Hn.
  assert (Hbu : Int.u8 (Int.i8 (- n)) = - n).
  { unfold Int.u8, Int.i8. cbv zeta.
    destruct (Z.ltb_spec (- n mod 256) 128); Z.div_mod_to_equations; lia. }
  assert (Hval : fst (addWordR w n s)
                 = (w + n + (if - n <=? w mod 256 then -256 else 256))
                     mod 65536).
  { rewrite addWordR_neg by lia.
    destruct (word_bytes w Hw) as [Hhi Hlo]. rewrite Hhi, Hlo, Hbu.
    rewrite sbc_result. unfold carry_in. rewrite sub_carry, sub_result.
    rewrite Z.shiftl_mul_pow2 by lia. change (2 ^ 8) with 256.
    unfold Int.u8, Int.u16.
    destruct (Z.geb_spec (w mod 256) (- n)), (Z.leb_spec (- n) (w mod 256));
      try lia; Z.div_mod_to_equations; lia. }
  split; [exact Hval | ].
  rewrite Hval.
  destruct (- n <=? w mod 256); Z.div_mod_to_equations; lia.
Qed.

(** *** Rotates through the carry *)

Lemma bit7 (n : Z) : 0 <= n < 256 -> (Z.land n 0x80 =? 0x80) = (128 <=? n).
Proof.
  intros Hn. change (Z.land n 0x80 =? 0x80) with (Reg.getFlag n (2 ^ 7)).
  rewrite getFlag_bit, Z.testbit_eqb by lia. change (2 ^ 7) with 128.
  destruct (Z.leb_spec 128 n), (Z.eqb_spec ((n / 128) mod 2) 1);
    try reflexivity; Z.div_mod_to_equations; lia.
Qed.

Lemma bit0 (n : Z) : (Z.land n 0x01 =? 0x01) = Z.odd n.
Proof.
  change (Z.land n 0x01 =? 0x01) with (Reg.getFlag n (2 ^ 0)).
  rewrite getFlag_bit by lia. apply Z.bit0_odd.
Qed.

Lemma rl_result (n : Z) (s : cpu M) :
  0 <= n < 256 -> fst (rl n s) = (2 * n + carry_in s) mod 256.
Proof.
  intros Hn. unfold rl, carry_in. rewrite Z.shiftl_mul_pow2 by lia.
  destruct (f_getFlag flagC s); cbn [fst]; unfold Int.u8;
    Z.div_mod_to_equations; lia.
Qed.

Lemma rr_result (n : Z) (s : cpu M) :
  0 <= n < 256 -> fst (rr n s) = n / 2 + 128 * carry_in s.
Proof.
  intros Hn. unfold rr, carry_in. rewrite Z.shiftr_div_pow2 by lia.
  destruct (f_getFlag flagC s); cbn [fst]; unfold Int.u8;
    change (Z.shiftl 1 7) with 128; Z.div_mod_to_equations; lia.
Qed.

Lemma rl_f (n : Z) (s : cpu M) :
  f (snd (rl n s))
  = flags_of (fst (rl n s) =? 0) false false (Z.land n 0x80 =? 0x80).
Proof.
  unfold rl. destruct (f_getFlag flagC s); cbn [fst snd];
    match goal with
    | |- context [(?r =? 0)] =>
        destruct (r =? 0), (Z.land n 0x80 =? 0x80)
    end; reflexivity.
Qed.

Lemma rr_f (n : Z) (s : cpu M) :
  f (snd (rr n s))
  = flags_of (fst (rr n s) =? 0) false false (Z.land n 0x01 =? 0x01).
Proof.
  unfold rr. destruct (f_getFlag flagC s); cbn [fst snd];
    match goal with
    | |- context [(?r =? 0)] =>
        destruct (r =? 0), (Z.land n 0x01 =? 0x01)
    end; reflexivity.
Qed.

Lemma rl_carry (n : Z) (s : cpu M) :
  0 <= n < 256 -> f_getFlag flagC (snd (rl n s)) = (128 <=? n).
Proof.
  intros Hn. unfold f_getFlag. rewrite rl_f, (bit7 n Hn).
  now destruct (flags_of_getFlag (fst (rl n s) =? 0) false false (128 <=? n))
    as (_ & _ & _ & Hc & _).
Qed.

Lemma rr_carry (n : Z) (s : cpu M) :
  f_getFlag flagC (snd (rr n s)) = Z.odd n.
Proof.
  unfold f_getFlag. rewrite rr_f, bit0.
  now destruct (flags_of_getFlag (fst (rr n s) =? 0) false false (Z.odd n))
    as (_ & _ & _ & Hc & _).
Qed.

(** X10. [rl] and [rr] rotate the nine bits made of the byte and the carry
    flag: [rl] gives [2n + carry] with bit 7 going to the carry, [rr] gives
    [n / 2] with the carry coming in as bit 7 and bit 0 going to the carry;
    each undoes the other, byte and carry alike. *)
Theorem rotate_through_carry (n : Z) (s : cpu M) :
  0 <= n < 256 ->
  fst (rl n s) + 256 * Z.b2z (f_getFlag flagC (snd (rl n s)))
  = 2 * n + carry_in s /\
  2 * fst (rr n s) + Z.b2z (f_getFlag flagC (snd (rr n s)))
  = n + 256 * carry_in s /\
  0 <= fst (rl n s) < 256 /\ 0 <= fst (rr n s) < 256 /\
  fst (rr (fst (rl n s)) (snd (rl n s))) = n /\
  carry_in (snd (rr (fst (rl n s)) (snd (rl n s)))) = carry_in s /\
  fst (rl (fst (rr n s)) (snd (rr n s))) = n /\
  carry_in (snd (rl (fst (rr n s)) (snd (rr n s)))) = carry_in s.
Proof.
  intros Hn. pose proof (carry_in_range s) as Hc.
  assert (Hrl : 0 <= fst (rl n s) < 256).
  { rewrite rl_result by exact Hn. apply Z.mod_pos_bound. lia. }
  assert (Hrr : 0 <= fst (rr n s) < 256).
  { rewrite rr_result by exact Hn. Z.div_mod_to_equations. lia. }
  assert (Hodd : forall x, Z.b2z (Z.odd x) = x mod 2).
  { intros x. rewrite Zmod_odd. now destruct (Z.odd x). }
  split; [ | split; [ | split; [exact Hrl | split; [exact Hrr | ]]]].
  - rewrite rl_carry, rl_result by exact Hn.
    destruct (Z.leb_spec 128 n); cbn [Z.b2z]; Z.div_mod_to_equations; lia.
  - rewrite rr_carry, rr_result, Hodd by exact Hn.
    Z.div_mod_to_equations. lia.
  - split; [ | split; [ | split]].
    + rewrite rr_result by exact Hrl.
      rewrite carry_in_flag, rl_carry by exact Hn.
      rewrite rl_result by exact Hn.
      destruct (Z.leb_spec 128 n); cbn [Z.b2z]; Z.div_mod_to_equations; lia.
    + rewrite (carry_in_flag (snd (rr _ _))), rr_carry, Hodd.
      rewrite rl_result by exact Hn. Z.div_mod_to_equations. lia.
    + rewrite rl_result by exact Hrr. rewrite carry_in_flag, rr_carry, Hodd.
      rewrite rr_result by exact Hn. Z.div_mod_to_equations. lia.
    + rewrite (carry_in_flag (snd (rl _ _))), rl_carry by exact Hrr.
      rewrite rr_result by exact Hn.
      destruct (Z.leb_spec 128 (n / 2 + 128 * carry_in s)); cbn [Z.b2z];
        Z.div_mod_to_equations; lia.
Qed.

End Carry.

(** *** Conditional jumps, fetch and step of the earlier CPU *)

Section Control.

Context {M : Type} `{mmu M}.

Lemma jr_frame (n : Z) (s : cpu M) :
  same_but_pc_inst s (jr n s) /\ inst (jr n s) = inst s.
Proof.
  unfold jr, same_but_pc_inst.
  destruct (n <? 0); cbn; repeat split; reflexivity.
Qed.

Lemma same_but_pc_inst_refl (s : cpu M) : same_but_pc_inst s s.
Proof. unfold same_but_pc_inst. repeat split; reflexivity. Qed.

(** X11. [jrF] and [jrNF] on the same flag and a forward offset: exactly
    one of them jumps, to [PC + n] modulo 2^16, and the other leaves the
    CPU as it is; neither touches anything but the PC. *)
Theorem jr_conditional (mask n : Z) (s : cpu M) :
  0 <= n < 128 ->
  (f_getFlag mask s = true ->
   pc (jrF mask n s) = (pc s + n) mod 65536 /\ jrNF mask n s = s) /\
  (f_getFlag mask s = false ->
   pc (jrNF mask n s) = (pc s + n) mod 65536 /\ jrF mask n s = s) /\
  same_but_pc_inst s (jrF mask n s) /\ inst (jrF mask n s) = inst s /\
  same_but_pc_inst s (jrNF mask n s) /\ inst (jrNF mask n s) = inst s.
Proof.
  intros Hn. unfold jrF, jrNF.
  destruct (f_getFlag mask s); cbn [Bool.eqb].
  - split; [intros _; split; [now apply jr_forward | reflexivity] | ].
    split; [discriminate | ].
    split; [apply jr_frame | split; [apply jr_frame | ]].
    split; [apply same_but_pc_inst_refl | reflexivity].
  - split; [discriminate | ].
    split; [intros _; split; [now apply jr_forward | reflexivity] | ].
    split; [apply same_but_pc_inst_refl | split; [reflexivity | ]].
    split; apply jr_frame.
Qed.

Section Table.

Variable tbl : Z -> option (command M).

Lemma fetch_operands_spec (n : nat) :
  forall (s s' : cpu M),
    0 <= pc s < 65536 ->
    fetch_operands n s = Ok s' ->
    pc s' = (pc s + Z.of_nat n) mod 65536 /\
    o (inst s') = o (inst s) /\
    length (p (inst s')) = (length (p (inst s)) + n)%nat /\
    same_but_pc_inst s s'.
Proof.
  induction n as [ | n IH]; intros s s' Hpc Hf; cbn [fetch_operands] in Hf.
  - injection Hf as <-. rewrite Z.add_0_r, Nat.add_0_r, Z.mod_small by lia.
    split; [reflexivity | split; [reflexivity | split; [reflexivity | ]]].
    apply same_but_pc_inst_refl.
  - apply bind_Ok in Hf as (v & Hv & Hf).
    apply IH in Hf; [ | cbn; apply IntFacts.u16_range].
    cbn [inst pc with_inst with_pc o p] in Hf.
    destruct Hf as (Hpc' & Ho & Hlen & Hsame).
    split.
    { rewrite Hpc'. unfold Int.u16. rewrite Z.add_mod_idemp_l by lia.
      f_equal. lia. }
    split; [exact Ho | ].
    split; [rewrite Hlen, length_app; cbn; lia | ].
    unfold same_but_pc_inst in Hsame |- *. cbn in Hsame. exact Hsame.
Qed.

(** X12. [fetch] consumes exactly the instruction: one opcode byte, or two
    when the first is 0xCB (the opcode then being [0xCB00 + second]), and
    then the operand bytes the table asks for (none for an opcode the table
    leaves out); PC advances by that many bytes modulo 2^16 and nothing
    else but the instruction buffer changes. *)
Theorem fetch_length (s s' : cpu M) :
  0 <= pc s < 65536 ->
  fetch tbl s = Ok s' ->
  exists b0,
    readByte (mc s) (pc s) = Ok b0 /\
    (b0 <> 0xCB -> o (inst s') = b0) /\
    (b0 = 0xCB ->
     exists b1, readByte (mc s) (Int.u16 (pc s + 1)) = Ok b1 /\
                o (inst s') = Int.u16 (0xCB00 + b1)) /\
    length (p (inst s')) = operand_count tbl (o (inst s')) /\
    pc s'
    = (pc s + (if b0 =? 0xCB then 2 else 1)
       + Z.of_nat (operand_count tbl (o (inst s')))) mod 65536 /\
    same_but_pc_inst s s'.
Proof.
  intros Hpc Hf. unfold fetch in Hf.
  apply bind_Ok in Hf as (b0 & Hb0 & Hf).
  apply bind_Ok in Hf as ([op s1] & Hop & Hf).
  exists b0. split; [exact Hb0 | ].
  destruct (Z.eqb_spec b0 0xCB) as [Hcb | Hncb].
  - apply bind_Ok in Hop as (b1 & Hb1 & Hop).
    cbn [pc with_pc mc] in Hb1, Hop. injection Hop as <- <-.
    apply fetch_operands_spec in Hf; [ | cbn; apply IntFacts.u16_range].
    cbn [inst pc with_inst with_pc o p length] in Hf.
    destruct Hf as (Hpc' & Ho & Hlen & Hsame).
    rewrite Ho. unfold operand_count.
    split; [intros Habs; contradiction | ].
    split; [intros _; exists b1; split; [exact Hb1 | reflexivity] | ].
    split; [exact Hlen | ].
    split.
    { rewrite Hpc'. unfold Int.u16. Z.div_mod_to_equations. lia. }
    unfold same_but_pc_inst in Hsame |- *. cbn in Hsame. exact Hsame.
  - injection Hop as <- <-.
    apply fetch_operands_spec in Hf; [ | cbn; apply IntFacts.u16_range].
    cbn [inst pc with_inst with_pc o p length] in Hf.
    destruct Hf as (Hpc' & Ho & Hlen & Hsame).
    rewrite Ho. unfold operand_count.
    split; [intros _; reflexivity | ].
    split; [intros Habs; contradiction | ].
    split; [exact Hlen | ].
    split.
    { rewrite Hpc'. unfold Int.u16. Z.div_mod_to_equations. lia. }
    unfold same_but_pc_inst in Hsame |- *. cbn in Hsame. exact Hsame.
Qed.

Hypothesis tbl_keeps_clocks : table_keeps_clocks tbl.

(** X13. A step credits the table's cycles: with executors that add
    nothing of their own, [step] returns the [t] of the entry executed
    (mod 256) and leaves [m] at four times as much (mod 256), and returns 0
    for an opcode the table leaves out. *)
Theorem step_cycles (s s' : cpu M) (r : Z) :
  0 <= pc s < 65536 ->
  step tbl s = Ok (r, s') ->
  r = t s' /\
  match tbl (o (inst s')) with
  | Some cmd =>
      t s' = cmd_t cmd mod 256 /\ m s' = (cmd_t cmd * 4) mod 256 /\
      (0 <= cmd_t cmd < 64 -> m s' = 4 * t s')
  | None => t s' = 0 /\ m s' = 0
  end.
Proof.
  intros Hpc Hs. unfold step in Hs.
  apply bind_Ok in Hs as (s1 & Hfetch & Hs).
  apply bind_Ok in Hs as (s2 & Hexec & Hs).
  injection Hs as <- <-. split; [reflexivity | ].
  destruct (fetch_length (with_clocks 0 0 s) s1 Hpc Hfetch)
    as (b0 & _ & _ & _ & _ & _ & Hsame).
  unfold same_but_pc_inst in Hsame. cbn in Hsame.
  destruct Hsame as (_ & _ & _ & _ & _ & _ & _ & _ & _ & Hm & Ht & _).
  unfold execute in Hexec. cbv zeta in Hexec.
  set (s1' := if pc s1 =? 0x0100
              then with_mc (unloadBios (mc s1)) s1 else s1) in Hexec.
  assert (Hs1' : inst s1' = inst s1 /\ m s1' = 0 /\ t s1' = 0).
  { subst s1'. destruct (pc s1 =? 0x0100); cbn; auto. }
  destruct Hs1' as (Hi1 & Hm1 & Ht1).
  destruct (tbl (o (inst s1'))) as [cmd | ] eqn:Hcmd.
  - apply bind_Ok in Hexec as (s3 & Hrun & Hexec). injection Hexec as <-.
    destruct (tbl_keeps_clocks _ _ _ _ Hcmd Hrun) as (Hm3 & Ht3 & Hi3).
    cbn [inst with_clocks t m]. rewrite Hi3, Hcmd, Hm3, Ht3, Hm1, Ht1.
    unfold Int.u8. rewrite !Z.add_0_l, Z.mod_mod by lia.
    split; [reflexivity | split; [reflexivity | ]].
    intros Hsmall. rewrite !Z.mod_small by lia. lia.
  - injection Hexec as <-. rewrite Hcmd. split; assumption.
Qed.

End Table.

End Control.

(** *** Calls and the stack *)

Section Stack.

Context {M : Type} `{mmu M}.


End Stack.

(** *** The theorems above at concrete inputs *)

Lemma jr_table_keeps_clocks : table_keeps_clocks Scenario.jr_table.
Proof.
  intros op cmd s s' Hcmd Hrun. unfold Scenario.jr_table in Hcmd.
  destruct (op =? 0x00).
  - injection Hcmd as <-. cbn in Hrun. injection Hrun as <-. auto.
  - destruct (op =? 0x20); [ | discriminate].
    injection Hcmd as <-. cbn [cmd_f] in Hrun. injection Hrun as <-.
    unfold jrNF, jr.
    destruct (Bool.eqb (f_getFlag flagZ s) false); [ | auto].
    destruct (_ <? 0); cbn; auto.
Qed.

Lemma inc_flags_witness :
  0 <= 0x0F < 256 /\
  fst (inc 0x0F Scenario.jr_cpu) = 0x10 /\
  f_getFlag flagH (snd (inc 0x0F Scenario.jr_cpu)) = true /\
  f_getFlag flagZ (snd (inc 0x0F Scenario.jr_cpu)) = false.
Proof.
  split; [lia | ].
  destruct (inc_flags 0x0F Scenario.jr_cpu ltac:(lia))
    as (Hr & _ & Hz & _ & Hh & _).
  split; [exact Hr | split; [exact Hh | exact Hz]].
Defined.

Lemma dec_flags_witness :
  0 <= 0x01 < 256 /\
  fst (dec 0x01 Scenario.jr_cpu) = 0x00 /\
  f_getFlag flagZ (snd (dec 0x01 Scenario.jr_cpu)) = true /\
  f_getFlag flagN (snd (dec 0x01 Scenario.jr_cpu)) = true.
Proof.
  split; [lia | ].
  destruct (dec_flags 0x01 Scenario.jr_cpu ltac:(lia))
    as (Hr & _ & Hz & Hn & _).
  split; [exact Hr | split; [exact Hz | exact Hn]].
Defined.

Lemma inc_dec_round_trip_witness :
  0 <= 0xFF < 256 /\
  fst (inc 0xFF Scenario.jr_cpu) = 0x00 /\
  fst (dec (fst (inc 0xFF Scenario.jr_cpu)) (snd (inc 0xFF Scenario.jr_cpu)))
  = 0xFF.
Proof.
  split; [lia | split; [reflexivity | ]].
  exact (proj1 (inc_dec_round_trip 0xFF Scenario.jr_cpu ltac:(lia))).
Defined.

Lemma bit_flags_witness :
  0 <= 7 < 8 /\ 0 <= 0x7F < 256 /\
  f_getFlag flagZ (bit 7 0x7F Scenario.jr_cpu) = true /\
  f_getFlag flagH (bit 7 0x7F Scenario.jr_cpu) = true.
Proof.
  split; [lia | split; [lia | ]].
  destruct (bit_flags 7 0x7F Scenario.jr_cpu ltac:(lia) ltac:(lia))
    as (Hz & _ & Hh & _).
  split; [exact Hz | exact Hh].
Defined.

Lemma logic_flags_witness :
  0 <= 0x5A < 256 /\ 0 <= 0x0F < 256 /\
  fst (and 0x5A 0x0F Scenario.jr_cpu) = 0x0A /\
  f (snd (and 0x5A 0x0F Scenario.jr_cpu)) = 0x20 /\
  fst (xor 0x5A 0x5A Scenario.jr_cpu) = 0x00 /\
  f (snd (xor 0x5A 0x5A Scenario.jr_cpu)) = 0x80.
Proof.
  split; [lia | split; [lia | ]].
  destruct (logic_flags 0x5A 0x0F Scenario.jr_cpu ltac:(lia) ltac:(lia))
    as ((Hr & _ & Hf & _) & _ & _ & Hx & Hxf).
  split; [exact Hr | split; [exact Hf | split; [exact Hx | exact Hxf]]].
Defined.

Lemma adc_carry_chain_witness :
  0 <= 0xFF < 256 /\ 0 <= 0x01 < 256 /\
  fst (adc 0xFF 0x01 Scenario.jr_cpu)
  + 256 * Z.b2z (f_getFlag flagC (snd (adc 0xFF 0x01 Scenario.jr_cpu)))
  = 0x100.
Proof.
  split; [lia | split; [lia | ]].
  exact (proj1 (adc_carry_chain 0xFF 0x01 Scenario.jr_cpu
                  ltac:(lia) ltac:(lia))).
Defined.

Lemma sbc_borrow_chain_witness :
  0 <= 0x10 < 256 /\ 0 <= 0x01 < 256 /\
  fst (sbc 0x10 0x01 Scenario.jr_cpu) = 0x0F /\
  f_getFlag flagC (snd (sbc 0x10 0x01 Scenario.jr_cpu)) = true.
Proof.
  split; [lia | split; [lia | ]].
  destruct (sbc_borrow_chain 0x10 0x01 Scenario.jr_cpu ltac:(lia) ltac:(lia))
    as (Hr & _ & _ & Hc & _).
  split; [exact Hr | ].
  rewrite Hc by (vm_compute; reflexivity). reflexivity.
Defined.

Lemma addWordR_forward_witness :
  0 <= 0x00FF < 65536 /\ 0 <= 1 < 128 /\
  fst (addWordR 0x00FF 1 Scenario.jr_cpu) = 0x0100.
Proof.
  split; [lia | split; [lia | ]].
  exact (addWordR_forward 0x00FF 1 Scenario.jr_cpu ltac:(lia) ltac:(lia)).
Defined.

Lemma addWordR_backward_witness :
  0 <= 0x0105 < 65536 /\ -128 <= -1 < 0 /\
  fst (addWordR 0x0105 (-1) Scenario.jr_cpu) = 0x0004 /\
  (0x0105 + -1) mod 65536 = 0x0104.
Proof.
  split; [lia | split; [lia | ]].
  split; [ | reflexivity].
  exact (proj1 (addWordR_backward 0x0105 (-1) Scenario.jr_cpu
                  ltac:(lia) ltac:(lia))).
Defined.

Lemma rotate_through_carry_witness :
  0 <= 0x81 < 256 /\
  fst (rl 0x81 Scenario.jr_cpu) = 0x02 /\
  fst (rr (fst (rl 0x81 Scenario.jr_cpu)) (snd (rl 0x81 Scenario.jr_cpu)))
  = 0x81.
Proof.
  split; [lia | split; [reflexivity | ]].
  destruct (rotate_through_carry 0x81 Scenario.jr_cpu ltac:(lia))
    as (_ & _ & _ & _ & Hback & _).
  exact Hback.
Defined.

Lemma jr_conditional_witness :
  0 <= 5 < 128 /\ f_getFlag flagZ Scenario.jr_cpu = false /\
  pc (jrNF flagZ 5 Scenario.jr_cpu) = 0x0005 /\
  jrF flagZ 5 Scenario.jr_cpu = Scenario.jr_cpu.
Proof.
  split; [lia | split; [reflexivity | ]].
  destruct (jr_conditional flagZ 5 Scenario.jr_cpu ltac:(lia))
    as (_ & Hnf & _).
  exact (Hnf eq_refl).
Defined.

Lemma fetch_length_witness :
  let s' := with_inst (newInstruction 0x20 [0xFB])
              (with_pc 0x0002 Scenario.jr_cpu) in
  fetch Scenario.jr_table Scenario.jr_cpu = Ok s' /\
  pc s' = 0x0002 /\ length (p (inst s')) = 1%nat.
Proof.
  intros s'. split; [reflexivity | ].
  destruct (fetch_length Scenario.jr_table Scenario.jr_cpu s')
    as (b0 & Hb0 & _ & _ & Hlen & Hpc & _); [cbn; lia | reflexivity | ].
  split; [reflexivity | exact Hlen].
Defined.

Lemma step_cycles_witness :
  let s' := with_clocks 32 8
              (with_inst (newInstruction 0x20 [0xFB])
                 (with_pc 0x0007 Scenario.jr_cpu)) in
  step Scenario.jr_table Scenario.jr_cpu = Ok (8, s') /\
  t s' = 8 /\ m s' = 4 * t s'.
Proof.
  intros s'. split; [reflexivity | ].
  destruct (step_cycles Scenario.jr_table jr_table_keeps_clocks
              Scenario.jr_cpu s' 8) as (Ht & _); [cbn; lia | reflexivity | ].
  split; [symmetry; exact Ht | reflexivity].
Defined.


End AluFacts.

(** ** More of the MMU and of the later CPU's memory accesses *)

Module MmuFacts.
Import Jibi JibiSpec JibiFacts.

(** *** The address map *)

Ltac cmp_hyps :=
  repeat match goal with
         | H : (_ && _) = true |- _ => apply andb_true_iff in H; destruct H
         | H : (_ && _) = false |- _ => apply andb_false_iff in H
         | H : (_ <? _) = true |- _ => apply Z.ltb_lt in H
         | H : (_ <? _) = false |- _ => apply Z.ltb_ge in H
         | H : (_ <=? _) = true |- _ => apply Z.leb_le in H
         | H : (_ <=? _) = false |- _ => apply Z.leb_gt in H
         | H : (_ =? _) = true |- _ => apply Z.eqb_eq in H
         | H : (_ =? _) = false |- _ => apply Z.eqb_neq in H
         end.

Ltac block_eqs :=
  repeat match goal with
         | |- context [?x =? ?y] =>
             let r := eval vm_compute in (x =? y) in
             match r with
             | true => change (x =? y) with true
             | false => change (x =? y) with false
             end
         end;
  cbv iota.

Ltac addrs :=
  unfold AddrVRam, AddrERam, AddrRam, AddrOam, AddrOamEnd, AddrP1, AddrIF,
    AddrGpuRegs, AddrGpuRegsEnd, AddrZero, AddrIE in *.

(** Every address falls in exactly one case of [selectAddressBlock]. *)
Lemma select_cases (ad : Z) (rw : string) :
  (ad < 0x8000 /\ selectAddressBlock ad rw = Ok (abRom, 0)) \/
  (0x8000 <= ad < 0xA000 /\ selectAddressBlock ad rw = Ok (abVRam, 0x8000)) \/
  (0xA000 <= ad < 0xC000 /\ selectAddressBlock ad rw = Ok (abERam, 0xA000)) \/
  (0xC000 <= ad < 0xFE00 /\ selectAddressBlock ad rw = Ok (abRam, 0xC000)) \/
  (0xFE00 <= ad < 0xFEA0 /\ selectAddressBlock ad rw = Ok (abOam, 0xFE00)) \/
  (ad = 0xFF00 /\ selectAddressBlock ad rw = Ok (abP1, 0xFF00)) \/
  (ad = 0xFF0F /\ selectAddressBlock ad rw = Ok (abIF, 0xFF0F)) \/
  (0xFF40 <= ad < 0xFF4C /\
   selectAddressBlock ad rw = Ok (abGpuRegs, 0xFF40)) \/
  (0xFF80 <= ad < 0xFFFF /\ selectAddressBlock ad rw = Ok (abZero, 0xFF80)) \/
  (ad = 0xFFFF /\ selectAddressBlock ad rw = Ok (abIE, 0xFFFF)) \/
  ((0xFEA0 <= ad < 0xFF00 \/ 0xFF00 < ad < 0xFF0F \/ 0xFF0F < ad < 0xFF40 \/
    0xFF4C <= ad < 0xFF80 \/ 0xFFFF < ad) /\
   ((snd (getAddressInfo ad) = true /\
     selectAddressBlock ad rw = Ok (abNil, 0)) \/
    (snd (getAddressInfo ad) = false /\
     exists e, selectAddressBlock ad rw = Panic e))).
Proof.
  unfold selectAddressBlock. addrs.
  destruct (getAddressInfo ad) as [u v]. cbn [snd].
  destruct (ad <? 0x8000) eqn:H0; [cmp_hyps; tauto | ].
  destruct ((0x8000 <=? ad) && (ad <? 0xA000)) eqn:H1;
    [cmp_hyps; right; left; split; [lia | reflexivity] | ].
  destruct ((0xA000 <=? ad) && (ad <? 0xC000)) eqn:H2;
    [cmp_hyps; do 2 right; left; split; [lia | reflexivity] | ].
  destruct ((0xC000 <=? ad) && (ad <? 0xFE00)) eqn:H3;
    [cmp_hyps; do 3 right; left; split; [lia | reflexivity] | ].
  destruct ((0xFE00 <=? ad) && (ad <? 0xFEA0)) eqn:H4;
    [cmp_hyps; do 4 right; left; split; [lia | reflexivity] | ].
  destruct (0xFF00 =? ad) eqn:H5;
    [cmp_hyps; do 5 right; left; split; [lia | reflexivity] | ].
  destruct (0xFF0F =? ad) eqn:H6;
    [cmp_hyps; do 6 right; left; split; [lia | reflexivity] | ].
  destruct ((0xFF40 <=? ad) && (ad <? 0xFF4C)) eqn:H7;
    [cmp_hyps; do 7 right; left; split; [lia | reflexivity] | ].
  destruct ((0xFF80 <=? ad) && (ad <? 0xFFFF)) eqn:H8;
    [cmp_hyps; do 8 right; left; split; [lia | reflexivity] | ].
  destruct (0xFFFF =? ad) eqn:H9;
    [cmp_hyps; do 9 right; left; split; [lia | reflexivity] | ].
  do 10 right. cmp_hyps. split; [lia | ].
  destruct v; cbn [negb]; [left | right; split; [ | eexists]]; auto.
Qed.

Lemma is_panic_select_rw (ad : Z) (rw rw' : string) :
  is_panic (selectAddressBlock ad rw) = is_panic (selectAddressBlock ad rw').
Proof.
  unfold selectAddressBlock. destruct (getAddressInfo ad) as [u v].
  split_ifs; reflexivity.
Qed.

(** The 352 addresses from 0xFEA0 up, where the unbacked ones lie. *)
Lemma unhandled_top :
  forallb
    (fun i =>
       Bool.eqb (is_panic (selectAddressBlock (0xFEA0 + Z.of_nat i) ""))
                (existsb (Z.eqb (0xFEA0 + Z.of_nat i)) unhandled))
    (seq 0 352) = true.
Proof. vm_compute. reflexivity. Qed.

Lemma existsb_eqb_In (x : Z) (l : list Z) :
  existsb (Z.eqb x) l = true <-> In x l.
Proof.
  rewrite existsb_exists. split.
  - intros (y & Hin & Heq). apply Z.eqb_eq in Heq. now subst y.
  - intros Hin. exists x. split; [exact Hin | apply Z.eqb_refl].
Qed.

(** X14. Of the 65536 addresses exactly the nineteen of [unhandled] make
    [selectAddressBlock], and with it every lock, unlock, read and write,
    panic on unhandled memory.  The other addresses outside the regions are
    known but unbacked: whatever the caller's keys, a read of one of them
    returns 0 and a write to it changes nothing. *)
Theorem unhandled_addresses (ad : Z) (rw : string) :
  0 <= ad < 65536 ->
  (is_panic (selectAddressBlock ad rw) = true <-> In ad unhandled) /\
  (In ad unhandled ->
   forall mm v ak,
     is_panic (ReadByteAt mm ad ak) = true /\
     is_panic (WriteByteAt mm ad v ak) = true /\
     is_panic (LockAddr mm ad ak) = true /\
     is_panic (UnlockAddr mm ad ak) = true) /\
  (region ad = None -> ~ In ad unhandled ->
   forall mm v ak,
     ReadByteAt mm ad ak = Ok 0 /\ WriteByteAt mm ad v ak = Ok mm /\
     LockAddr mm ad ak = Ok (mm, ak)).
Proof.
  intros Had.
  assert (Hiff : forall rw', is_panic (selectAddressBlock ad rw') = true
                             <-> In ad unhandled).
  { intros rw'. rewrite (is_panic_select_rw ad rw' "").
    destruct (Z.lt_ge_cases ad 0xFEA0) as [Hlow | Hhigh].
    - split.
      + destruct (select_cases ad "")
          as [[_ ->] | [[_ ->] | [[_ ->] | [[_ ->] | [[_ ->] | Hrest]]]]];
          try discriminate.
        exfalso. decompose [and or] Hrest; lia.
      + unfold unhandled. cbn [In]. lia.
    - pose proof unhandled_top as Htop.
      rewrite forallb_forall in Htop.
      specialize (Htop (Z.to_nat (ad - 0xFEA0))).
      rewrite in_seq in Htop.
      replace (0xFEA0 + Z.of_nat (Z.to_nat (ad - 0xFEA0))) with ad
        in Htop by lia.
      specialize (Htop ltac:(lia)). apply Bool.eqb_prop in Htop.
      rewrite Htop. apply existsb_eqb_In. }
  split; [apply Hiff | ]. split.
  - intros Hin mm v ak.
    unfold ReadByteAt, WriteByteAt, LockAddr, UnlockAddr.
    pose proof (proj2 (Hiff "read"%string) Hin) as Hr.
    pose proof (proj2 (Hiff "write"%string) Hin) as Hw.
    pose proof (proj2 (Hiff "lock"%string) Hin) as Hl.
    pose proof (proj2 (Hiff "unlock"%string) Hin) as Hu.
    destruct (selectAddressBlock ad "read"); try discriminate.
    destruct (selectAddressBlock ad "write"); try discriminate.
    destruct (selectAddressBlock ad "lock"); try discriminate.
    destruct (selectAddressBlock ad "unlock"); try discriminate.
    repeat split; reflexivity.
  - intros Hreg Hnot mm v ak.
    assert (Hnil : forall rw', selectAddressBlock ad rw' = Ok (abNil, 0)).
    { intros rw'. pose proof (Hiff rw') as Hp.
      unfold region in Hreg.
      destruct (select_cases ad rw')
        as [[_ H]|[[_ H]|[[_ H]|[[_ H]|[[_ H]|[[_ H]|[[_ H]|[[_ H]|[[_ H]|
            [[_ H]|[_ [[_ H]|[_ [e H]]]]]]]]]]]]]];
        try exact H;
        try (rewrite (selectAddressBlock_Ok ad rw' "" _ H) in Hreg;
             discriminate).
      exfalso. apply Hnot, Hp. now rewrite H. }
    assert (Hinfo : snd (getAddressInfo ad) = true).
    { pose proof (Hnil ""%string) as H0.
      destruct (select_cases ad "")
        as [[_ H]|[[_ H]|[[_ H]|[[_ H]|[[_ H]|[[_ H]|[[_ H]|[[_ H]|[[_ H]|
            [[_ H]|[_ [[Hi H]|[_ [e H]]]]]]]]]]]]]];
        try exact Hi; rewrite H0 in H; discriminate. }
    unfold ReadByteAt, WriteByteAt, LockAddr.
    rewrite !Hnil. cbn [bind]. unfold holds, abNil. rewrite Z.land_0_r.
    destruct (getAddressInfo ad) as [u ok]. cbn [snd] in Hinfo. subst ok.
    repeat split; reflexivity.
Qed.

Lemma unhandled_addresses_witness :
  0 <= 0xFF4C < 65536 /\ In 0xFF4C unhandled /\
  is_panic (ReadByteAt (NewMmu None) 0xFF4C 0xFFFF) = true /\
  region 0xFF01 = None /\
  WriteByteAt (NewMmu None) 0xFF01 0x42 0 = Ok (NewMmu None).
Proof.
  split; [lia | ].
  destruct (unhandled_addresses 0xFF4C "read" ltac:(lia)) as (_ & Hbad & _).
  destruct (unhandled_addresses 0xFF01 "write" ltac:(lia)) as (_ & _ & Hnil).
  assert (Hin : In 0xFF4C unhandled) by (cbn; tauto).
  split; [exact Hin | ].
  split; [exact (proj1 (Hbad Hin (NewMmu None) 0 0xFFFF)) | ].
  split; [reflexivity | ].
  destruct (Hnil eq_refl ltac:(unfold unhandled; cbn [In]; lia)
              (NewMmu None) 0x42 0) as (_ & Hw & _).
  exact Hw.
Defined.

Lemma select_of_range (ad : Z) (rw : string) :
  (ad < 0x8000 -> selectAddressBlock ad rw = Ok (abRom, 0)) /\
  (0x8000 <= ad < 0xA000 -> selectAddressBlock ad rw = Ok (abVRam, 0x8000)) /\
  (0xA000 <= ad < 0xC000 -> selectAddressBlock ad rw = Ok (abERam, 0xA000)) /\
  (0xC000 <= ad < 0xFE00 -> selectAddressBlock ad rw = Ok (abRam, 0xC000)) /\
  (0xFE00 <= ad < 0xFEA0 -> selectAddressBlock ad rw = Ok (abOam, 0xFE00)) /\
  (ad = 0xFF00 -> selectAddressBlock ad rw = Ok (abP1, 0xFF00)) /\
  (ad = 0xFF0F -> selectAddressBlock ad rw = Ok (abIF, 0xFF0F)) /\
  (0xFF40 <= ad < 0xFF4C ->
   selectAddressBlock ad rw = Ok (abGpuRegs, 0xFF40)) /\
  (0xFF80 <= ad < 0xFFFF -> selectAddressBlock ad rw = Ok (abZero, 0xFF80)) /\
  (ad = 0xFFFF -> selectAddressBlock ad rw = Ok (abIE, 0xFFFF)).
Proof.
  destruct (select_cases ad rw)
    as [[Ha Hs]|[[Ha Hs]|[[Ha Hs]|[[Ha Hs]|[[Ha Hs]|[[Ha Hs]|[[Ha Hs]|
        [[Ha Hs]|[[Ha Hs]|[[Ha Hs]|[Ha Hs]]]]]]]]]]];
    repeat split; intros; solve [exact Hs | lia].
Qed.

(** The addresses of each region. *)
Lemma region_cases (ad blk : Z) :
  region ad = Some blk ->
  (blk = abRom /\ ad < 0x8000) \/
  (blk = abVRam /\ 0x8000 <= ad < 0xA000) \/
  (blk = abERam /\ 0xA000 <= ad < 0xC000) \/
  (blk = abRam /\ 0xC000 <= ad < 0xFE00) \/
  (blk = abOam /\ 0xFE00 <= ad < 0xFEA0) \/
  (blk = abP1 /\ ad = 0xFF00) \/
  (blk = abIF /\ ad = 0xFF0F) \/
  (blk = abGpuRegs /\ 0xFF40 <= ad < 0xFF4C) \/
  (blk = abZero /\ 0xFF80 <= ad < 0xFFFF) \/
  (blk = abIE /\ ad = 0xFFFF).
Proof.
  unfold region. intros Hreg.
  destruct (select_cases ad "")
    as [[Ha Hs]|[[Ha Hs]|[[Ha Hs]|[[Ha Hs]|[[Ha Hs]|[[Ha Hs]|[[Ha Hs]|
        [[Ha Hs]|[[Ha Hs]|[[Ha Hs]|[Ha [[_ Hs]|[_ [err Hs]]]]]]]]]]]]]];
    rewrite Hs in Hreg; try discriminate;
    injection Hreg as <-; tauto.
Qed.

Lemma getAddressInfo_unknown (ad : Z) :
  0xA000 <= ad < 0xC000 -> getAddressInfo ad = info "unknown" false.
Proof. intros Had. unfold getAddressInfo. decide_cmp. reflexivity. Qed.

(** X15. The external (cartridge) RAM at 0xA000-0xBFFF is a region with a
    key of its own but no memory behind it: every [ReadByteAt] and
    [WriteByteAt] there panics, as unauthorized without the key and as
    unhandled memory with it, and no read or write of the CPU in that range
    ever returns. *)
Theorem external_ram_fatal (mm : Mmu) (ad v ak : Z) :
  0xA000 <= ad < 0xC000 ->
  region ad = Some abERam /\
  ReadByteAt mm ad ak
  = Panic (if holds ak abERam then UnhandledMemory "read" ad "unknown"
           else UnauthorizedRead ad) /\
  WriteByteAt mm ad v ak
  = Panic (if holds ak abERam then UnhandledMemory "write" ad "unknown"
           else UnauthorizedWrite ad v) /\
  (forall s r, readByte ad s <> Ok r) /\
  (forall s s', writeByte ad v s <> Ok s').
Proof.
  intros Had.
  destruct (select_of_range ad "") as (_ & _ & He & _).
  destruct (select_of_range ad "read") as (_ & _ & Her & _).
  destruct (select_of_range ad "write") as (_ & _ & Hew & _).
  assert (Hread : ReadByteAt mm ad ak
                  = Panic (if holds ak abERam
                           then UnhandledMemory "read" ad "unknown"
                           else UnauthorizedRead ad)).
  { unfold ReadByteAt. rewrite (Her Had). cbn [bind].
    rewrite (getAddressInfo_unknown ad Had). block_eqs.
    unfold info. now destruct (holds ak abERam). }
  assert (Hwrite : forall mm0 ak0,
             WriteByteAt mm0 ad v ak0
             = Panic (if holds ak0 abERam
                      then UnhandledMemory "write" ad "unknown"
                      else UnauthorizedWrite ad v)).
  { intros mm0 ak0. unfold WriteByteAt. rewrite (Hew Had). cbn [bind].
    rewrite (getAddressInfo_unknown ad Had). block_eqs.
    unfold info. now destruct (holds ak0 abERam). }
  split; [unfold region; now rewrite (He Had) | ].
  split; [exact Hread | ]. split; [apply Hwrite | ].
  split.
  - intros s r. unfold readByte. addrs.
    replace (ad <=? 0xFF) with false by (symmetry; apply Z.leb_gt; lia).
    rewrite andb_false_r.
    replace ((0x8000 <=? ad) && (ad <=? 0xC000)) with true
      by (symmetry; apply andb_true_iff; split; apply Z.leb_le; lia).
    destruct (lockAddr 0x8000 s) as [s1 | e | ]; cbn [bind];
      [ | discriminate | discriminate].
    destruct (the_mmu s1) as [mm1 | e | ]; cbn [bind];
      [ | discriminate | discriminate].
    unfold ReadByteAt. rewrite (Her Had). cbn [bind].
    rewrite (getAddressInfo_unknown ad Had). block_eqs. unfold info.
    destruct (holds (mmuKeys s1) abERam); discriminate.
  - intros s s'. unfold writeByte. addrs.
    replace ((0x8000 <=? ad) && (ad <=? 0xC000)) with true
      by (symmetry; apply andb_true_iff; split; apply Z.leb_le; lia).
    destruct (lockAddr 0x8000 s) as [s1 | e | ]; cbn [bind];
      [ | discriminate | discriminate].
    unfold mmu_write.
    destruct (the_mmu s1) as [mm1 | e | ]; cbn [bind];
      [ | discriminate | discriminate].
    rewrite Hwrite. discriminate.
Qed.

Lemma external_ram_fatal_witness :
  0xA000 <= 0xA123 < 0xC000 /\
  ReadByteAt (NewMmu None) 0xA123 abERam
  = Panic (UnhandledMemory "read" 0xA123 "unknown") /\
  WriteByteAt (NewMmu None) 0xA123 0x42 0
  = Panic (UnauthorizedWrite 0xA123 0x42).
Proof.
  split; [lia | ].
  split.
  - exact (proj1 (proj2 (external_ram_fatal (NewMmu None) 0xA123 0x42 abERam
                           ltac:(lia)))).
  - exact (proj1 (proj2 (proj2 (external_ram_fatal (NewMmu None) 0xA123 0x42 0
                                  ltac:(lia))))).
Defined.

(** *** Memory behind the regions *)

Lemma index_insert_eq (l : list Z) (i v : Z) :
  0 <= i -> (Z.to_nat i < length l)%nat ->
  index (<[Z.to_nat i := v]> l) i = Ok v.
Proof.
  intros Hi Hl. unfold index. destruct (Z.ltb_spec i 0); [lia | ].
  now rewrite list_lookup_insert_eq by exact Hl.
Qed.

Lemma index_insert_ne (l : list Z) (i j v : Z) :
  0 <= i -> i <> j -> index (<[Z.to_nat i := v]> l) j = index l j.
Proof.
  intros Hi Hne. unfold index. destruct (Z.ltb_spec j 0); [reflexivity | ].
  now rewrite list_lookup_insert_ne by lia.
Qed.

Lemma land_1FFF (x : Z) : Z.land x 0x1FFF = x mod 0x2000.
Proof. change 0x1FFF with (Z.ones 13). now rewrite Z.land_ones by lia. Qed.

Ltac fields :=
  cbn [rom vram ram oam gpuregs zero ie ioIF ioP1 locks kp
       with_vram with_ram with_oam with_gpuregs with_zero with_ie].

Ltac no_alias :=
  match goal with
  | |- context [alias ?x ?y] =>
      replace (alias x y) with false
        by (symmetry; unfold alias, in_ram; decide_cmp; reflexivity)
  end;
  cbn [andb].

(** A read somewhere else than in the block written to. *)
Ltac other_block Hs :=
  unfold ReadByteAt; rewrite Hs; cbn [bind]; block_eqs; cbn [andb];
  cbv iota; fields; no_alias; reflexivity.

Ltac read_cases ad' :=
  destruct (select_cases ad' "read")
    as [[Ha' Hs']|[[Ha' Hs']|[[Ha' Hs']|[[Ha' Hs']|[[Ha' Hs']|[[Ha' Hs']|
        [[Ha' Hs']|[[Ha' Hs']|[[Ha' Hs']|[[Ha' Hs']|
        [Ha' [[_ Hs']|[_ [err Hs']]]]]]]]]]]]]].

(** A read in the array written to, at offset [ad' - base]. *)
Ltac same_array Hs base :=
  unfold ReadByteAt; rewrite Hs; cbn [bind]; block_eqs; cbn [andb];
  cbv iota; fields;
  match goal with
  | |- context [holds ?k ?blk] => destruct (holds k blk)
  end;
  [ | rewrite andb_false_r; reflexivity];
  rewrite andb_true_r; unfold alias, in_ram;
  match goal with
  | |- context [?x =? ?y] => destruct (Z.eqb_spec x y) as [-> | Hne]
  end;
  cbn [orb];
  [ rewrite !IntFacts.u16_small by lia; apply index_insert_eq; lia
  | decide_cmp; cbn [andb];
    rewrite !IntFacts.u16_small by lia; apply index_insert_ne; lia ].

Lemma write_vram (mm : Mmu) (ad v ak : Z) :
  sized mm -> 0x8000 <= ad < 0xA000 -> holds ak abVRam = true ->
  let mm' := with_vram (<[Z.to_nat (ad - 0x8000) := v]> (vram mm)) mm in
  WriteByteAt mm ad v ak = Ok mm' /\
  forall ad' ak',
    ReadByteAt mm' ad' ak'
    = if alias ad ad' && holds ak' abVRam then Ok v
      else ReadByteAt mm ad' ak'.
Proof.
  intros (Hv & Hr & Ho & Hg & Hz) Had Hh mm'. subst mm'. split.
  - unfold WriteByteAt.
    rewrite (proj1 (proj2 (select_of_range ad "write")) Had). cbn [bind].
    rewrite Hh. block_eqs.
    rewrite IntFacts.u16_small, store_Ok by lia. reflexivity.
  - intros ad' ak'. read_cases ad';
      [ other_block Hs' | same_array Hs' 0x8000 | other_block Hs'
      | other_block Hs' | other_block Hs' | other_block Hs'
      | other_block Hs' | other_block Hs' | other_block Hs'
      | other_block Hs' | other_block Hs' | other_block Hs' ].
Qed.

Lemma write_oam (mm : Mmu) (ad v ak : Z) :
  sized mm -> 0xFE00 <= ad < 0xFEA0 -> holds ak abOam = true ->
  let mm' := with_oam (<[Z.to_nat (ad - 0xFE00) := v]> (oam mm)) mm in
  WriteByteAt mm ad v ak = Ok mm' /\
  forall ad' ak',
    ReadByteAt mm' ad' ak'
    = if alias ad ad' && holds ak' abOam then Ok v
      else ReadByteAt mm ad' ak'.
Proof.
  intros (Hv & Hr & Ho & Hg & Hz) Had Hh mm'. subst mm'. split.
  - unfold WriteByteAt.
    rewrite (proj1 (proj2 (proj2 (proj2 (proj2 (select_of_range ad "write")))))
               Had).
    cbn [bind]. rewrite Hh. block_eqs.
    rewrite IntFacts.u16_small, store_Ok by lia. reflexivity.
  - intros ad' ak'. read_cases ad';
      [ other_block Hs' | other_block Hs' | other_block Hs'
      | other_block Hs' | same_array Hs' 0xFE00 | other_block Hs'
      | other_block Hs' | other_block Hs' | other_block Hs'
      | other_block Hs' | other_block Hs' | other_block Hs' ].
Qed.

Lemma write_gpuregs (mm : Mmu) (ad v ak : Z) :
  sized mm -> 0xFF40 <= ad < 0xFF4C -> holds ak abGpuRegs = true ->
  let mm' := with_gpuregs (<[Z.to_nat (ad - 0xFF40) := v]> (gpuregs mm)) mm in
  WriteByteAt mm ad v ak = Ok mm' /\
  forall ad' ak',
    ReadByteAt mm' ad' ak'
    = if alias ad ad' && holds ak' abGpuRegs then Ok v
      else ReadByteAt mm ad' ak'.
Proof.
  intros (Hv & Hr & Ho & Hg & Hz) Had Hh mm'. subst mm'. split.
  - unfold WriteByteAt.
    destruct (select_of_range ad "write") as (_ & _ & _ & _ & _ & _ & _ & Hs & _).
    rewrite (Hs Had). cbn [bind]. rewrite Hh. block_eqs.
    rewrite IntFacts.u16_small, store_Ok by lia. reflexivity.
  - intros ad' ak'. read_cases ad';
      [ other_block Hs' | other_block Hs' | other_block Hs'
      | other_block Hs' | other_block Hs' | other_block Hs'
      | other_block Hs' | same_array Hs' 0xFF40 | other_block Hs'
      | other_block Hs' | other_block Hs' | other_block Hs' ].
Qed.

Lemma write_zero (mm : Mmu) (ad v ak : Z) :
  sized mm -> 0xFF80 <= ad < 0xFFFF -> holds ak abZero = true ->
  let mm' := with_zero (<[Z.to_nat (ad - 0xFF80) := v]> (zero mm)) mm in
  WriteByteAt mm ad v ak = Ok mm' /\
  forall ad' ak',
    ReadByteAt mm' ad' ak'
    = if alias ad ad' && holds ak' abZero then Ok v
      else ReadByteAt mm ad' ak'.
Proof.
  intros (Hv & Hr & Ho & Hg & Hz) Had Hh mm'. subst mm'. split.
  - unfold WriteByteAt.
    destruct (select_of_range ad "write")
      as (_ & _ & _ & _ & _ & _ & _ & _ & Hs & _).
    rewrite (Hs Had). cbn [bind]. rewrite Hh. block_eqs.
    rewrite IntFacts.u16_small, store_Ok by lia. reflexivity.
  - intros ad' ak'. read_cases ad';
      [ other_block Hs' | other_block Hs' | other_block Hs'
      | other_block Hs' | other_block Hs' | other_block Hs'
      | other_block Hs' | other_block Hs' | same_array Hs' 0xFF80
      | other_block Hs' | other_block Hs' | other_block Hs' ].
Qed.

Lemma write_ie (mm : Mmu) (ad v ak : Z) :
  ad = 0xFFFF -> holds ak abIE = true ->
  let mm' := with_ie v mm in
  WriteByteAt mm ad v ak = Ok mm' /\
  forall ad' ak',
    ReadByteAt mm' ad' ak'
    = if alias ad ad' && holds ak' abIE then Ok v
      else ReadByteAt mm ad' ak'.
Proof.
  intros Had Hh mm'. subst mm'. split.
  - unfold WriteByteAt.
    destruct (select_of_range ad "write")
      as (_ & _ & _ & _ & _ & _ & _ & _ & _ & Hs).
    rewrite (Hs Had). cbn [bind]. rewrite Hh. block_eqs. reflexivity.
  - intros ad' ak'. read_cases ad';
      [ other_block Hs' | other_block Hs' | other_block Hs'
      | other_block Hs' | other_block Hs' | other_block Hs'
      | other_block Hs' | other_block Hs' | other_block Hs'
      | | other_block Hs' | other_block Hs' ].
    unfold ReadByteAt. rewrite Hs'. cbn [bind]. block_eqs. cbn [andb].
    cbv iota. fields. subst ad ad'. unfold alias. cbn [Z.eqb Pos.eqb orb].
    cbn [andb]. now destruct (holds ak' abIE).
Qed.

Lemma ram_offset (ad ad' : Z) :
  0xC000 <= ad < 0xFE00 -> 0xC000 <= ad' < 0xFE00 ->
  ((ad' - 0xC000) mod 0x2000 = (ad - 0xC000) mod 0x2000
   <-> (ad' - ad) mod 0x2000 = 0).
Proof. intros Ha Ha'. split; intros Heq; Z.div_mod_to_equations; lia. Qed.

Lemma write_ram (mm : Mmu) (ad v ak : Z) :
  sized mm -> 0xC000 <= ad < 0xFE00 -> holds ak abRam = true ->
  let mm' :=
    with_ram (<[Z.to_nat ((ad - 0xC000) mod 0x2000) := v]> (ram mm)) mm in
  WriteByteAt mm ad v ak = Ok mm' /\
  forall ad' ak',
    ReadByteAt mm' ad' ak'
    = if alias ad ad' && holds ak' abRam then Ok v
      else ReadByteAt mm ad' ak'.
Proof.
  intros (Hv & Hr & Ho & Hg & Hz) Had Hh mm'. subst mm'.
  assert (Hoff : 0 <= (ad - 0xC000) mod 0x2000 < 0x2000)
    by (apply Z.mod_pos_bound; lia).
  split.
  - unfold WriteByteAt.
    destruct (select_of_range ad "write") as (_ & _ & _ & Hs & _).
    rewrite (Hs Had). cbn [bind]. rewrite Hh. block_eqs.
    rewrite IntFacts.u16_small, land_1FFF, store_Ok by lia. reflexivity.
  - intros ad' ak'. read_cases ad';
      [ other_block Hs' | other_block Hs' | other_block Hs'
      | | other_block Hs' | other_block Hs'
      | other_block Hs' | other_block Hs' | other_block Hs'
      | other_block Hs' | other_block Hs' | other_block Hs' ].
    unfold ReadByteAt. rewrite Hs'. cbn [bind]. block_eqs. cbn [andb].
    cbv iota. fields.
    destruct (holds ak' abRam); [ | rewrite andb_false_r; reflexivity].
    rewrite andb_true_r, IntFacts.u16_small, land_1FFF by lia.
    assert (Hoff' : 0 <= (ad' - 0xC000) mod 0x2000 < 0x2000)
      by (apply Z.mod_pos_bound; lia).
    pose proof (ram_offset ad ad' Had Ha') as Hiff.
    assert (Halias : alias ad ad' = ((ad' - ad) mod 0x2000 =? 0)).
    { unfold alias, in_ram. decide_cmp. cbn [andb].
      destruct (Z.eqb_spec ad' ad) as [-> | Hne]; [ | reflexivity].
      now rewrite Z.sub_diag. }
    rewrite Halias.
    destruct (Z.eqb_spec ((ad' - ad) mod 0x2000) 0) as [Heq | Hne].
    + rewrite (proj2 Hiff Heq). apply index_insert_eq; lia.
    + apply index_insert_ne; [lia | ].
      intros Heq. apply Hne, Hiff. now symmetry.
Qed.

Lemma sized_NewMmu (cart : option (list Z)) : sized (NewMmu cart).
Proof.
  unfold sized, NewMmu. cbn [vram ram oam gpuregs zero].
  rewrite !length_replicate. repeat split; reflexivity.
Qed.

(** X16. On an MMU with its arrays at their sizes, a write with the key to
    an address of video RAM, work RAM, OAM, the GPU registers, high RAM or
    IE returns; a read of that address with the key then gives the byte
    written, and so does a read of the address 0x2000 away in work RAM and
    its echo (0xC000-0xFDFF).  Every other read, with any key set, gives
    what it gave before the write; ROM, the two ports and the locks are as
    they were. *)
Theorem write_then_read (mm : Mmu) (ad v ak blk : Z) :
  sized mm -> region ad = Some blk -> In blk memory_blocks ->
  holds ak blk = true ->
  exists mm',
    WriteByteAt mm ad v ak = Ok mm' /\ sized mm' /\
    ReadByteAt mm' ad ak = Ok v /\
    (forall ad' ak',
       ReadByteAt mm' ad' ak'
       = if alias ad ad' && holds ak' blk then Ok v
         else ReadByteAt mm ad' ak') /\
    rom mm' = rom mm /\ locks mm' = locks mm /\
    ioIF mm' = ioIF mm /\ ioP1 mm' = ioP1 mm.
Proof.
  intros Hsz Hreg Hin Hh.
  assert (Hself : alias ad ad = true)
    by (unfold alias; now rewrite Z.eqb_refl).
  assert (Hgoal : exists mm',
             WriteByteAt mm ad v ak = Ok mm' /\ sized mm' /\
             (forall ad' ak',
                ReadByteAt mm' ad' ak'
                = if alias ad ad' && holds ak' blk then Ok v
                  else ReadByteAt mm ad' ak') /\
             rom mm' = rom mm /\ locks mm' = locks mm /\
             ioIF mm' = ioIF mm /\ ioP1 mm' = ioP1 mm).
  { pose proof Hsz as (Hv & Hr & Ho & Hg & Hz).
    destruct (region_cases ad blk Hreg)
      as [[-> Ha]|[[-> Ha]|[[-> Ha]|[[-> Ha]|[[-> Ha]|[[-> Ha]|[[-> Ha]|
          [[-> Ha]|[[-> Ha]|[-> Ha]]]]]]]]]];
      try (exfalso; cbn in Hin; intuition discriminate).
    - destruct (write_vram mm ad v ak Hsz Ha Hh) as [Hw Hrd].
      eexists. split; [exact Hw | ]. split; [ | split; [exact Hrd | ]].
      + unfold sized. fields. rewrite length_insert. tauto.
      + repeat split; reflexivity.
    - destruct (write_ram mm ad v ak Hsz Ha Hh) as [Hw Hrd].
      eexists. split; [exact Hw | ]. split; [ | split; [exact Hrd | ]].
      + unfold sized. fields. rewrite length_insert. tauto.
      + repeat split; reflexivity.
    - destruct (write_oam mm ad v ak Hsz Ha Hh) as [Hw Hrd].
      eexists. split; [exact Hw | ]. split; [ | split; [exact Hrd | ]].
      + unfold sized. fields. rewrite length_insert. tauto.
      + repeat split; reflexivity.
    - destruct (write_gpuregs mm ad v ak Hsz Ha Hh) as [Hw Hrd].
      eexists. split; [exact Hw | ]. split; [ | split; [exact Hrd | ]].
      + unfold sized. fields. rewrite length_insert. tauto.
      + repeat split; reflexivity.
    - destruct (write_zero mm ad v ak Hsz Ha Hh) as [Hw Hrd].
      eexists. split; [exact Hw | ]. split; [ | split; [exact Hrd | ]].
      + unfold sized. fields. rewrite length_insert. tauto.
      + repeat split; reflexivity.
    - destruct (write_ie mm ad v ak Ha Hh) as [Hw Hrd].
      eexists. split; [exact Hw | ]. split; [ | split; [exact Hrd | ]].
      + unfold sized. fields. tauto.
      + repeat split; reflexivity. }
  destruct Hgoal as (mm' & Hw & Hsz' & Hrd & Hrest).
  exists mm'. split; [exact Hw | ]. split; [exact Hsz' | ].
  split; [ | split; [exact Hrd | exact Hrest]].
  rewrite Hrd, Hself, Hh. reflexivity.
Qed.

Lemma write_then_read_witness :
  sized (NewMmu None) /\ region 0xC010 = Some abRam /\
  In abRam memory_blocks /\ holds abRam abRam = true /\
  exists mm',
    WriteByteAt (NewMmu None) 0xC010 0x42 abRam = Ok mm' /\
    ReadByteAt mm' 0xC010 abRam = Ok 0x42 /\
    ReadByteAt mm' 0xE010 abRam = Ok 0x42.
Proof.
  split; [apply sized_NewMmu | ]. split; [reflexivity | ].
  assert (Hin : In abRam memory_blocks) by (cbn; tauto).
  split; [exact Hin | ]. split; [reflexivity | ].
  destruct (write_then_read (NewMmu None) 0xC010 0x42 abRam abRam
              (sized_NewMmu None) eq_refl Hin eq_refl)
    as (mm' & Hw & _ & Hr & Hrd & _).
  exists mm'. split; [exact Hw | ]. split; [exact Hr | ].
  rewrite Hrd. reflexivity.
Defined.

(** *** The two ports *)

Lemma WriteByteAt_IF (mm : Mmu) (v ak : Z) :
  WriteByteAt mm AddrIF v ak
  = Ok (with_ioIF (mmio_writeByte (ioIF mm) v (holds ak abIF)) mm).
Proof. reflexivity. Qed.

Lemma ReadByteAt_IF (mm : Mmu) (ak : Z) :
  ReadByteAt mm AddrIF ak = Ok (mmio_readByte (ioIF mm) (holds ak abIF)).
Proof. reflexivity. Qed.

Lemma ReadIoByte_IF (mm : Mmu) (ak : Z) :
  ReadIoByte mm AddrIF ak
  = if holds ak abIF then
      Ok (write (ioIF mm), queued (ioIF mm),
          with_ioIF (mkMmio (ioaddr (ioIF mm)) (value (ioIF mm))
                            (read (ioIF mm)) (write (ioIF mm)) false) mm)
    else Panic (UnhandledIoRead (ioaddr (ioIF mm))).
Proof.
  unfold ReadIoByte.
  change (selectAddressBlock AddrIF "write") with (Ok (abIF, AddrIF)).
  cbn [bind]. block_eqs. unfold mmio_readIoByte.
  now destruct (holds ak abIF).
Qed.

(** X17. The interrupt-flag port between its owner (the caller holding
    the IF key) and the other bus masters.  A write by another master is
    staged: reads by either side still give what they gave, and the owner's
    next [ReadIoByte] hands over the staged byte once, flagged as new, and
    not flagged after that; of two staged bytes the later one wins.  A
    write by the owner is what both sides read from then on, but while a
    byte is staged it does not replace it; with nothing staged it is also
    what [ReadIoByte] returns.  [ReadIoByte] by anyone else panics. *)
Theorem port_IF_protocol (mm : Mmu) (own other v w : Z) :
  holds own abIF = true -> holds other abIF = false ->
  exists mm1,
    WriteByteAt mm AddrIF v other = Ok mm1 /\
    ReadByteAt mm1 AddrIF own = ReadByteAt mm AddrIF own /\
    ReadByteAt mm1 AddrIF other = ReadByteAt mm AddrIF other /\
    (exists mm2,
       ReadIoByte mm1 AddrIF own = Ok (v, true, mm2) /\
       ReadIoByte mm2 AddrIF own = Ok (v, false, mm2)) /\
    (exists mm1' mm2,
       WriteByteAt mm1 AddrIF w other = Ok mm1' /\
       ReadIoByte mm1' AddrIF own = Ok (w, true, mm2)) /\
    (exists mm3 mm4,
       WriteByteAt mm1 AddrIF w own = Ok mm3 /\
       ReadByteAt mm3 AddrIF own = Ok w /\
       ReadByteAt mm3 AddrIF other = Ok w /\
       ReadIoByte mm3 AddrIF own = Ok (v, true, mm4)) /\
    (queued (ioIF mm) = false ->
     exists mm5,
       WriteByteAt mm AddrIF w own = Ok mm5 /\
       ReadByteAt mm5 AddrIF other = Ok w /\
       ReadIoByte mm5 AddrIF own = Ok (w, false, mm5)) /\
    ReadIoByte mm1 AddrIF other
    = Panic (UnhandledIoRead (ioaddr (ioIF mm))).
Proof.
  intros Hown Hother.
  eexists. split; [apply WriteByteAt_IF | ].
  rewrite !ReadByteAt_IF, !WriteByteAt_IF, !ReadIoByte_IF.
  rewrite Hown, Hother. cbn.
  split; [reflexivity | ]. split; [reflexivity | ].
  split.
  { eexists. split; [reflexivity | ].
    rewrite ?ReadIoByte_IF, ?Hown. reflexivity. }
  split.
  { eexists. eexists. split; [reflexivity | ].
    rewrite ?ReadIoByte_IF, ?Hown. reflexivity. }
  split.
  { eexists. eexists. split; [reflexivity | ].
    rewrite ?ReadByteAt_IF, ?ReadIoByte_IF, ?Hown, ?Hother.
    repeat split; reflexivity. }
  split; [ | reflexivity].
  intros Hq. eexists. split; [reflexivity | ].
  rewrite ?ReadByteAt_IF, ?ReadIoByte_IF, ?Hown, ?Hother. cbn.
  rewrite Hq. cbn. split; [reflexivity | ].
  destruct mm as [? ? ? ? ? ? ? [? ? ? ? ?] ? ? ?]. reflexivity.
Qed.

Lemma port_IF_protocol_witness :
  holds abIF abIF = true /\ holds 0 abIF = false /\
  exists mm1 mm2,
    WriteByteAt (NewMmu None) AddrIF 0x01 0 = Ok mm1 /\
    ReadByteAt mm1 AddrIF abIF = Ok 0 /\
    ReadIoByte mm1 AddrIF abIF = Ok (0x01, true, mm2) /\
    ReadIoByte mm2 AddrIF abIF = Ok (0x01, false, mm2).
Proof.
  split; [reflexivity | split; [reflexivity | ]].
  destruct (port_IF_protocol (NewMmu None) abIF 0 0x01 0x00 eq_refl eq_refl)
    as (mm1 & Hw & Hr & _ & (mm2 & Hio & Hio2) & _).
  exists mm1, mm2. split; [exact Hw | ]. split; [ | split; assumption].
  rewrite Hr. reflexivity.
Defined.

(** [ReadIoByte] serves the two ports only: in every other region it
    panics on an unhandled queued write whatever the caller's keys, and at
    a port it panics on an unhandled IO read for a caller without the
    port's key. *)
Theorem ReadIoByte_errors (mm : Mmu) (ad ak blk : Z) :
  region ad = Some blk ->
  (blk <> abP1 -> blk <> abIF ->
   ReadIoByte mm ad ak = Panic (UnhandledQueuedWrite ad)) /\
  (blk = abP1 -> holds ak abP1 = false ->
   ReadIoByte mm ad ak = Panic (UnhandledIoRead (ioaddr (ioP1 mm)))) /\
  (blk = abIF -> holds ak abIF = false ->
   ReadIoByte mm ad ak = Panic (UnhandledIoRead (ioaddr (ioIF mm)))) /\
  (ioaddr (ioP1 (NewMmu None)) = 0xFF00 /\
   ioaddr (ioIF (NewMmu None)) = 0xFF0F).
Proof.
  intros Hreg.
  destruct (region_select ad blk "write" Hreg) as (st & Hsel & Hin).
  unfold ReadIoByte. rewrite Hsel. cbn [bind].
  split; [ | split; [ | split; [ | split; reflexivity]]].
  - intros H1 H2. apply Z.eqb_neq in H1, H2. now rewrite H1, H2.
  - intros -> Hh. block_eqs. now rewrite Hh.
  - intros -> Hh. block_eqs. now rewrite Hh.
Qed.

Lemma ReadIoByte_errors_witness :
  region 0xFF80 = Some abZero /\
  ReadIoByte (NewMmu None) 0xFF80 0xFFFF = Panic (UnhandledQueuedWrite 0xFF80).
Proof.
  split; [reflexivity | ].
  destruct (ReadIoByte_errors (NewMmu None) 0xFF80 0xFFFF abZero eq_refl)
    as (Hother & _).
  apply Hother; discriminate.
Defined.

(** *** Two bus masters *)

Lemma clear_pow2_low (ak k i : Z) :
  0 <= k -> 0 <= i < 16 ->
  Z.testbit (Z.land ak (Z.lxor (2 ^ k) 0xFFFF)) i
  = Z.testbit ak i && negb (i =? k).
Proof.
  intros Hk Hi.
  rewrite Z.land_spec, Z.lxor_spec, Z.pow2_bits_eqb, testbit_FFFF by lia.
  rewrite (Z.eqb_sym k i).
  destruct (Z.ltb_spec i 16); [now rewrite xorb_true_r | lia].
Qed.

Lemma ldiff_pow2_testbit (lk k i : Z) :
  0 <= k -> 0 <= i ->
  Z.testbit (Z.ldiff lk (2 ^ k)) i = Z.testbit lk i && negb (i =? k).
Proof.
  intros Hk Hi. rewrite Z.ldiff_spec, Z.pow2_bits_eqb by lia.
  now rewrite (Z.eqb_sym k i).
Qed.

Lemma exclusive_sym (lk ak1 ak2 : Z) :
  exclusive lk ak1 ak2 -> exclusive lk ak2 ak1.
Proof.
  intros Hex k Hk. destruct (Hex k Hk) as [Hl Hn].
  rewrite orb_comm, andb_comm. now split.
Qed.

Lemma exclusive_start : exclusive 0 0 0.
Proof. intros k Hk. rewrite Z.bits_0. now split. Qed.

Lemma LockAddr_exclusive (mm mm' : Mmu) (ad ak1 ak2 ak1' : Z) :
  exclusive (locks mm) ak1 ak2 ->
  LockAddr mm ad ak1 = Ok (mm', ak1') ->
  exclusive (locks mm') ak1' ak2.
Proof.
  intros Hex Hl. unfold LockAddr in Hl.
  destruct (selectAddressBlock ad "lock") as [[blk st] | | ] eqn:Hs;
    cbn [bind] in Hl; try discriminate.
  destruct (holds ak1 blk) eqn:Hh.
  { injection Hl as <- <-. exact Hex. }
  unfold mutexLock in Hl.
  destruct (blk =? abNil); [discriminate | ].
  destruct (Z.land (locks mm) blk =? 0) eqn:Hfree; [ | discriminate].
  cbn [bind] in Hl. injection Hl as <- <-. cbn [locks with_locks].
  destruct (selectAddressBlock_blocks ad "lock" blk st Hs) as [-> | Hin].
  { unfold holds, abNil in Hh. rewrite Z.land_0_r in Hh. discriminate. }
  destruct (blocks_bit blk st Hin) as (j & Hj & ->).
  rewrite free_pow2 in Hfree by lia. apply negb_true_iff in Hfree.
  intros k Hk. destruct (Hex k Hk) as [Hlk Hno].
  rewrite !lor_pow2_testbit by lia.
  destruct (Z.eqb_spec k j) as [-> | Hne].
  - rewrite Hfree in Hlk. symmetry in Hlk.
    apply orb_false_iff in Hlk. destruct Hlk as [H1 H2].
    rewrite Hfree, H1, H2. now split.
  - rewrite !orb_false_r. now split.
Qed.

Lemma UnlockAddr_exclusive (mm mm' : Mmu) (ad ak1 ak2 ak1' : Z) :
  exclusive (locks mm) ak1 ak2 ->
  UnlockAddr mm ad ak1 = Ok (mm', ak1') ->
  exclusive (locks mm') ak1' ak2.
Proof.
  intros Hex Hl. unfold UnlockAddr in Hl.
  destruct (selectAddressBlock ad "unlock") as [[blk st] | | ] eqn:Hs;
    cbn [bind] in Hl; try discriminate.
  destruct (holds ak1 blk) eqn:Hh; cbn [negb] in Hl.
  2:{ injection Hl as <- <-. exact Hex. }
  unfold mutexUnlock in Hl.
  destruct (Z.eqb_spec blk abNil) as [Hnil | Hnn]; [discriminate | ].
  destruct (Z.land (locks mm) blk =? 0) eqn:Hfree; [discriminate | ].
  cbn [bind] in Hl. injection Hl as <- <-. cbn [locks with_locks].
  destruct (selectAddressBlock_blocks ad "unlock" blk st Hs) as [Hnil | Hin];
    [contradiction | ].
  destruct (blocks_bit blk st Hin) as (j & Hj & ->).
  rewrite holds_pow2 in Hh by lia.
  intros k Hk. destruct (Hex k Hk) as [Hlk Hno].
  rewrite ldiff_pow2_testbit, clear_pow2_low by lia.
  destruct (Z.eqb_spec k j) as [-> | Hne]; cbn [negb].
  - rewrite Hh in Hno. cbn [andb] in Hno. rewrite Hno, !andb_false_r.
    now split.
  - rewrite !andb_true_r. now split.
Qed.

(** X18. Mutual exclusion of two bus masters that take and give back keys
    through [LockAddr] and [UnlockAddr] only.  When each block's mutex is
    locked exactly if one of the two holds its key, and no key is held by
    both, the same is true after either call by either master returns, and
    the call leaves the memory as it was; a master asking for a key the
    other one holds waits. *)
Theorem lock_exclusion (mm : Mmu) (ad ak1 ak2 : Z) :
  exclusive (locks mm) ak1 ak2 ->
  (forall mm' ak',
     LockAddr mm ad ak1 = Ok (mm', ak') \/
     UnlockAddr mm ad ak1 = Ok (mm', ak') ->
     exclusive (locks mm') ak' ak2 /\ same_memory mm mm') /\
  (forall mm' ak',
     LockAddr mm ad ak2 = Ok (mm', ak') \/
     UnlockAddr mm ad ak2 = Ok (mm', ak') ->
     exclusive (locks mm') ak1 ak' /\ same_memory mm mm') /\
  (forall blk, region ad = Some blk ->
     (holds ak2 blk = true ->
      holds ak1 blk = false /\ LockAddr mm ad ak1 = Blocked) /\
     (holds ak1 blk = true ->
      holds ak2 blk = false /\ LockAddr mm ad ak2 = Blocked)).
Proof.
  intros Hex.
  assert (Hone : forall a b mm' ak',
             exclusive (locks mm) a b ->
             LockAddr mm ad a = Ok (mm', ak') \/
             UnlockAddr mm ad a = Ok (mm', ak') ->
             exclusive (locks mm') ak' b /\ same_memory mm mm').
  { intros a b mm' ak' Hab [Hl | Hu].
    - split; [exact (LockAddr_exclusive _ _ _ _ _ _ Hab Hl) | ].
      destruct (LockAddr_inv _ _ _ _ _ Hl) as (? & ? & _ & Hsame & _).
      exact Hsame.
    - split; [exact (UnlockAddr_exclusive _ _ _ _ _ _ Hab Hu) | ].
      destruct (UnlockAddr_inv _ _ _ _ _ Hu) as (? & ? & _ & Hsame & _).
      exact Hsame. }
  assert (Hwait : forall a b blk,
             exclusive (locks mm) a b -> region ad = Some blk ->
             holds b blk = true ->
             holds a blk = false /\ LockAddr mm ad a = Blocked).
  { intros a b blk Hab Hreg Hb.
    destruct (region_select ad blk "lock" Hreg) as (st & Hsel & Hin).
    destruct (blocks_bit blk st Hin) as (j & Hj & ->).
    rewrite holds_pow2 in Hb |- * by lia.
    destruct (Hab j Hj) as [Hlk Hno].
    rewrite Hb, orb_true_r in Hlk. rewrite Hb, andb_true_r in Hno.
    split; [exact Hno | ].
    apply (LockAddr_waits mm ad a j st Hsel); [lia | | exact Hlk].
    now rewrite holds_pow2 by lia. }
  split; [intros mm' ak'; apply Hone; exact Hex | ].
  split.
  - intros mm' ak' Hcall.
    destruct (Hone ak2 ak1 mm' ak' (exclusive_sym _ _ _ Hex) Hcall)
      as [Hex' Hsame].
    split; [apply exclusive_sym; exact Hex' | exact Hsame].
  - intros blk Hreg. split.
    + apply (Hwait ak1 ak2 blk Hex Hreg).
    + apply (Hwait ak2 ak1 blk (exclusive_sym _ _ _ Hex) Hreg).
Qed.

Lemma lock_exclusion_witness :
  exclusive (locks (NewMmu None)) 0 0 /\
  exists mm',
    LockAddr (NewMmu None) AddrVRam 0 = Ok (mm', abVRam) /\
    exclusive (locks mm') abVRam 0 /\
    LockAddr mm' AddrVRam 0 = Blocked.
Proof.
  split; [exact exclusive_start | ].
  destruct (lock_exclusion (NewMmu None) AddrVRam 0 0 exclusive_start)
    as (Hkeep & _ & _).
  eexists. split; [reflexivity | ].
  split; [ | reflexivity].
  apply (Hkeep _ abVRam). left. reflexivity.
Defined.

(** *** Words in high RAM *)

Lemma readByte_zero (s : Cpu) (mm : Mmu) (ad : Z) :
  mmu s = Some mm -> holds (mmuKeys s) abZero = true ->
  0xFF80 <= ad < 0xFFFF ->
  readByte ad s = let! v := index (zero mm) (ad - 0xFF80) in Ok (v, s).
Proof.
  intros Hmm Hh Had. unfold readByte. addrs.
  replace (ad <=? 0xFF) with false by (symmetry; apply Z.leb_gt; lia).
  rewrite andb_false_r.
  replace (ad <=? 0xC000) with false by (symmetry; apply Z.leb_gt; lia).
  replace (ad <=? 0xFEA0) with false by (symmetry; apply Z.leb_gt; lia).
  rewrite !andb_false_r.
  unfold the_mmu. rewrite Hmm. cbn [bind].
  unfold ReadByteAt. rewrite (select_zero ad "read" Had). cbn [bind].
  rewrite Hh. block_eqs. cbn [andb]. cbv iota.
  unfold AddrZero. rewrite IntFacts.u16_small by lia. reflexivity.
Qed.

Lemma Low_mod (w : Z) : Low w = w mod 256.
Proof.
  unfold Low. change 0xFF with (Z.ones 8). now rewrite Z.land_ones by lia.
Qed.

Lemma High_div (w : Z) : 0 <= w < 65536 -> High w = w / 256.
Proof.
  intros Hw. unfold High, Int.u8. rewrite Z.shiftr_div_pow2 by lia.
  change (2 ^ 8) with 256. apply Z.mod_small.
  Z.div_mod_to_equations. lia.
Qed.

Lemma BytesToWord_bytes (w : Z) :
  0 <= w < 65536 -> BytesToWord (w / 256) (w mod 256) = w.
Proof.
  intros Hw. unfold BytesToWord, Int.u16.
  rewrite Z.shiftl_mul_pow2 by lia. change (2 ^ 8) with 256.
  Z.div_mod_to_equations. lia.
Qed.

(** X19. A word written by [writeWord] to high RAM (0xFF80-0xFFFD, its key
    held, the array at its size) is laid out little-endian, the low byte at
    the address and the high byte at the next one, and [readWord] at the
    same address gives the word back.  The write changes nothing of the
    CPU's registers and keys, the reads change nothing at all. *)
Theorem word_round_trip (s : Cpu) (mm : Mmu) (ad w : Z) :
  mmu s = Some mm -> holds (mmuKeys s) abZero = true -> sized mm ->
  0xFF80 <= ad < 0xFFFE -> 0 <= w < 65536 ->
  exists s1,
    writeWord ad w s = Ok s1 /\ same_regs s s1 /\ mmuKeys s1 = mmuKeys s /\
    readByte ad s1 = Ok (w mod 256, s1) /\
    readByte (ad + 1) s1 = Ok (w / 256, s1) /\
    readWord ad s1 = Ok (w, s1).
Proof.
  intros Hmm Hh (_ & _ & _ & _ & Hz) Had Hw.
  unfold writeWord.
  rewrite (writeByte_zero s mm ad (Low w) Hmm Hh) by lia. cbn [bind].
  rewrite (IntFacts.u16_small (ad + 1)) by lia.
  erewrite writeByte_zero;
    [ | reflexivity | exact Hh | lia
      | cbn [zero with_zero]; rewrite length_insert; lia ].
  eexists. split; [reflexivity | ].
  split; [unfold same_regs; cbn; repeat split; reflexivity | ].
  split; [reflexivity | ].
  cbn [mmu with_mmu mmuKeys zero with_zero].
  match goal with
  | |- readByte ad ?s1 = _ /\ _ =>
      assert (Hb0 : readByte ad s1 = Ok (w mod 256, s1));
      [ | assert (Hb1 : readByte (ad + 1) s1 = Ok (w / 256, s1)) ]
  end.
  - erewrite readByte_zero; [ | reflexivity | exact Hh | lia].
    cbn [zero with_zero]. unfold index.
    destruct (Z.ltb_spec (ad - 0xFF80) 0); [lia | ].
    rewrite list_lookup_insert_ne by lia.
    rewrite list_lookup_insert_eq by lia.
    cbn [bind]. now rewrite Low_mod.
  - erewrite readByte_zero; [ | reflexivity | exact Hh | lia].
    cbn [zero with_zero]. unfold index.
    destruct (Z.ltb_spec (ad + 1 - 0xFF80) 0); [lia | ].
    rewrite list_lookup_insert_eq by (rewrite length_insert; lia).
    cbn [bind]. now rewrite High_div.
  - split; [exact Hb0 | ]. split; [exact Hb1 | ].
    unfold readWord. rewrite Hb0. cbn [bind].
    rewrite (IntFacts.u16_small (ad + 1)) by lia. rewrite Hb1. cbn [bind].
    now rewrite BytesToWord_bytes.
Qed.

Lemma word_round_trip_witness :
  exists s1,
    writeWord 0xFFFC 0x0150 (Scenario.fresh None []) = Ok s1 /\
    readByte 0xFFFC s1 = Ok (0x50, s1) /\
    readByte 0xFFFD s1 = Ok (0x01, s1) /\
    readWord 0xFFFC s1 = Ok (0x0150, s1).
Proof.
  destruct (word_round_trip (Scenario.fresh None [])
              (with_locks Scenario.cpu_keys (NewMmu None)) 0xFFFC 0x0150
              eq_refl eq_refl (sized_NewMmu None) ltac:(lia) ltac:(lia))
    as (s1 & Hw & _ & _ & H0 & H1 & Hr).
  exists s1. split; [exact Hw | ]. split; [exact H0 | ].
  split; [exact H1 | exact Hr].
Defined.

(** *** Settling the interrupt flags *)



(** *** Byte accesses of the CPU in video RAM *)

Lemma cpu_same (s : Cpu) (mm : Mmu) :
  mmu s = Some mm -> with_mmu mm (mmuKeys s) s = s.
Proof. destruct s. cbn. now intros ->. Qed.

Lemma sized_with_locks (lk : Z) (mm : Mmu) :
  sized mm -> sized (with_locks lk mm).
Proof. intros Hsz. exact Hsz. Qed.

Lemma lockAddr_vram (s : Cpu) (mm : Mmu) :
  mmu s = Some mm -> holds (mmuKeys s) abVRam = false ->
  lockAddr AddrVRam s
  = if Z.testbit (locks mm) 2 then Blocked
    else Ok (with_mmu (with_locks (Z.lor (locks mm) abVRam) mm)
                      (Z.lor (mmuKeys s) abVRam) s).
Proof.
  intros Hmm Hh. unfold lockAddr, the_mmu. rewrite Hmm. cbn [bind].
  destruct (Z.testbit (locks mm) 2) eqn:Hlk.
  - now rewrite (LockAddr_waits mm AddrVRam (mmuKeys s) 2 AddrVRam eq_refl
                   ltac:(lia) Hh Hlk).
  - now rewrite (LockAddr_acquire mm AddrVRam (mmuKeys s) 2 AddrVRam eq_refl
                   ltac:(lia) Hh Hlk).
Qed.

Lemma unlockAddr_vram (s : Cpu) (mm : Mmu) :
  mmu s = Some mm -> holds (mmuKeys s) abVRam = true ->
  Z.testbit (locks mm) 2 = true ->
  unlockAddr AddrVRam s
  = Ok (with_mmu (with_locks (Z.ldiff (locks mm) abVRam) mm)
                 (Z.land (mmuKeys s) (Z.lxor abVRam 0xFFFF)) s).
Proof.
  intros Hmm Hh Hlk. unfold unlockAddr, the_mmu. rewrite Hmm. cbn [bind].
  now rewrite (UnlockAddr_release mm AddrVRam (mmuKeys s) 2 AddrVRam eq_refl
                 ltac:(lia) Hh Hlk).
Qed.

Lemma ReadByteAt_vram (mm : Mmu) (ad ak : Z) :
  0x8000 <= ad < 0xA000 -> holds ak abVRam = true ->
  ReadByteAt mm ad ak = index (vram mm) (ad - 0x8000).
Proof.
  intros Had Hh. unfold ReadByteAt.
  rewrite (proj1 (proj2 (select_of_range ad "read")) Had). cbn [bind].
  rewrite Hh. block_eqs. cbn [andb]. cbv iota.
  now rewrite IntFacts.u16_small by lia.
Qed.

Lemma vram_range (ad : Z) :
  0x8000 <= ad < 0xA000 ->
  (ad <=? 0xFF) = false /\ (AddrVRam <=? ad) && (ad <=? AddrRam) = true.
Proof.
  intros Had. addrs. split; [apply Z.leb_gt; lia | ].
  apply andb_true_iff. split; apply Z.leb_le; lia.
Qed.

Lemma held_after_lor (ak : Z) : holds (Z.lor ak abVRam) abVRam = true.
Proof.
  change abVRam with (2 ^ 2).
  rewrite holds_pow2, lor_pow2_testbit by lia. apply orb_true_r.
Qed.

Lemma locked_after_lor (lk : Z) : Z.testbit (Z.lor lk abVRam) 2 = true.
Proof.
  change abVRam with (2 ^ 2). rewrite lor_pow2_testbit by lia.
  apply orb_true_r.
Qed.

(** X21. A byte access of the CPU to video RAM (0x8000-0x9FFF, the arrays
    at their sizes, a 16-bit key set) when the CPU does not hold the VRAM
    key: while another bus master has the block locked the read and the
    write wait; otherwise the access takes the lock, reads or writes the
    byte at offset [ad - 0x8000] and gives the lock back, so that a read
    leaves the CPU and the MMU exactly as they were and a write changes that
    byte only.  When the CPU does hold the key beforehand, the access gives
    it away: afterwards the key is gone from the CPU's set and the block is
    unlocked. *)
Theorem vram_access_locks (s : Cpu) (mm : Mmu) (ad v : Z) :
  mmu s = Some mm -> sized mm -> 0x8000 <= ad < 0xA000 ->
  0 <= mmuKeys s < 65536 ->
  (holds (mmuKeys s) abVRam = false -> Z.testbit (locks mm) 2 = true ->
   readByte ad s = Blocked /\ writeByte ad v s = Blocked) /\
  (holds (mmuKeys s) abVRam = false -> Z.testbit (locks mm) 2 = false ->
   exists b,
     vram mm !! Z.to_nat (ad - 0x8000) = Some b /\
     readByte ad s = Ok (b, s) /\
     writeByte ad v s
     = Ok (with_mmu
             (with_vram (<[Z.to_nat (ad - 0x8000) := v]> (vram mm)) mm)
             (mmuKeys s) s)) /\
  (holds (mmuKeys s) abVRam = true -> Z.testbit (locks mm) 2 = true ->
   exists b,
     vram mm !! Z.to_nat (ad - 0x8000) = Some b /\
     readByte ad s
     = Ok (b, with_mmu (with_locks (Z.ldiff (locks mm) abVRam) mm)
                (Z.land (mmuKeys s) (Z.lxor abVRam 0xFFFF)) s) /\
     holds (Z.land (mmuKeys s) (Z.lxor abVRam 0xFFFF)) abVRam = false /\
     Z.testbit (Z.ldiff (locks mm) abVRam) 2 = false).
Proof.
  intros Hmm Hsz Had Hak.
  destruct (vram_range ad Had) as [Hbios Hrange].
  assert (Hlen : (Z.to_nat (ad - 0x8000) < length (vram mm))%nat).
  { destruct Hsz as (Hv & _). rewrite Hv. lia. }
  destruct (lookup_lt_is_Some_2 (vram mm) _ Hlen) as [b Hb].
  assert (Hidx : index (vram mm) (ad - 0x8000) = Ok b).
  { unfold index. destruct (Z.ltb_spec (ad - 0x8000) 0); [lia | ].
    now rewrite Hb. }
  split; [ | split].
  - intros Hh Hlk. unfold readByte, writeByte.
    rewrite Hbios, andb_false_r, Hrange, (lockAddr_vram s mm Hmm Hh), Hlk.
    split; reflexivity.
  - intros Hh Hlk. exists b. split; [exact Hb | ].
    assert (Hbit : Z.testbit (mmuKeys s) 2 = false).
    { rewrite <- (holds_pow2 (mmuKeys s) 2) by lia. exact Hh. }
    assert (Hkeys : Z.land (Z.lor (mmuKeys s) abVRam) (Z.lxor abVRam 0xFFFF)
                    = mmuKeys s).
    { change abVRam with (2 ^ 2). apply set_then_clear; lia || assumption. }
    assert (Hlocks : Z.ldiff (Z.lor (locks mm) abVRam) abVRam = locks mm).
    { change abVRam with (2 ^ 2). apply lock_then_release; lia || assumption. }
    unfold readByte, writeByte.
    rewrite Hbios, andb_false_r, Hrange, (lockAddr_vram s mm Hmm Hh), Hlk.
    cbn [bind]. unfold mmu_write, the_mmu. cbn [mmu with_mmu mmuKeys bind].
    split.
    + rewrite ReadByteAt_vram by (exact Had || apply held_after_lor).
      cbn [vram with_locks]. rewrite Hidx. cbn [bind].
      erewrite unlockAddr_vram;
        [ | reflexivity | apply held_after_lor | apply locked_after_lor ].
      cbn [mmuKeys with_mmu locks with_locks].
      rewrite Hkeys, Hlocks, with_locks_twice, with_locks_same.
      f_equal. f_equal. destruct s. cbn in Hmm |- *. now subst.
    + destruct (write_vram (with_locks (Z.lor (locks mm) abVRam) mm) ad v
                  (Z.lor (mmuKeys s) abVRam)
                  (sized_with_locks _ _ Hsz) Had (held_after_lor _))
        as [Hw _].
      rewrite Hw. cbn [bind].
      erewrite unlockAddr_vram;
        [ | reflexivity | apply held_after_lor | apply locked_after_lor ].
      cbn [mmuKeys with_mmu locks with_locks with_vram].
      rewrite Hkeys, Hlocks. reflexivity.
  - intros Hh Hlk. exists b. split; [exact Hb | ].
    split; [ | split].
    + unfold readByte.
      rewrite Hbios, andb_false_r, Hrange.
      unfold lockAddr, the_mmu. rewrite Hmm. cbn [bind].
      rewrite (LockAddr_held mm AddrVRam (mmuKeys s) abVRam AddrVRam
                 eq_refl Hh).
      cbn [bind mmu with_mmu mmuKeys].
      rewrite ReadByteAt_vram by assumption. rewrite Hidx. cbn [bind].
      erewrite unlockAddr_vram;
        [ | reflexivity | exact Hh | exact Hlk ].
      cbn [mmuKeys with_mmu]. reflexivity.
    + change abVRam with (2 ^ 2).
      rewrite holds_pow2, clear_pow2_low by lia. apply andb_false_r.
    + change abVRam with (2 ^ 2).
      rewrite ldiff_pow2_testbit by lia. apply andb_false_r.
Qed.

Lemma vram_access_locks_witness :
  exists s1,
    writeByte 0x8010 0x42 (Scenario.fresh None []) = Ok s1 /\
    mmuKeys s1 = Scenario.cpu_keys /\
    readByte 0x8010 s1 = Ok (0x42, s1).
Proof.
  destruct (vram_access_locks (Scenario.fresh None [])
              (with_locks Scenario.cpu_keys (NewMmu None)) 0x8010 0x42
              eq_refl (sized_NewMmu None) ltac:(lia)
              ltac:(vm_compute; split; [discriminate | reflexivity]))
    as (_ & Hfree & _).
  destruct (Hfree eq_refl eq_refl) as (b & _ & _ & Hw).
  eexists. split; [exact Hw | ]. split; [reflexivity | ].
  match goal with
  | |- readByte _ ?s1 = _ =>
      destruct (vram_access_locks s1
                  (with_vram (<[Z.to_nat (0x8010 - 0x8000) := 0x42]>
                                (vram (NewMmu None)))
                     (with_locks Scenario.cpu_keys (NewMmu None)))
                  0x8010 0x00 eq_refl)
        as (_ & Hfree' & _)
  end.
  - unfold sized. cbn [vram ram oam gpuregs zero with_vram with_locks].
    rewrite length_insert. apply (sized_NewMmu None).
  - lia.
  - vm_compute. split; [discriminate | reflexivity].
  - destruct (Hfree' eq_refl eq_refl) as (b' & Hb' & Hr & _).
    rewrite Hr. f_equal. f_equal.
    cbn [vram with_vram] in Hb'.
    rewrite list_lookup_insert_eq in Hb'
      by (unfold NewMmu; cbn [vram]; rewrite length_replicate; lia).
    now injection Hb' as <-.
Defined.

(** *** A fresh MMU *)

Lemma index_replicate (n : nat) (i : Z) :
  0 <= i -> (Z.to_nat i < n)%nat -> index (replicate n 0) i = Ok 0.
Proof.
  intros Hi Hn. unfold index. destruct (Z.ltb_spec i 0); [lia | ].
  now rewrite lookup_replicate_2 by exact Hn.
Qed.

Ltac fresh_read Hsel Hh :=
  unfold ReadByteAt; rewrite Hsel; cbn [bind]; rewrite Hh; block_eqs;
  cbn [andb]; cbv iota; unfold NewMmu;
  cbn [rom vram ram oam gpuregs zero ie ioIF ioP1];
  rewrite ?IntFacts.u16_small, ?land_1FFF by lia;
  try reflexivity;
  apply index_replicate;
  try match goal with
      | |- context [?x mod 0x2000] =>
          pose proof (Z.mod_pos_bound x 0x2000 ltac:(lia))
      end;
  lia.

(** X22. The MMU that [NewMmu] builds has its arrays at their sizes and no
    mutex locked.  With the region's key, a read of video RAM, work RAM or
    its echo, OAM, the GPU registers, high RAM, IE or one of the two ports
    gives 0; a read of ROM gives the cartridge's byte at that address, and
    is an index panic beyond the end of the cartridge image (everywhere,
    when there is no cartridge). *)
Theorem NewMmu_reads (cart : option (list Z)) (ad ak blk : Z) :
  region ad = Some blk -> holds ak blk = true -> 0 <= ad ->
  sized (NewMmu cart) /\ locks (NewMmu cart) = 0 /\
  (blk = abRom ->
   ReadByteAt (NewMmu cart) ad ak
   = match (match cart with Some r => r | None => [] end) !! Z.to_nat ad with
     | Some b => Ok b
     | None => Panic (IndexOutOfRange ad)
     end) /\
  (blk <> abRom -> blk <> abERam -> ReadByteAt (NewMmu cart) ad ak = Ok 0).
Proof.
  intros Hreg Hh Had.
  split; [apply sized_NewMmu | ]. split; [reflexivity | ].
  pose proof (select_of_range ad "read")
    as (H0 & H1 & H2 & H3 & H4 & H5 & H6 & H7 & H8 & H9).
  destruct (region_cases ad blk Hreg)
    as [[-> Ha]|[[-> Ha]|[[-> Ha]|[[-> Ha]|[[-> Ha]|[[-> Ha]|[[-> Ha]|
        [[-> Ha]|[[-> Ha]|[-> Ha]]]]]]]]]];
    (split; [intros Hb; try discriminate Hb
            | intros Hn1 Hn2; try contradiction]).
  - unfold ReadByteAt. rewrite (H0 Ha). cbn [bind]. rewrite Hh. block_eqs.
    cbn [andb]. cbv iota. rewrite Z.sub_0_r, IntFacts.u16_small by lia.
    unfold index, NewMmu. cbn [rom].
    destruct (Z.ltb_spec ad 0); [lia | reflexivity].
  - fresh_read (H1 Ha) Hh.
  - fresh_read (H3 Ha) Hh.
  - fresh_read (H4 Ha) Hh.
  - fresh_read (H5 Ha) Hh.
  - fresh_read (H6 Ha) Hh.
  - fresh_read (H7 Ha) Hh.
  - fresh_read (H8 Ha) Hh.
  - fresh_read (H9 Ha) Hh.
Qed.

Lemma NewMmu_reads_witness :
  region 0x0003 = Some abRom /\ holds abRom abRom = true /\ 0 <= 0x0003 /\
  ReadByteAt (NewMmu (Some [0x31; 0xFE; 0xFF])) 0x0002 abRom = Ok 0xFF /\
  ReadByteAt (NewMmu (Some [0x31; 0xFE; 0xFF])) 0x0003 abRom
  = Panic (IndexOutOfRange 0x0003).
Proof.
  split; [reflexivity | ]. split; [reflexivity | ]. split; [lia | ].
  split.
  - destruct (NewMmu_reads (Some [0x31; 0xFE; 0xFF]) 0x0002 abRom abRom
                eq_refl eq_refl ltac:(lia)) as (_ & _ & Hrom & _).
    exact (Hrom eq_refl).
  - destruct (NewMmu_reads (Some [0x31; 0xFE; 0xFF]) 0x0003 abRom abRom
                eq_refl eq_refl ltac:(lia)) as (_ & _ & Hrom & _).
    exact (Hrom eq_refl).
Defined.

End MmuFacts.
